(** * bugstats: code-freeze-week and regression reports

    A shallow embedding of [bugstats/cfw.py] and [bugstats/regrs.py].

    Conventions of the embedding.
    - A Python [str] is a [string] (a sequence of 8-bit characters).
    - A Python [int] is a [Z]; [bool] is [bool], and [True]/[False] count
      as 1/0 under [sum].
    - A [dict] is a [gmap]; a [set] is a [gset].
    - A Python exception is the [Err] case of [result].
    - Replies of the outside world (Bugzilla, hg.mozilla.org, the release
      calendar, whatthepatch, the file system) are explicit arguments. *)

From Stdlib Require Import ZArith Lia Bool List Ascii String.
From stdpp Require Import base option list gmap strings pretty sorting.

Local Open Scope Z_scope.
Local Open Scope string_scope.

#[local] Set Warnings "-clear-no-such-hyp".

(** ** Exceptions *)

Inductive exn :=
| KeyError
| ValueError
| TypeError
| AttributeError
| AssertionError
| OSError.

Inductive result (A : Type) :=
| Ok (a : A)
| Err (e : exn).
Arguments Ok {A} a.
Arguments Err {A} e.

Definition rbind {A B} (r : result A) (f : A -> result B) : result B :=
  match r with
  | Ok a => f a
  | Err e => Err e
  end.

Notation "x <-! r ; k" := (rbind r (fun x => k))
  (at level 100, r at next level, right associativity).

(** ** Python string methods *)

Module Str.

(** [s.startswith(p)] *)
Fixpoint startswith (s p : string) {struct p} : bool :=
  match p, s with
  | EmptyString, _ => true
  | String a p', String b s' => Ascii.eqb a b && startswith s' p'
  | String _ _, EmptyString => false
  end.

(** [s.endswith(p)]: some suffix of [s] is [p] *)
Fixpoint endswith (s p : string) : bool :=
  String.eqb s p ||
  match s with
  | EmptyString => false
  | String _ s' => endswith s' p
  end.

(** [s.endswith((p1, ..., pn))] *)
Definition endswith_any (s : string) (ps : list string) : bool :=
  existsb (endswith s) ps.

(** [sub in s] *)
Fixpoint contains (sub s : string) : bool :=
  startswith s sub ||
  match s with
  | EmptyString => false
  | String _ s' => contains sub s'
  end.

(** [s[n:]] *)
Fixpoint drop (n : nat) (s : string) : string :=
  match n, s with
  | O, _ => s
  | S n', String _ s' => drop n' s'
  | S _, EmptyString => EmptyString
  end.

(** [s[:n]] *)
Fixpoint take (n : nat) (s : string) : string :=
  match n, s with
  | O, _ => EmptyString
  | S n', String a s' => String a (take n' s')
  | S _, EmptyString => EmptyString
  end.

(** [s[-1]], if there is one *)
Fixpoint last_char (s : string) : option ascii :=
  match s with
  | EmptyString => None
  | String c EmptyString => Some c
  | String _ s' => last_char s'
  end.

(** [s.split(sep)] for a one-character separator *)
Fixpoint split (sep : ascii) (s : string) : list string :=
  match s with
  | EmptyString => [EmptyString]
  | String c s' =>
      if Ascii.eqb c sep then EmptyString :: split sep s'
      else
        match split sep s' with
        | h :: t => String c h :: t
        | [] => [String c EmptyString]
        end
  end.

(** [s.replace(c, '')] for a one-character [c] *)
Fixpoint remove (c : ascii) (s : string) : string :=
  match s with
  | EmptyString => EmptyString
  | String a s' => if Ascii.eqb a c then remove c s' else String a (remove c s')
  end.

(** [s.index(c)] for a one-character [c] that occurs in [s] *)
Fixpoint index (c : ascii) (s : string) : nat :=
  match s with
  | EmptyString => O
  | String a s' => if Ascii.eqb a c then O else S (index c s')
  end.

(** [s.lstrip(chars)], [s.rstrip(chars)], [s.strip(chars)] with the
    characters to remove given as a predicate *)
Fixpoint lstrip (sp : ascii -> bool) (s : string) : string :=
  match s with
  | String c s' => if sp c then lstrip sp s' else s
  | EmptyString => EmptyString
  end.

Fixpoint rstrip (sp : ascii -> bool) (s : string) : string :=
  match s with
  | String c s' =>
      match rstrip sp s' with
      | EmptyString => if sp c then EmptyString else String c EmptyString
      | t => String c t
      end
  | EmptyString => EmptyString
  end.

Definition strip (sp : ascii -> bool) (s : string) : string :=
  rstrip sp (lstrip sp s).

(** The characters [s.strip()] removes, among the first 256 code points *)
Definition isspace (c : ascii) : bool :=
  let n := nat_of_ascii c in
  ((9 <=? n) && (n <=? 13) || (28 <=? n) && (n <=? 32)
   || (n =? 133) || (n =? 160))%nat.

Definition isdigit (c : ascii) : bool :=
  ((48 <=? nat_of_ascii c) && (nat_of_ascii c <=? 57))%nat.

(** The white space that [int] drops around a number: the ASCII white
    space and, past ASCII, the characters of [isspace] *)
Definition int_space (c : ascii) : bool :=
  let n := nat_of_ascii c in
  ((9 <=? n) && (n <=? 13) || (n =? 32) || (n =? 133) || (n =? 160))%nat.

Definition digit_value (c : ascii) : Z := Z.of_nat (nat_of_ascii c) - 48.

(** The digits after a first one: single underscores may stand between
    digits *)
Fixpoint int_go (acc : Z) (s : string) : option Z :=
  match s with
  | EmptyString => Some acc
  | String c s' =>
      if isdigit c then int_go (10 * acc + digit_value c) s'
      else if Ascii.eqb c "_" then
        match s' with
        | String d s'' =>
            if isdigit d then int_go (10 * acc + digit_value d) s''
            else None
        | EmptyString => None
        end
      else None
  end.

Definition int_digits (s : string) : option Z :=
  match s with
  | String c s' => if isdigit c then int_go (digit_value c) s' else None
  | EmptyString => None
  end.

(** [int(s)]: a decimal number, with or without a sign, with or without
    white space around it *)
Definition int (s : string) : result Z :=
  let s := strip int_space s in
  let r :=
    match s with
    | String c s' =>
        if Ascii.eqb c "+" then int_digits s'
        else if Ascii.eqb c "-" then Z.opp <$> int_digits s'
        else int_digits s
    | EmptyString => None
    end in
  match r with
  | Some z => Ok z
  | None => Err ValueError
  end.

End Str.

(** ** Regular expressions ([re])

    A backtracking matcher with Python's priorities: alternatives left to
    right, [*] greedy. A character is matched by a predicate, so that
    classes, negated classes and literals are one constructor. *)

Inductive regex :=
| Eps
| Cls (p : ascii -> bool)
| Cat (r1 r2 : regex)
| Alt (r1 r2 : regex)
| Star (r : regex)
| Grp (n : nat) (r : regex)
| Bol.

Module Re.

Definition groups := list (nat * string).

Fixpoint lookup_group (n : nat) (g : groups) : option string :=
  match g with
  | [] => None
  | (m, s) :: g' => if Nat.eqb n m then Some s else lookup_group n g'
  end.

Section Matcher.
Context {A : Type}.

Definition cont := nat -> string -> groups -> option A.

(** Greedy iteration of [step]; an iteration that consumes nothing is
    not repeated. *)
Fixpoint rstar (fuel : nat)
    (step : nat -> string -> groups -> cont -> option A)
    (pos : nat) (s : string) (g : groups) (k : cont) : option A :=
  match fuel with
  | O => k pos s g
  | S fuel' =>
      match step pos s g
              (fun pos' s' g' =>
                 if (String.length s' <? String.length s)%nat
                 then rstar fuel' step pos' s' g' k
                 else None) with
      | Some a => Some a
      | None => k pos s g
      end
  end.

Fixpoint rmatch (r : regex) (pos : nat) (s : string) (g : groups)
    (k : cont) : option A :=
  match r with
  | Eps => k pos s g
  | Cls p =>
      match s with
      | String c s' => if p c then k (S pos) s' g else None
      | EmptyString => None
      end
  | Cat r1 r2 =>
      rmatch r1 pos s g (fun pos' s' g' => rmatch r2 pos' s' g' k)
  | Alt r1 r2 =>
      match rmatch r1 pos s g k with
      | Some a => Some a
      | None => rmatch r2 pos s g k
      end
  | Star r' => rstar (String.length s) (rmatch r') pos s g k
  | Grp n r' =>
      rmatch r' pos s g
        (fun pos' s' g' => k pos' s' ((n, Str.take (pos' - pos) s) :: g'))
  | Bol => if Nat.eqb pos 0 then k pos s g else None
  end.

End Matcher.

(** A match object: [m.start(0)], [m.end(0)], [m.group(0)] and the
    numbered groups. *)
Record mobj := mkMatch {
  m_start : nat;
  m_end : nat;
  m_group0 : string;
  m_groups : groups
}.

Definition group (m : mobj) (n : nat) : option string :=
  lookup_group n (m_groups m).

(** A match that starts at index [pos], where [s] is the rest of the
    subject from there; returns the match and the text after it. *)
Definition match_at (r : regex) (pos : nat) (s : string)
    : option (mobj * string) :=
  rmatch r pos s []
    (fun e s' g => Some (mkMatch pos e (Str.take (e - pos) s) g, s')).

Fixpoint search_from (r : regex) (pos : nat) (s : string) : option mobj :=
  match match_at r pos s with
  | Some (m, _) => Some m
  | None =>
      match s with
      | EmptyString => None
      | String _ s' => search_from r (S pos) s'
      end
  end.

(** [r.search(s)] *)
Definition search (r : regex) (s : string) : option mobj :=
  search_from r 0 s.

Fixpoint sub_from (fuel : nat) (r : regex) (repl : mobj -> string)
    (pos : nat) (s : string) : string :=
  match fuel with
  | O => s
  | S fuel' =>
      let skip :=
        match s with
        | EmptyString => EmptyString
        | String c s' => String c (sub_from fuel' r repl (S pos) s')
        end in
      match match_at r pos s with
      | Some (m, s') =>
          if Nat.eqb (m_end m) pos then repl m ++ skip
          else repl m ++ sub_from fuel' r repl (m_end m) s'
      | None => skip
      end
  end.

(** [r.sub(repl, s)] with a callable [repl] *)
Definition sub (r : regex) (repl : mobj -> string) (s : string) : string :=
  sub_from (S (String.length s)) r repl 0 s.

(** [r.sub('', s)] *)
Definition sub_empty (r : regex) (s : string) : string :=
  sub r (fun _ => EmptyString) s.

(** Pattern syntax *)
Definition chr (c : ascii) : regex := Cls (Ascii.eqb c).

Definition one_of (cs : list ascii) : regex :=
  Cls (fun c => existsb (Ascii.eqb c) cs).

Definition none_of (cs : list ascii) : regex :=
  Cls (fun c => negb (existsb (Ascii.eqb c) cs)).

Definition digit : regex :=
  Cls (fun c => (48 <=? nat_of_ascii c)%nat && (nat_of_ascii c <=? 57)%nat).

(** [.] without DOTALL: anything but a newline *)
Definition dot : regex := none_of ["010"%char].

Definition plus (r : regex) : regex := Cat r (Star r).

Definition opt (r : regex) : regex := Alt r Eps.

Fixpoint lit (s : string) : regex :=
  match s with
  | EmptyString => Eps
  | String c s' => Cat (chr c) (lit s')
  end.

Definition lower (c : ascii) : ascii :=
  let n := nat_of_ascii c in
  if ((65 <=? n) && (n <=? 90))%nat then ascii_of_nat (n + 32) else c.

(** A literal under [re.I] *)
Fixpoint lit_i (s : string) : regex :=
  match s with
  | EmptyString => Eps
  | String c s' =>
      Cat (Cls (fun x => Ascii.eqb (lower x) (lower c))) (lit_i s')
  end.

End Re.

Definition tab : ascii := "009"%char.

Definition PAR_PAT : regex :=
  Cat (Re.chr "(") (Cat (Star (Re.none_of [")"%char])) (Re.chr ")")).
Definition BRA_PAT : regex :=
  Cat (Re.chr "[") (Cat (Star (Re.none_of ["]"%char])) (Re.chr "]")).
Definition DIA_PAT : regex :=
  Cat (Re.chr "<") (Cat (Star (Re.none_of [">"%char])) (Re.chr ">")).
Definition UTC_PAT : regex :=
  Cat (Re.lit "UTC+") (Star (Re.none_of [" "%char; tab])).
Definition COL_PAT : regex :=
  Cat (Re.chr ":") (Star (Re.none_of [":"%char])).
Definition SOFTVISION_PAT : regex :=
  Cat (Re.plus (Re.none_of ["@"%char])) (Re.lit "@softvision").
Definition MOZREVIEW_URL_PAT : regex :=
  Cat (Re.lit "https://reviewboard")
   (Cat Re.dot (Cat (Re.lit "mozilla")
     (Cat Re.dot (Cat (Re.lit "org/r/")
       (Cat (Grp 1 (Re.plus Re.digit)) (Re.chr "/")))))).


(** ** Python containers *)

(** [d[k]] *)
Definition getitem `{Countable K} {V} (d : gmap K V) (k : K) : result V :=
  match d !! k with
  | Some v => Ok v
  | None => Err KeyError
  end.

(** [l.count(x)] on a list of booleans *)
Definition count (l : list bool) (x : bool) : Z :=
  Z.of_nat (length (filter (fun b => b = x) l)).

(** [sum] over a sequence of booleans *)
Definition sum_bool (l : list bool) : Z :=
  fold_left (fun acc (b : bool) => acc + (if b then 1 else 0)) l 0.

(** [sum] over a sequence of integers *)
Definition sum (l : list Z) : Z := fold_left Z.add l 0.

Definition is_None {A} (o : option A) : bool :=
  match o with None => true | Some _ => false end.

(** [sorted(l, key=key)]: a stable sort that compares keys with [<] only *)
Section Sorted.
Context {A K : Type} (lt : K -> K -> bool) (key : A -> K).

Fixpoint insort (x : A) (l : list A) : list A :=
  match l with
  | [] => [x]
  | y :: l' => if lt (key y) (key x) then y :: insort x l' else x :: l
  end.

Definition sorted (l : list A) : list A := foldr insort [] l.
End Sorted.

(** ** Data model *)

(** One landing reference of a bug *)
Record LandingEntry := mkLand {
  date : option string;
  backedout : bool;
  bugid : string
}.

(** The accumulator of patch statistics *)
Record patch_info := mkInfo {
  changes_size : Z;
  test_changes_size : Z;
  changes_add : Z;
  changes_del : Z
}.

(** A bug as the search returns it (the [include_fields] of the query).
    [r_assigned_to] is [bug.get('assigned_to')], [r_real_name] is
    [bug.get('assigned_to_detail', {}).get('real_name')], and [r_fields]
    holds the per-version [cf_status_firefoxN] and [cf_tracking_firefoxN]. *)
Record RawBug := mkRaw {
  r_id : Z;
  r_product : string;
  r_component : string;
  r_assigned_to : option string;
  r_real_name : option string;
  r_status : string;
  r_resolution : string;
  r_summary : string;
  r_priority : string;
  r_severity : string;
  r_keywords : list string + string;
  r_cf_qa_whiteboard : string;
  r_cf_crash_signature : option string;
  r_fields : gmap string string
}.

(** The record kept per bug id. The last three fields are absent ([None])
    until the stage that writes them has run. *)
Record BugRecord := mkBug {
  product : string;
  component : string;
  assigned_to : string;
  status : string;
  resolution : string;
  summary : string;
  priority : string;
  severity : string;
  keywords : list string + string;
  fields : gmap string string;
  comp_first : string;
  comp_second : string;
  land : gmap string LandingEntry;
  isacrash : bool;
  quantum : bool;
  softvision : option bool;
  patches : option patch_info;
  landed_patches : option Z
}.

Definition set_land (l : gmap string LandingEntry) (b : BugRecord) :=
  mkBug (product b) (component b) (assigned_to b) (status b) (resolution b)
    (summary b) (priority b) (severity b) (keywords b) (fields b)
    (comp_first b) (comp_second b) l (isacrash b) (quantum b)
    (softvision b) (patches b) (landed_patches b).

Definition set_softvision (v : bool) (b : BugRecord) :=
  mkBug (product b) (component b) (assigned_to b) (status b) (resolution b)
    (summary b) (priority b) (severity b) (keywords b) (fields b)
    (comp_first b) (comp_second b) (land b) (isacrash b) (quantum b)
    (Some v) (patches b) (landed_patches b).

Definition set_patches (v : patch_info) (b : BugRecord) :=
  mkBug (product b) (component b) (assigned_to b) (status b) (resolution b)
    (summary b) (priority b) (severity b) (keywords b) (fields b)
    (comp_first b) (comp_second b) (land b) (isacrash b) (quantum b)
    (softvision b) (Some v) (landed_patches b).

Definition set_landed_patches (v : Z) (b : BugRecord) :=
  mkBug (product b) (component b) (assigned_to b) (status b) (resolution b)
    (summary b) (priority b) (severity b) (keywords b) (fields b)
    (comp_first b) (comp_second b) (land b) (isacrash b) (quantum b)
    (softvision b) (patches b) (Some v).

(** One entry of a bug's change history *)
Record hchange := mkChange {
  field_name : string;
  removed : string;
  added : string
}.

(** A group of changes made at once; [when] is the instant (seconds since
    the epoch, UTC) that [utils.get_date_ymd] reads from the time stamp. *)
Record hchanges := mkChanges {
  who : string;
  when : Z;
  changes : list hchange
}.

Record bug_history := mkHistory {
  h_id : Z;
  h_history : list hchanges
}.

Record aflag := mkFlag {
  f_name : string;
  f_status : string
}.

Record attachment := mkAttachment {
  a_id : Z;
  a_flags : list aflag;
  is_patch : Z;
  is_obsolete : Z;
  content_type : string;
  a_data : string
}.

(** What [whatthepatch.parse_patch] yields: a [diffobj] per section of the
    patch, whose header is [None] when no file header was recognised and
    whose changes are [None] or a list of triples [(old, new, line)] of
    line numbers and text. Of the header only the paths are read. *)
Record header := mkHeader {
  old_path : string;
  new_path : string
}.

Record change := mkLine {
  c_old : option Z;
  c_new : option Z;
  c_line : string
}.

Record diffobj := mkDiff {
  d_header : option header;
  d_changes : option (list change);
  d_text : string
}.

(** A JSON value where a string is expected: a string or [null] *)
Inductive jvalue :=
| JNull
| JString (s : string).

(** [v != ''] *)
Definition not_empty (v : jvalue) : bool :=
  match v with
  | JNull => true
  | JString s => negb (String.eqb s "")
  end.

(** The reply of hg.mozilla.org for one node: [json['pushdate']] is the
    pair of a time stamp and a zone offset, [hg_backedoutby] is the value
    under the key [backedoutby], or [None] when the reply has no such
    key. *)
Record hg_json := mkHg {
  pushdate : Z * Z;
  hg_backedoutby : option jvalue;
  desc : string
}.

(** A component of the release calendar *)
Record event := mkEvent {
  ev_summary : option string;
  ev_dtstart : Z
}.

(** One row of the report *)
Record ReportRow := mkRow {
  row_id : Z;
  row_link : string;
  row_summary : string;
  row_product : string;
  row_component : string;
  row_assignee : string;
  row_patches : Z;
  row_addlines : Z;
  row_rmlines : Z;
  row_size : Z;
  row_test_size : Z;
  row_priority : string;
  row_severity : string;
  row_tracking : string;
  row_status : gmap Z string;
  row_qaverified : string;
  row_crash : string;
  row_quantum : string;
  row_keywords : string
}.

(** ** The outside world

    Library functions whose code is not part of the repository, and the
    replies of the services the reports query. An instant is a number of
    seconds since the epoch, in UTC, so that [datetime.utcfromtimestamp]
    and [utils.as_utc] are the identity. *)
Class Outside := {
  (** [libmozdata.utils.get_date_ymd], on a string or on [None] *)
  get_date_ymd : option string -> result Z;
  (** [libmozdata.utils.get_date_str] *)
  get_date_str : Z -> string;
  (** [d.isocalendar()]: ISO year, ISO week, week day *)
  isocalendar : Z -> Z * Z * Z;
  (** [d.strftime('%Y-%m-%d')] *)
  strftime_ymd : Z -> string;
  (** [whatthepatch.parse_patch] *)
  parse_patch : string -> list diffobj;
  (** [base64.b64decode(x).decode('ascii', 'ignore')], which raises on
      data that is not base64 *)
  b64decode_ascii : string -> result string;
  (** [base64.b64decode(x).decode('utf-8')], which raises also on bytes
      that are not UTF-8 *)
  b64decode_utf8 : string -> result string;
  (** [urlopen(url).read().decode('ascii', 'ignore')], which raises when
      the request fails *)
  urlopen_read : string -> result string;
  (** [Bugzilla.get_links] *)
  Bugzilla_get_links : Z -> string;
  (** [config.get_products_blacklist()], [config.get_components_blacklist()] *)
  products_blacklist : gset string;
  components_blacklist : gset string;
  (** the components of the release calendar, as [cal.walk()] lists them *)
  calendar : list event;
  (** [max(ProductVersions.get_all_versions()[channel].keys())] *)
  latest_major : string -> Z;
  (** the bugs the freeze query returns for a major version and a day *)
  cfw_search : Z -> string -> list RawBug;
  (** the bugs the regression query returns for a major version *)
  regrs_search : Z -> list RawBug;
  (** per requested bug: its key and the revisions that
      [Bugzilla.get_landing_comments] finds in its comments *)
  bz_comments : list Z -> list (string * list string);
  (** per requested bug: its change history *)
  bz_history : list Z -> list bug_history;
  (** per requested bug: its key and its attachments *)
  bz_attachments : list Z -> list (string * list attachment);
  (** the push record of a node, if the request is answered *)
  hg_rev : string -> option hg_json
}.

Definition day : Z := 86400.

(** * [bugstats/cfw.py] *)

Module cfw.
Section WithOutside.
Context {O : Outside}.

Definition PATCH_INFO : patch_info := mkInfo 0 0 0 0.

Definition format_flag (prefix : string) (v : Z) : string :=
prefix ++ pretty v.

Definition get_start_date (date : string + Z) : result (option string) :=
date <-! match date with
       | inl s => get_date_ymd (Some s)
       | inr d => Ok d
       end;
let dates : list Z :=
omap (fun ev =>
        match ev_summary ev with
        | Some t =>
            if Str.contains "Beta->Release" t then Some (ev_dtstart ev)
            else None
        | None => None
        end) calendar in
let iso_date := isocalendar date in
Ok (strftime_ymd <$>
    List.find (fun d =>
            let isod := isocalendar d in
            Z.eqb isod.1.1 iso_date.1.1 && Z.eqb isod.1.2 iso_date.1.2)
         dates).

Definition get_major : Z := latest_major "nightly".

Definition decompose (comp : string) : string * string :=
if Str.contains ":" comp then
let i := Str.index ":" comp in
(Str.take i comp, Str.drop (i + 1) comp)
else (comp, "").

Definition is_qf_p1 (whiteboard : string) : bool :=
existsb (fun tok =>
         String.eqb (Str.remove " " (Str.strip Str.isspace tok)) "[qf:p1]")
      (Str.split "," whiteboard).

Definition bug_handler (bug : RawBug) (data : gmap Z BugRecord)
: gmap Z BugRecord :=
if decide (r_product bug ∈ products_blacklist) then data
else if decide (r_component bug ∈ components_blacklist) then data
else
let bugid := r_id bug in
let '(first, second) := decompose (r_component bug) in
let assigned_to := default "" (r_assigned_to bug) in
let assignee :=
  if String.eqb assigned_to "" then ""
  else
    let name := default "" (r_real_name bug) in
    if String.eqb name "" then assigned_to else name in
let ccs := default "" (r_cf_crash_signature bug) in
<[bugid :=
    mkBug (r_product bug) (r_component bug) assignee (r_status bug)
      (r_resolution bug) (r_summary bug) (r_priority bug)
      (r_severity bug) (r_keywords bug) (r_fields bug)
      first second ∅
      (negb (String.eqb ccs ""))
      (is_qf_p1 (r_cf_qa_whiteboard bug))
      None None None]> data.

(** [revisions] are the revisions of the landing comments found by
[Bugzilla.get_landing_comments(bug['comments'], [], NIGHTLY_PAT)]. *)
Definition comment_handler (revisions : list string) (bugid : string)
(data : gmap Z BugRecord) : result (gmap Z BugRecord) :=
let d :=
fold_left (fun d revision => <[revision := mkLand None false bugid]> d)
          revisions (∅ : gmap string LandingEntry) in
n <-! Str.int bugid;
b <-! getitem data n;
Ok (<[n := set_land d b]> data).

(** The body of the two loops of [history_handler]: the state is the
pair of [data[bugid]['softvision']] and [valid]. *)
Definition history_change (flag : string) (date : Z) (chs : hchanges)
(st : bool * bool) (ch : hchange) : bool * bool :=
let '(sv, valid) := st in
let sv :=
if String.eqb (removed ch) "RESOLVED" && String.eqb (added ch) "VERIFIED"
then
  match Re.search SOFTVISION_PAT (who chs) with
  | Some _ => true
  | None => sv
  end
else sv in
let valid :=
if String.eqb (field_name ch) flag && String.eqb (added ch) "fixed"
then
  let when := when chs in
  let tomorrow := date + day in
  (date <=? when)%Z && (when <? tomorrow)%Z
else valid in
(sv, valid).

Definition history_loop (flag : string) (date : Z) (history : list hchanges)
: bool * bool :=
fold_left (fun st chs => fold_left (history_change flag date chs)
                                  (changes chs) st)
        history (false, false).

Definition history_handler (flag : string) (date : Z) (invalids : list Z)
(history : bug_history) (data : gmap Z BugRecord)
: result (list Z * gmap Z BugRecord) :=
let bugid := h_id history in
b <-! getitem data bugid;
let '(sv, valid) := history_loop flag date (h_history history) in
let data := <[bugid := set_softvision sv b]> data in
Ok (if valid then invalids else (invalids ++ [bugid])%list, data).

(** *** Patch analysis *)

Definition term : list string :=
["ini"; "list"; "in"; "py"; "json"; "manifest"].

Definition _is_test (path : string) : bool :=
Str.contains "test" path && negb (Str.endswith_any path term).

(** One iteration of the loop of [patch_analysis]. In [diff.header and
diff.changes] a header is true unless it is [None], and a list of
changes is true unless it is [None] or empty. *)
Definition patch_step (info : patch_info) (diff : diffobj) : patch_info :=
match d_header diff, d_changes diff with
| Some h, Some (c :: cs) =>
  let chs := c :: cs in
  let new_path :=
    if Str.startswith (new_path h) "b/" then Str.drop 2 (new_path h)
    else new_path h in
  let counts :=
    map (fun c => (is_None (c_old c) && negb (is_None (c_new c)),
                   is_None (c_new c) && negb (is_None (c_old c)))) chs in
  let add := changes_add info + sum_bool (map fst counts) in
  let del := changes_del info + sum_bool (map snd counts) in
  if _is_test new_path then
    mkInfo (changes_size info)
           (test_changes_size info + Z.of_nat (length chs)) add del
  else
    mkInfo (changes_size info + Z.of_nat (length chs))
           (test_changes_size info) add del
| _, _ => info
end.

Definition patch_analysis (patch : string) : patch_info :=
fold_left patch_step (parse_patch patch) PATCH_INFO.

Definition has_review_plus (a : attachment) : bool :=
negb (Z.eqb (sum_bool (map (fun flag => String.eqb (f_name flag) "review"
                                && String.eqb (f_status flag) "+")
                   (a_flags a))) 0).

(** The patch text of an attachment, if it has one *)
Definition patch_data_of (a : attachment) : result (option string) :=
if Z.eqb (is_patch a) 1 && Z.eqb (is_obsolete a) 0 then
patch_data <-! b64decode_ascii (a_data a);
Ok (Some patch_data)
else if String.eqb (content_type a) "text/x-review-board-request"
      && Z.eqb (is_obsolete a) 0 then
mozreview_url <-! b64decode_utf8 (a_data a);
match Re.search MOZREVIEW_URL_PAT mozreview_url with
| None => Err AttributeError
| Some m =>
    let review_num := default "" (Re.group m 1) in
    let mozreview_raw_diff_url :=
      "https://reviewboard.mozilla.org/r/" ++ review_num ++ "/diff/raw/" in
    patch_data <-! urlopen_read mozreview_raw_diff_url;
    Ok (Some patch_data)
end
else Ok None.

Definition attachment_step (info : result (gmap Z patch_info))
(a : attachment) : result (gmap Z patch_info) :=
info <-! info;
if has_review_plus a then
patch_data <-! patch_data_of a;
match patch_data with
| Some p => Ok (<[a_id a := patch_analysis p]> info)
| None => Ok info
end
else Ok info.

Definition attachment_handler (attachments : list attachment)
(bugid : string) (data : gmap Z BugRecord) : result (gmap Z BugRecord) :=
info <-! fold_left attachment_step attachments (Ok ∅);
n <-! Str.int bugid;
b <-! getitem data n;
let values := (map_to_list info).*2 in
let new_info :=
mkInfo (sum (map changes_size values))
       (sum (map test_changes_size values))
       (sum (map changes_add values))
       (sum (map changes_del values)) in
Ok (<[n := set_patches new_info b]> data).

(** *** Revision resolution *)

Definition ws : regex := Re.one_of [tab; " "%char].

Definition bug_pattern : regex :=
Cat (Star ws)
 (Cat (Re.one_of ["B"; "b"]%char)
(Cat (Re.one_of ["U"; "u"]%char)
 (Cat (Re.one_of ["G"; "g"]%char)
  (Cat (Star ws) (Grp 1 (Re.plus Re.digit)))))).

Definition backout_pattern : regex :=
Cat Bol
 (Cat (Re.lit_i "back")
(Cat (Re.opt (Grp 1 (Re.lit_i "ed")))
 (Cat (Re.opt (Re.lit_i " ")) (Re.lit_i "out")))).

Definition handler_rev (json : hg_json) (data : LandingEntry)
: LandingEntry :=
let push := (pushdate json).1 in
let date := Some (get_date_str push) in
let backedout := not_empty (default (JString "") (hg_backedoutby json)) in
let backedout :=
if negb backedout then
  match Re.search backout_pattern (desc json) with
  | Some _ => true
  | None => backedout
  end
else backedout in
let m := Re.search bug_pattern (desc json) in
let bugid :=
match m with
| None => ""
| Some m =>
    match Re.group m 1 with
    | Some g => if String.eqb g (bugid data) then bugid data else ""
    | None => ""
    end
end in
mkLand date backedout bugid.

(** The queries of [get_hg]: every landing entry whose node is answered
goes through [handler_rev]. *)
Definition resolve_land (land : gmap string LandingEntry)
: gmap string LandingEntry :=
map_imap (fun rev i =>
          Some match hg_rev rev with
               | Some json => handler_rev json i
               | None => i
               end) land.

Definition get_hg (bugs : gmap Z BugRecord) : gmap Z BugRecord :=
let bugs := (fun info => set_land (resolve_land (land info)) info) <$> bugs in
(fun info =>
 set_landed_patches
   (count (map backedout (map_to_list (land info)).*2) false) info)
<$> bugs.

(** *** Presentation *)

Definition display_list (l : list string + string) : string :=
match l with
| inl l => String.concat "," l
| inr s => s
end.

Definition repl (m : Re.mobj) : string :=
if Nat.eqb (Re.m_start m) 0 then Re.m_group0 m else "".

Definition get_better_name (name : string) : string :=
if Str.startswith name "Nobody;" then "Nobody"
else
let s := Re.sub_empty PAR_PAT name in
let s := Re.sub_empty BRA_PAT s in
let s := Re.sub_empty DIA_PAT s in
let s := Re.sub COL_PAT repl s in
let s := Re.sub_empty UTC_PAT s in
let s := Str.strip Str.isspace s in
if Str.startswith s ":" then Str.drop 1 s else s.

(** The sort key of [prepare], a tuple compared as Python compares
tuples: by the first component that differs. *)
Definition sort_key : Type := string * (string * (Z * (Z * (Z * Z)))).

Definition lex {A B} (eqA ltA : A -> A -> bool) (ltB : B -> B -> bool)
(x y : A * B) : bool :=
if eqA x.1 y.1 then ltB x.2 y.2 else ltA x.1 y.1.

Definition key_lt : sort_key -> sort_key -> bool :=
lex String.eqb String.ltb
 (lex String.eqb String.ltb
 (lex Z.eqb Z.ltb (lex Z.eqb Z.ltb (lex Z.eqb Z.ltb Z.ltb)))).

(** [sort(p)] for an item [p = (bugid, info)] *)
Definition sort (p : Z * BugRecord) : result sort_key :=
let info := p.2 in
match landed_patches info, patches info with
| Some lp, Some pa =>
  Ok (product info, (component info,
       (- lp, (- changes_size pa, (- test_changes_size pa, - p.1)))))
| _, _ => Err KeyError
end.

Definition yes_no (b : bool) : string := if b then "Yes" else "No".

Definition row_of (major : Z) (bugid : Z) (info : BugRecord)
: result ReportRow :=
match landed_patches info, patches info, softvision info,
    fields info !! format_flag "cf_tracking_firefox" major,
    fields info !! format_flag "cf_status_firefox" (major - 2),
    fields info !! format_flag "cf_status_firefox" (major - 1),
    fields info !! format_flag "cf_status_firefox" major with
| Some lp, Some pa, Some sv, Some tr, Some s2, Some s1, Some s0 =>
  Ok (mkRow bugid (Bugzilla_get_links bugid) (summary info)
        (product info) (component info)
        (get_better_name (assigned_to info))
        lp (changes_add pa) (changes_del pa)
        (changes_size pa) (test_changes_size pa)
        (priority info) (severity info) tr
        (<[major := s0]> (<[major - 1 := s1]> {[major - 2 := s2]}))
        (yes_no sv) (yes_no (isacrash info)) (yes_no (quantum info))
        (display_list (keywords info)))
| _, _, _, _, _, _, _ => Err KeyError
end.

(** [[f(x) for x in l]] when [f] can raise *)
Fixpoint mapr {A B} (f : A -> result B) (l : list A) : result (list B) :=
match l with
| [] => Ok []
| x :: l' => y <-! f x; ys <-! mapr f l'; Ok (y :: ys)
end.

Definition prepare (major : Z) (bugs : gmap Z BugRecord)
: result (list ReportRow) :=
keyed <-! mapr (fun p => k <-! sort p; Ok (k, p)) (map_to_list bugs);
mapr (fun kp => row_of major kp.2.1 kp.2.2) (sorted key_lt fst keyed).

(** *** The pipeline *)

(** [for x in l: acc = f(x, acc)] when [f] can raise *)
Definition for_each {A S} (f : A -> S -> result S) (l : list A) (s : S)
: result S :=
fold_left (fun acc x => s <-! acc; f x s) l (Ok s).

(** [del data[k]] *)
Definition delitem `{Countable K} {V} (k : K) (d : gmap K V)
: result (gmap K V) :=
match d !! k with
| Some _ => Ok (delete k d)
| None => Err KeyError
end.

Definition get_bugs (date : string) (major : Z) (date_range : string)
: result (Z * list ReportRow) :=
let major := if Z.eqb major (-1) then get_major else major in
date <-! get_date_ymd (Some date);
window <-!
(if String.eqb date_range "" then
   start_date <-! get_start_date (inr date);
   start_date <-! get_date_ymd start_date;
   Ok (start_date, start_date + 6 * day)
 else
   dates <-! mapr (fun x => get_date_ymd
                              (Some (Str.strip (Ascii.eqb " ") x)))
                  (Str.split "|" date_range);
   match dates with
   | [start_date; end_date] => Ok (start_date, end_date)
   | _ => Err ValueError
   end);
let '(start_date, end_date) := window in
if (start_date <=? date)%Z && (date <=? end_date)%Z then
let sdate := get_date_str date in
let data :=
  fold_left (fun data bug => bug_handler bug data)
            (cfw_search major sdate) ∅ in
let flag := format_flag "cf_status_firefox" major in
let bugids := (map_to_list data).*1 in
data <-! for_each (fun c => comment_handler c.2 c.1)
                      (bz_comments bugids) data;
st <-! for_each (fun h st => history_handler flag date st.1 h st.2)
                    (bz_history bugids) ([], data);
let '(invalids, data) := st in
data <-! for_each (fun a => attachment_handler a.2 a.1)
                      (bz_attachments bugids) data;
data <-! for_each delitem invalids data;
let data := get_hg data in
rows <-! prepare major data;
Ok (major, rows)
else Ok (major, []).

End WithOutside.
End cfw.

(** * [bugstats/regrs.py] *)

(** The file system that [check_bugs] sees: a file of treated bugs holds a
    JSON object whose values are lists of integers; every access is
    logged. *)
Inductive io_event :=
| Read (path : string)
| Write (path : string).

Record fs := mkFs {
  files : gmap string (gmap string (list Z));
  log : list io_event
}.

(** What [check_bugs] returns: the list it was given or a set *)
Inductive collection :=
| PyList (l : list Z)
| PySet (s : gset Z).

Module regrs.
Section WithOutside.
Context {O : Outside}.

Definition get_major (channel : string) : Z := latest_major channel.

Definition is_regression (flag : string) (change : hchange) : bool :=
if negb (String.eqb (field_name change) flag) then false
else
let added := added change in
let removed := removed change in
existsb (String.eqb removed) ["verified"; "fixed"]
&& existsb (String.eqb added) ["---"; "affected"].

(** The loop of [history_handler] over one group of changes; the state
is [data[bugid]]. *)
Definition history_changes (date : option Z) (flag : string) (reg : bool)
(chs : hchanges) : bool :=
let when := when chs in
if match date with
 | Some date => negb (Z.eqb when date)
 | None => false
 end
then reg
else
fold_left (fun reg change =>
             if is_regression flag change then true else reg)
          (changes chs) reg.

Definition history_handler (date : option Z) (flag : string)
(history : bug_history) (data : gmap Z bool) : gmap Z bool :=
let bugid := h_id history in
<[bugid := fold_left (history_changes date flag) (h_history history) false]>
data.

(** One iteration of the loop of [filter_bugs] *)
Definition filter_bug (data : gmap Z RawBug) (status_flag : string)
(bugid : Z) (reg : bool) (hdata : result (gmap Z bool))
: result (gmap Z bool) :=
hdata <-! hdata;
if negb reg then
bug <-! getitem data bugid;
let status := r_status bug in
if String.eqb status "REOPENED" then
  v <-! getitem (r_fields bug) status_flag;
  if existsb (String.eqb v) ["verified"; "fixed"]
  then Ok (<[bugid := true]> hdata)
  else Ok hdata
else Ok hdata
else Ok hdata.

Definition filter_bugs (data : gmap Z RawBug) (hdata : gmap Z bool)
(status_flag tracking_flag : string) : result (gmap Z bool) :=
map_fold (filter_bug data status_flag) (Ok hdata) hdata.

Definition check_bugs (bugids : list Z) (treated : string) (st : fs)
: result collection * fs :=
if negb (String.eqb treated "") then
match files st !! treated with
| Some data =>
    let st := mkFs (files st) (log st ++ [Read treated]) in
    match data !! "treated" with
    | None => (Err KeyError, st)
    | Some old =>
        let newbugs : gset Z := list_to_set bugids ∖ list_to_set old in
        if decide (newbugs = ∅) then (Ok (PySet newbugs), st)
        else
          let data := <["treated" := (old ++ elements newbugs)%list]> data in
          (Ok (PySet newbugs),
           mkFs (<[treated := data]> (files st))
                (log st ++ [Write treated]))
    end
| None =>
    let data : gmap string (list Z) := {["treated" := bugids]} in
    (Ok (PyList bugids),
     mkFs (<[treated := data]> (files st)) (log st ++ [Write treated]))
end
else (Ok (PyList bugids), st).

Definition ids_of (c : collection) : list Z :=
match c with
| PyList l => l
| PySet s => elements s
end.

Definition get_links (major : Z) (date : option string) (treated : string)
(st : fs) : result (list (Z * string)) * fs :=
let tracking_flag := cfw.format_flag "cf_tracking_firefox" major in
let status_flag := cfw.format_flag "cf_status_firefox" major in
match match date with
    | Some d => d <-! get_date_ymd (Some d); Ok (Some d)
    | None => Ok None
    end with
| Err e => (Err e, st)
| Ok date =>
  let data : gmap Z RawBug :=
    fold_left (fun data bug => <[r_id bug := bug]> data)
              (regrs_search major) ∅ in
  let bugids := (map_to_list data).*1 in
  match check_bugs bugids treated st with
  | (Err e, st) => (Err e, st)
  | (Ok bugids, st) =>
      let hdata :=
        fold_left (fun hdata h => history_handler date status_flag h hdata)
                  (bz_history (ids_of bugids)) ∅ in
      (hdata <-! filter_bugs data hdata status_flag tracking_flag;
       let links :=
         omap (fun p => if p.2 : bool
                        then Some (p.1, Bugzilla_get_links p.1)
                        else None)
              (map_to_list hdata) in
       Ok (sorted Z.ltb fst links), st)
  end
end.

End WithOutside.
End regrs.

(** * [bugstats/config.py] *)

Module config.

(** The module variable [__CONFIG] and the number of times config.json
    was opened *)
Record state {V : Type} := mkState {
  __CONFIG : option V;
  opened : nat
}.
Arguments state : clear implicits.

Section WithPython.
(** What [json.load] returns, with its truth value, [value[key]] and
    [set(...)] *)
Context {V W : Type} (truthy : V -> bool)
  (subscript : V -> string -> result W) (set_of : W -> result (gset string)).

(** [file] is what opening and loading config.json gives at the call *)
Definition reload (file : result V) (st : state V) : result V * state V :=
match file with
| Ok v => (Ok v, mkState V (Some v) (S (opened st)))
| Err e => (Err e, mkState V (__CONFIG st) (S (opened st)))
end.

Definition _get_global (file : result V) (st : state V)
: result V * state V :=
match __CONFIG st with
| Some c => if negb (truthy c) then reload file st else (Ok c, st)
| None => reload file st
end.

Definition get_products_blacklist (file : result V) (st : state V)
: result (gset string) * state V :=
let '(c, st) := _get_global file st in
(c <-! c; w <-! subscript c "products: blacklist"; set_of w, st).

Definition get_components_blacklist (file : result V) (st : state V)
: result (gset string) * state V :=
let '(c, st) := _get_global file st in
(c <-! c; w <-! subscript c "components: blacklist"; set_of w, st).

(** A run of calls of [_get_global], one per state of the file *)
Definition calls (files : list (result V)) (st : state V)
: list (result V) * state V :=
fold_left (fun acc file =>
             let '(r, st') := _get_global file acc.2 in
             (acc.1 ++ [r], st')%list)
          files ([], st).

End WithPython.
End config.

(** * Vocabulary of the statements *)

(** The line pairs of a section of a patch; none when [changes] is [None] *)
Definition lines_of (d : diffobj) : list change := default [] (d_changes d).

(** A line pair with a new side and no old side, and the converse *)
Definition added_only (c : change) : bool :=
  match c_old c, c_new c with
  | None, Some _ => true
  | _, _ => false
  end.

Definition removed_only (c : change) : bool :=
  match c_old c, c_new c with
  | Some _, None => true
  | _, _ => false
  end.


Definition has_header (d : diffobj) : bool :=
  match d_header d with Some _ => true | None => false end.

(** The line pairs a section contributes: those of a section that has a
    header. *)
Definition counted (d : diffobj) : list change :=
  if has_header d then lines_of d else [].

(** The commit message of a push names the bug of a landing entry: the
    first match of [bug_pattern] captures the entry's bug id. *)
Definition references (json : hg_json) (data : LandingEntry) : bool :=
  match Re.search cfw.bug_pattern (desc json) with
  | Some m =>
      match Re.group m 1 with
      | Some g => String.eqb g (bugid data)
      | None => false
      end
  | None => false
  end.

(** The push is a backout: the reply has a value other than the empty
    string under backedoutby, or the message starts with "backout",
    "back out", "backedout" or "backed out" in any letter case. *)
Definition is_backout (json : hg_json) : bool :=
  not_empty (default (JString "") (hg_backedoutby json))
  || match Re.search cfw.backout_pattern (desc json) with
     | Some _ => true
     | None => false
     end.

(** A world where every service answers with nothing, and variants of it *)
Definition quiet : Outside := {|
  get_date_ymd := fun _ => Err AssertionError;
  get_date_str := fun _ => "";
  isocalendar := fun _ => (0, 0, 0);
  strftime_ymd := fun _ => "";
  parse_patch := fun _ => [];
  b64decode_ascii := fun s => Ok s;
  b64decode_utf8 := fun s => Ok s;
  urlopen_read := fun _ => Ok "";
  Bugzilla_get_links := fun _ => "";
  products_blacklist := ∅;
  components_blacklist := ∅;
  calendar := [];
  latest_major := fun _ => 0;
  cfw_search := fun _ _ => [];
  regrs_search := fun _ => [];
  bz_comments := fun _ => [];
  bz_history := fun _ => [];
  bz_attachments := fun _ => [];
  hg_rev := fun _ => None
|}.


Definition with_hg_rev (f : string -> option hg_json) (O : Outside)
    : Outside := {|
  get_date_ymd := @get_date_ymd O;
  get_date_str := @get_date_str O;
  isocalendar := @isocalendar O;
  strftime_ymd := @strftime_ymd O;
  parse_patch := @parse_patch O;
  b64decode_ascii := @b64decode_ascii O;
  b64decode_utf8 := @b64decode_utf8 O;
  urlopen_read := @urlopen_read O;
  Bugzilla_get_links := @Bugzilla_get_links O;
  products_blacklist := @products_blacklist O;
  components_blacklist := @components_blacklist O;
  calendar := @calendar O;
  latest_major := @latest_major O;
  cfw_search := @cfw_search O;
  regrs_search := @regrs_search O;
  bz_comments := @bz_comments O;
  bz_history := @bz_history O;
  bz_attachments := @bz_attachments O;
  hg_rev := f
|}.




(** A bug with two landings, of which the second was backed out *)
Definition two_landings : BugRecord :=
  mkBug "Core" "DOM" "" "RESOLVED" "FIXED" "" "P1" "normal" (inl []) ∅
    "DOM" ""
    (<["aaa" := mkLand None false "1234"]>
       {["bbb" := mkLand None false "1234"]})
    false false None None None.

Definition hg_world : Outside :=
  with_hg_rev (fun rev =>
                 if String.eqb rev "aaa"
                 then Some (mkHg (1500000000, 0) None "Bug 1234 - Fix it. r=me")
                 else if String.eqb rev "bbb"
                 then Some (mkHg (1500000100, 0) (Some (JString "ccc"))
                                 "bug 1234: part 2")
                 else None) quiet.

(** A change that sets [flag] to "fixed" *)
Definition sets_fixed (flag : string) (ch : hchange) : bool :=
  String.eqb (field_name ch) flag && String.eqb (added ch) "fixed".

(** An instant of the day that starts at [date] *)
Definition in_day (date when : Z) : bool :=
  (date <=? when)%Z && (when <? date + day)%Z.

(** The history has a change that sets [flag] to "fixed" within the day *)
Definition fixed_in_day (flag : string) (date : Z) (history : list hchanges)
    : bool :=
  existsb (fun chs => in_day date (when chs)
                      && existsb (sets_fixed flag) (changes chs)) history.

(** The instant of the last change of the history that sets [flag] to
    "fixed", if there is one *)
Definition last_fixed (flag : string) (history : list hchanges) : option Z :=
  fold_left (fun last chs =>
               if existsb (sets_fixed flag) (changes chs)
               then Some (when chs) else last)
            history None.

(** A bug fixed on the target day (2017-07-14, which starts at
    1499990400), reopened the day after and fixed again two days later *)
Definition fixed_twice : bug_history :=
  mkHistory 77
    [mkChanges "dev@mozilla.com" 1500003600
       [mkChange "cf_status_firefox57" "affected" "fixed"];
     mkChanges "dev@mozilla.com" 1500090000
       [mkChange "cf_status_firefox57" "fixed" "affected"];
     mkChanges "dev@mozilla.com" 1500180000
       [mkChange "cf_status_firefox57" "affected" "fixed"]].

Definition bug77 : BugRecord :=
  mkBug "Core" "DOM" "" "RESOLVED" "FIXED" "" "P1" "normal" (inl []) ∅
    "DOM" "" ∅ false false None None None.

(** A change of [flag] from "verified" or "fixed" to "---" or "affected" *)
Definition regresses (flag : string) (ch : hchange) : bool :=
  String.eqb (field_name ch) flag
  && (String.eqb (removed ch) "verified" || String.eqb (removed ch) "fixed")
  && (String.eqb (added ch) "---" || String.eqb (added ch) "affected").

(** The date test of [regrs.history_handler]: a group of changes passes
    when there is no date, or when it was made at the very instant [date] *)
Definition on_stream (date : option Z) (chs : hchanges) : bool :=
  match date with
  | Some d => Z.eqb (when chs) d
  | None => true
  end.

(** The history has a regressing change in a group that passes the date
    test *)
Definition direct_transition (date : option Z) (flag : string)
    (history : list hchanges) : bool :=
  existsb (fun chs => on_stream date chs
                      && existsb (regresses flag) (changes chs)) history.

(** (b) the bug is REOPENED while its flag is "verified" or "fixed" *)
Definition reopened_while_fixed (flag : string) (bug : RawBug) : bool :=
  String.eqb (r_status bug) "REOPENED"
  && match r_fields bug !! flag with
     | Some v => String.eqb v "verified" || String.eqb v "fixed"
     | None => false
     end.

(** The records that [filter_bugs] reads exist: every bug with a history
    is among the bugs found, and has the status flag if it is REOPENED *)
Definition readable (flag : string) (data : gmap Z RawBug)
    (hdata : gmap Z bool) : Prop :=
  forall id, hdata !! id = Some false ->
    exists bug, data !! id = Some bug
      /\ (r_status bug = "REOPENED" -> is_Some (r_fields bug !! flag)).

(** Three bugs of the regression report: bug 1 went from fixed to
    affected, bug 2 is REOPENED with the flag still verified, bug 3 has
    neither. *)
Definition raw_bug (id : Z) (status flagval : string) : RawBug :=
  mkRaw id "Core" "DOM" None None status "" "" "P1" "normal" (inl []) ""
    None {["cf_status_firefox57" := flagval]}.

Definition three_bugs : gmap Z RawBug :=
  <[1 := raw_bug 1 "NEW" "affected"]>
    (<[2 := raw_bug 2 "REOPENED" "verified"]>
       {[3 := raw_bug 3 "RESOLVED" "fixed"]}).

Definition history1 : bug_history :=
  mkHistory 1 [mkChanges "a@b.c" 1500000000
                 [mkChange "cf_status_firefox57" "fixed" "affected"]].

Definition history2 : bug_history :=
  mkHistory 2 [mkChanges "a@b.c" 1500000000
                 [mkChange "status" "RESOLVED" "REOPENED"]].

Definition history3 : bug_history :=
  mkHistory 3 [mkChanges "a@b.c" 1500000000
                 [mkChange "cf_status_firefox57" "affected" "fixed"]].

Definition three_histories : list bug_history :=
  [history1; history2; history3].

(** A record that went through every stage of the freeze pipeline: the
    fields written by the stages and the flags of the three versions are
    there. *)
Definition enriched (major : Z) (b : BugRecord) : Prop :=
  is_Some (landed_patches b) /\ is_Some (patches b) /\ is_Some (softvision b)
  /\ is_Some (fields b !! cfw.format_flag "cf_tracking_firefox" major)
  /\ is_Some (fields b !! cfw.format_flag "cf_status_firefox" (major - 2))
  /\ is_Some (fields b !! cfw.format_flag "cf_status_firefox" (major - 1))
  /\ is_Some (fields b !! cfw.format_flag "cf_status_firefox" major).

(** The order of the report: product ascending, then component ascending,
    then landed patches, changes size, test changes size and bug id, each
    descending. [row_before r1 r2] lets [r1] stand before [r2]. *)
Definition str_lt (s1 s2 : string) : Prop := String.ltb s1 s2 = true.

Definition row_before (r1 r2 : ReportRow) : Prop :=
  str_lt (row_product r1) (row_product r2)
  \/ row_product r1 = row_product r2
     /\ (str_lt (row_component r1) (row_component r2)
         \/ row_component r1 = row_component r2
            /\ (row_patches r1 > row_patches r2
                \/ row_patches r1 = row_patches r2
                   /\ (row_size r1 > row_size r2
                       \/ row_size r1 = row_size r2
                          /\ (row_test_size r1 > row_test_size r2
                              \/ row_test_size r1 = row_test_size r2
                                 /\ row_id r1 >= row_id r2)))).

(** A fully enriched bug, for the examples *)
Definition enriched_bug (product component : string) (landed size tests : Z)
    : BugRecord :=
  mkBug product component "Jane Doe [:jdoe]" "RESOLVED" "FIXED" "" "P1"
    "normal" (inl ["crash"; "regression"])
    (<["cf_tracking_firefox57" := "+"]>
       (<["cf_status_firefox57" := "fixed"]>
          (<["cf_status_firefox56" := "affected"]>
             {["cf_status_firefox55" := "unaffected"]})))
    component "" ∅ false false (Some false)
    (Some (mkInfo size tests 0 0)) (Some landed).

Definition four_bugs : gmap Z BugRecord :=
  <[10 := enriched_bug "B" "x" 1 5 0]>
    (<[11 := enriched_bug "A" "y" 1 5 0]>
       (<[12 := enriched_bug "A" "x" 1 5 0]>
          {[13 := enriched_bug "A" "x" 2 5 0]})).

(** A decidable strict total order with its equality test *)
Record strict_total {A} (eqb ltb : A -> A -> bool) : Prop := mkStrictTotal {
  st_eq : forall x y, eqb x y = true <-> x = y;
  st_irrefl : forall x, ltb x x = false;
  st_trans : forall x y z, ltb x y = true -> ltb y z = true -> ltb x z = true;
  st_total : forall x y, ltb x y = true \/ x = y \/ ltb y x = true
}.

Definition pair_eqb {A B} (eqA : A -> A -> bool) (eqB : B -> B -> bool)
    (x y : A * B) : bool :=
  eqA x.1 y.1 && eqB x.2 y.2.

(** The sort key of a row of the report *)
Definition row_key (r : ReportRow) : cfw.sort_key :=
  (row_product r, (row_component r,
    (- row_patches r, (- row_size r, (- row_test_size r, - row_id r))))).

(** A world for the freeze report of 2017-07-14. Its calendar arithmetic
    knows three days of one ISO week: Monday 2017-07-10, Wednesday
    2017-07-12 and Friday 2017-07-14. The search returns bug 77, which
    has one landing and no attachment; [cal] is the release calendar and
    [hist] the history of the bug. *)
Definition d_0710 : Z := 1499644800.
Definition d_0712 : Z := 1499817600.
Definition d_0714 : Z := 1499990400.

Definition raw77 : RawBug :=
  mkRaw 77 "Core" "DOM" (Some "jdoe@mozilla.com") (Some "Jane Doe [:jdoe]")
    "RESOLVED" "FIXED" "Crash in foo" "P1" "normal" (inl ["crash"]) ""
    None
    (<["cf_tracking_firefox57" := "+"]>
       (<["cf_status_firefox57" := "fixed"]>
          (<["cf_status_firefox56" := "affected"]>
             {["cf_status_firefox55" := "unaffected"]}))).

Definition freeze_world (cal : list event) (hist : bug_history) : Outside := {|
  get_date_ymd := fun o =>
    match o with
    | None => Err AssertionError
    | Some s =>
        if String.eqb s "2017-07-10" then Ok d_0710
        else if String.eqb s "2017-07-12" then Ok d_0712
        else if String.eqb s "2017-07-14" then Ok d_0714
        else Err ValueError
    end;
  get_date_str := fun d =>
    if Z.eqb d d_0710 then "2017-07-10"
    else if Z.eqb d d_0712 then "2017-07-12" else "2017-07-14";
  isocalendar := fun d => (2017, (d + 3 * day) / (7 * day) - 2452,
                           (d + 3 * day) `mod` (7 * day) / day + 1);
  strftime_ymd := fun d =>
    if Z.eqb d d_0710 then "2017-07-10"
    else if Z.eqb d d_0712 then "2017-07-12" else "2017-07-14";
  parse_patch := fun _ => [];
  b64decode_ascii := fun s => Ok s;
  b64decode_utf8 := fun s => Ok s;
  urlopen_read := fun _ => Ok "";
  Bugzilla_get_links := fun _ => "";
  products_blacklist := ∅;
  components_blacklist := ∅;
  calendar := cal;
  latest_major := fun _ => 57;
  cfw_search := fun _ _ => [raw77];
  regrs_search := fun _ => [];
  bz_comments := fun _ => [("77", ["abc123"])];
  bz_history := fun _ => [hist];
  bz_attachments := fun _ => [("77", [])];
  hg_rev := fun _ => Some (mkHg (1499995000, 0) None "Bug 77 - Fix foo. r=me")
|}.

Definition release_on (d : Z) : list event :=
  [mkEvent None d_0710; mkEvent (Some "Firefox 55 Beta->Release") d].

(** Bug 77 fixed on the target day, once *)
Definition fixed_once : bug_history :=
  mkHistory 77
    [mkChanges "dev@mozilla.com" 1500003600
       [mkChange "cf_status_firefox57" "affected" "fixed"]].

(** The row of bug 77 *)
Definition row77 : ReportRow :=
  mkRow 77 "" "Crash in foo" "Core" "DOM" "Jane Doe" 1 0 0 0 0 "P1" "normal"
    "+" (<[57 := "fixed"]> (<[56 := "affected"]> {[55 := "unaffected"]}))
    "No" "No" "No" "crash".

(** No event of the calendar is a release in the ISO week of [d] *)
Definition no_release_week {O : Outside} (d : Z) : Prop :=
  forall ev t, ev ∈ calendar -> ev_summary ev = Some t ->
    Str.contains "Beta->Release" t = true ->
    ~ ((isocalendar (ev_dtstart ev)).1.1 = (isocalendar d).1.1
       /\ (isocalendar (ev_dtstart ev)).1.2 = (isocalendar d).1.2).

(** [t] is [s] with some characters deleted *)
Inductive subseq : string -> string -> Prop :=
| subseq_nil : subseq "" ""
| subseq_skip (c : ascii) (t s : string) : subseq t s -> subseq t (String c s)
| subseq_keep (c : ascii) (t s : string) :
    subseq t s -> subseq (String c t) (String c s).

(** The character [c] occurs in [s] *)
Fixpoint occurs (c : ascii) (s : string) : bool :=
  match s with
  | EmptyString => false
  | String x s' => Ascii.eqb x c || occurs c s'
  end.

(** Some [o] of [s] is followed, at any distance, by a [c] *)
Fixpoint encloses (o c : ascii) (s : string) : bool :=
  match s with
  | EmptyString => false
  | String x s' => Ascii.eqb x o && occurs c s' || encloses o c s'
  end.

(** The shape of [PAR_PAT], [BRA_PAT] and [DIA_PAT] *)
Definition bracket (o c : ascii) : regex :=
  Cat (Re.chr o) (Cat (Star (Re.none_of [c])) (Re.chr c)).

(** [s] without its longest prefix free of [cs] *)
Fixpoint after_run (cs : list ascii) (s : string) : string :=
  match s with
  | EmptyString => EmptyString
  | String x s' => if existsb (Ascii.eqb x) cs then s else after_run cs s'
  end.

(** The longest prefix of [s] free of [cs] *)
Fixpoint run (cs : list ascii) (s : string) : string :=
  match s with
  | EmptyString => EmptyString
  | String x s' =>
      if existsb (Ascii.eqb x) cs then EmptyString else String x (run cs s')
  end.

(** A continuation of the matcher that accepts wherever it is called *)
Definition accepting {A} (k : @Re.cont A) : Prop :=
  forall pos s g, k pos s g <> None.

(** [a] may stand before [b] in a list sorted by [key]: the key of [b] is
    not below that of [a] *)
Definition key_le {A K} (lt : K -> K -> bool) (key : A -> K) (a b : A) : Prop :=
  lt (key b) (key a) = false.

(** The cleaning of names in plain string operations *)

(** The text after the annotation that starts [s], if one does: an
    annotation in brackets runs from [o] through the next [c] *)
Definition enclosed (o c : ascii) (s : string) : option string :=
  match s with
  | String x t =>
      if Ascii.eqb x o then
        match after_run [c] t with
        | String _ rest => Some rest
        | EmptyString => None
        end
      else None
  | EmptyString => None
  end.

(** An offset is "UTC+" with the characters up to the next space or tab *)
Definition utc_offset (s : string) : option string :=
  if Str.startswith s "UTC+"
  then Some (after_run [" "%char; tab] (Str.drop 4 s))
  else None.

(** [s] without the annotations that [ann] finds, from left to right *)
Fixpoint without (fuel : nat) (ann : string -> option string) (s : string)
    : string :=
  match fuel with
  | O => s
  | S fuel' =>
      match ann s with
      | Some rest => without fuel' ann rest
      | None =>
          match s with
          | String x t => String x (without fuel' ann t)
          | EmptyString => EmptyString
          end
      end
  end.

Definition cut (ann : string -> option string) (s : string) : string :=
  without (S (String.length s)) ann s.

(** [s] up to its first colon, a colon that starts [s] apart *)
Definition cut_colon (s : string) : string :=
  match s with
  | String x t =>
      if Ascii.eqb x ":" then String x (run [":"%char] t)
      else run [":"%char] s
  | EmptyString => EmptyString
  end.

(** The cleaning of a name, pass by pass *)
Definition cleaned (name : string) : string :=
  let s := cut (enclosed "(" ")") name in
  let s := cut (enclosed "[" "]") s in
  let s := cut (enclosed "<" ">") s in
  let s := cut_colon s in
  let s := cut utc_offset s in
  let s := Str.strip Str.isspace s in
  if Str.startswith s ":" then Str.drop 1 s else s.

(** A world with another answer to the regression query *)
Definition with_regrs_search (f : Z -> list RawBug) (O : Outside) : Outside := {|
  get_date_ymd := @get_date_ymd O;
  get_date_str := @get_date_str O;
  isocalendar := @isocalendar O;
  strftime_ymd := @strftime_ymd O;
  parse_patch := @parse_patch O;
  b64decode_ascii := @b64decode_ascii O;
  b64decode_utf8 := @b64decode_utf8 O;
  urlopen_read := @urlopen_read O;
  Bugzilla_get_links := @Bugzilla_get_links O;
  products_blacklist := @products_blacklist O;
  components_blacklist := @components_blacklist O;
  calendar := @calendar O;
  latest_major := @latest_major O;
  cfw_search := @cfw_search O;
  regrs_search := f;
  bz_comments := @bz_comments O;
  bz_history := @bz_history O;
  bz_attachments := @bz_attachments O;
  hg_rev := @hg_rev O
|}.

(** The regression report of one bug whose flag went from fixed to
    affected at the instant [when]: the query finds bug 1, which is not
    reopened, and its history has that one change. The dates are those of
    [freeze_world]. *)
Definition regression_at (when : Z) : bug_history :=
  mkHistory 1 [mkChanges "dev@mozilla.com" when
                 [mkChange "cf_status_firefox57" "fixed" "affected"]].

Definition regression_world (when : Z) : Outside :=
  with_regrs_search (fun _ => [raw_bug 1 "NEW" "affected"])
    (freeze_world [] (regression_at when)).

(** ** Vocabulary of the further properties *)

(** What [bug_handler] stores for a bug that is not on a deny list *)
Definition kept (O : Outside) (raw : RawBug) (b : BugRecord) : Prop :=
  product b = r_product raw /\ component b = r_component raw
  /\ (r_product raw ∉ products_blacklist)
  /\ (r_component raw ∉ components_blacklist)
  /\ (comp_first b, comp_second b) = cfw.decompose (r_component raw)
  /\ land b = ∅
  /\ landed_patches b = None /\ patches b = None /\ softvision b = None.

(** A change of the resolution from RESOLVED to VERIFIED *)
Definition verifies (ch : hchange) : bool :=
  String.eqb (removed ch) "RESOLVED" && String.eqb (added ch) "VERIFIED".

(** [SOFTVISION_PAT.search(who)] finds something *)
Definition qa_vendor (who : string) : bool :=
  match Re.search SOFTVISION_PAT who with
  | Some _ => true
  | None => false
  end.

(** A section whose header names a test file; the path is taken as it
    stands in the header *)
Definition test_section (d : diffobj) : bool :=
  match d_header d with
  | Some h => cfw._is_test (new_path h)
  | None => false
  end.

Definition other_section (d : diffobj) : bool :=
  match d_header d with
  | Some h => negb (cfw._is_test (new_path h))
  | None => false
  end.

(** An attachment that can contribute a patch: it has a review+ flag, is
    not obsolete, and is a patch or a review request *)
Definition contributes (a : attachment) : bool :=
  cfw.has_review_plus a && Z.eqb (is_obsolete a) 0
  && (Z.eqb (is_patch a) 1
      || String.eqb (content_type a) "text/x-review-board-request").

(** A review request whose data is decoded to a text in which no review
    URL is found *)
Definition broken_request {O : Outside} (a : attachment) : bool :=
  cfw.has_review_plus a && Z.eqb (is_obsolete a) 0
  && negb (Z.eqb (is_patch a) 1)
  && String.eqb (content_type a) "text/x-review-board-request"
  && match b64decode_utf8 (a_data a) with
     | Ok mozreview_url => is_None (Re.search MOZREVIEW_URL_PAT mozreview_url)
     | Err _ => false
     end.

(** [s] starts with [p], letter case apart *)
Fixpoint startswith_i (s p : string) {struct p} : bool :=
  match p, s with
  | EmptyString, _ => true
  | String c p', String x s' =>
      Ascii.eqb (Re.lower x) (Re.lower c) && startswith_i s' p'
  | String _ _, EmptyString => false
  end.

Definition found {A} (o : option A) : bool :=
  match o with Some _ => true | None => false end.

(** A world with deny lists *)
Definition with_blacklists (ps cs : gset string) (O : Outside) : Outside := {|
  get_date_ymd := @get_date_ymd O;
  get_date_str := @get_date_str O;
  isocalendar := @isocalendar O;
  strftime_ymd := @strftime_ymd O;
  parse_patch := @parse_patch O;
  b64decode_ascii := @b64decode_ascii O;
  b64decode_utf8 := @b64decode_utf8 O;
  urlopen_read := @urlopen_read O;
  Bugzilla_get_links := @Bugzilla_get_links O;
  products_blacklist := ps;
  components_blacklist := cs;
  calendar := @calendar O;
  latest_major := @latest_major O;
  cfw_search := @cfw_search O;
  regrs_search := @regrs_search O;
  bz_comments := @bz_comments O;
  bz_history := @bz_history O;
  bz_attachments := @bz_attachments O;
  hg_rev := @hg_rev O
|}.

Definition deny_world : Outside :=
  with_blacklists {["Testing"]} {["Untriaged"]} quiet.

(** A bug of a product on the deny list, and one of a component on it *)
Definition denied_product : RawBug :=
  mkRaw 78 "Testing" "Marionette" None None "RESOLVED" "FIXED" "" "P1"
    "normal" (inl []) "" None ∅.

Definition denied_component : RawBug :=
  mkRaw 79 "Core" "Untriaged" None None "RESOLVED" "FIXED" "" "P1"
    "normal" (inl []) "" None ∅.

(** What [bug_handler] keeps of bug 77 *)
Definition record77 : BugRecord :=
  mkBug "Core" "DOM" "Jane Doe [:jdoe]" "RESOLVED" "FIXED" "Crash in foo"
    "P1" "normal" (inl ["crash"]) (r_fields raw77) "DOM" "" ∅ false false
    None None None.

(** A bug that [filter_bugs] cannot read: it is not among the bugs found,
    or it is REOPENED and has no status flag *)
Definition unreadable (flag : string) (data : gmap Z RawBug) (id : Z) : bool :=
  match data !! id with
  | None => true
  | Some bug =>
      String.eqb (r_status bug) "REOPENED" && is_None (r_fields bug !! flag)
  end.

(** A world for the regression report: the query finds the three bugs,
    and every bug has its history *)
Definition regrs_world : Outside := {|
  get_date_ymd := fun _ => Err AssertionError;
  get_date_str := fun _ => "";
  isocalendar := fun _ => (0, 0, 0);
  strftime_ymd := fun _ => "";
  parse_patch := fun _ => [];
  b64decode_ascii := fun s => Ok s;
  b64decode_utf8 := fun s => Ok s;
  urlopen_read := fun _ => Ok "";
  Bugzilla_get_links := fun id => "https://bugzil.la/" ++ pretty id;
  products_blacklist := ∅;
  components_blacklist := ∅;
  calendar := [];
  latest_major := fun _ => 57;
  cfw_search := fun _ _ => [];
  regrs_search := fun _ =>
    [raw_bug 3 "RESOLVED" "fixed"; raw_bug 2 "REOPENED" "verified";
     raw_bug 1 "NEW" "affected"];
  bz_comments := fun _ => [];
  bz_history := fun _ => [history3; history2; history1];
  bz_attachments := fun _ => [];
  hg_rev := fun _ => None
|}.

(** A configuration of lists of names, as config.json holds it *)
Definition json_truthy (c : gmap string (list string)) : bool :=
  negb (bool_decide (c = ∅)).

Definition json_set (l : list string) : result (gset string) :=
  Ok (list_to_set l).

Definition a_config : gmap string (list string) :=
  <["products: blacklist" := ["Testing"]]>
    {["components: blacklist" := ["Untriaged"]]}.

(** * Properties *)

(** ** String methods against their meaning *)

Lemma app_cons (c : ascii) (s t : string) : String c s ++ t = String c (s ++ t).
Proof. reflexivity. Qed.

Lemma app_empty_l (s : string) : "" ++ s = s.
Proof. reflexivity. Qed.

Lemma app_empty_r (s : string) : s ++ "" = s.
Proof. induction s as [|c s IH]; [reflexivity|]. rewrite app_cons. by f_equal. Qed.

Lemma app_assoc_str (s t u : string) : (s ++ t) ++ u = s ++ (t ++ u).
Proof.
  induction s as [|c s IH]; [reflexivity|]. rewrite !app_cons. by f_equal.
Qed.

Lemma length_app_str (s t : string) :
  String.length (s ++ t) = (String.length s + String.length t)%nat.
Proof.
  induction s as [|c s IH]; [reflexivity|]. rewrite app_cons. simpl. by f_equal.
Qed.

Lemma startswith_spec (s p : string) :
  Str.startswith s p = true <-> exists post, s = p ++ post.
Proof.
  revert s. induction p as [|a p IH]; intros s; simpl.
  - split; [intros _; by exists s|done].
  - destruct s as [|b s].
    + split; [done|]. intros [post H]. by rewrite app_cons in H.
    + rewrite andb_true_iff, IH, Ascii.eqb_eq. split.
      * intros [-> [post ->]]. by exists post.
      * intros [post H]. rewrite app_cons in H. injection H as -> ->. eauto.
Qed.

Lemma endswith_eq (s p : string) :
  Str.endswith s p =
  String.eqb s p || match s with
                    | EmptyString => false
                    | String _ s' => Str.endswith s' p
                    end.
Proof. by destruct s. Qed.

Lemma contains_eq (sub s : string) :
  Str.contains sub s =
  Str.startswith s sub || match s with
                          | EmptyString => false
                          | String _ s' => Str.contains sub s'
                          end.
Proof. by destruct s. Qed.

Lemma endswith_spec (s p : string) :
  Str.endswith s p = true <-> exists pre, s = pre ++ p.
Proof.
  induction s as [|c s IH]; rewrite endswith_eq, orb_true_iff, String.eqb_eq.
  - split.
    + intros [->|?]; [by exists ""|done].
    + intros [[|a pre] H]; [by left|by rewrite app_cons in H].
  - rewrite IH. split.
    + intros [->|[pre ->]]; [by exists ""|]. by exists (String c pre).
    + intros [[|a pre] H]; [by left|].
      rewrite app_cons in H. injection H as -> ->. right. by exists pre.
Qed.

Lemma contains_spec (sub s : string) :
  Str.contains sub s = true <-> exists pre post, s = pre ++ sub ++ post.
Proof.
  induction s as [|c s IH]; rewrite contains_eq, orb_true_iff, startswith_spec.
  - split.
    + intros [[post H]|?]; [by exists "", post|done].
    + intros ([|a pre] & post & H); [left; by exists post|].
      by rewrite app_cons in H.
  - rewrite IH. split.
    + intros [[post H]|(pre & post & ->)]; [by exists "", post|].
      by exists (String c pre), post.
    + intros ([|a pre] & post & H); [left; by exists post|].
      rewrite app_cons in H. injection H as -> ->. right. by exists pre, post.
Qed.

Lemma last_char_app (pre s : string) :
  s <> "" -> Str.last_char (pre ++ s) = Str.last_char s.
Proof.
  intros Hs. induction pre as [|c pre IH]; [done|].
  rewrite app_cons. simpl. rewrite IH.
  destruct (pre ++ s) eqn:E; [|done].
  destruct pre; [by rewrite app_empty_l in E|by rewrite app_cons in E].
Qed.

(** ** Classification of test files *)

Lemma endswith_any_false (s : string) (ps : list string) :
  Str.endswith_any s ps = false <->
  forall t, t ∈ ps -> ~ exists pre, s = pre ++ t.
Proof.
  unfold Str.endswith_any. induction ps as [|p ps IH]; simpl.
  - split; [|done]. intros _ t Ht. by apply elem_of_nil in Ht.
  - rewrite orb_false_iff, IH. split.
    + intros [Hp Hps] t [->|Ht]%elem_of_cons; [|by apply Hps].
      intros Hex%endswith_spec. congruence.
    + intros H. split.
      * destruct (Str.endswith s p) eqn:E; [|done].
        apply endswith_spec in E. exfalso. eapply H; [|done]. by left.
      * intros t Ht. apply H. by right.
Qed.

(** C3. A path is classified as a test file exactly when it contains
    "test" and ends with none of ini, list, in, py, json, manifest. So a
    path that contains "test" and ends in .json is not a test file, and
    one that contains "test" (as a file in a test directory does) and
    ends in .cpp is. *)
Theorem is_test_classification (path : string) :
  (cfw._is_test path = true <->
     (exists pre post, path = pre ++ "test" ++ post) /\
     (forall t, t ∈ ["ini"; "list"; "in"; "py"; "json"; "manifest"] ->
        ~ exists pre, path = pre ++ t))
  /\ ((exists pre post, path = pre ++ "test" ++ post) /\
      (exists pre, path = pre ++ ".json") -> cfw._is_test path = false)
  /\ ((exists pre post, path = pre ++ "test" ++ post) /\
      (exists pre, path = pre ++ ".cpp") -> cfw._is_test path = true).
Proof.
  assert (Hiff : cfw._is_test path = true <->
     (exists pre post, path = pre ++ "test" ++ post) /\
     (forall t, t ∈ cfw.term -> ~ exists pre, path = pre ++ t)).
  { unfold cfw._is_test.
    by rewrite andb_true_iff, negb_true_iff, contains_spec, endswith_any_false. }
  split; [exact Hiff|split].
  - intros [_ [pre ->]].
    apply not_true_is_false. intros E.
    destruct (proj1 Hiff E) as [_ E']. apply (E' "json").
    + apply list_elem_of_In. simpl. tauto.
    + exists (pre ++ "."). by rewrite app_assoc_str.
  - intros [Ht [pre ->]]. apply Hiff. split; [done|].
    intros t Hin [pre' Heq].
    assert (Hl : Str.last_char (pre ++ ".cpp") = Str.last_char (pre' ++ t))
      by (by rewrite Heq).
    unfold cfw.term in Hin.
    rewrite last_char_app in Hl by done.
    repeat (apply elem_of_cons in Hin as [->|Hin];
            [by rewrite last_char_app in Hl by done|]).
    by apply elem_of_nil in Hin.
Qed.

(** ** Patch analysis *)

Lemma sum_bool_acc (l : list bool) (a : Z) :
  fold_left (fun acc (b : bool) => acc + (if b then 1 else 0)) l a
  = a + sum_bool l.
Proof.
  unfold sum_bool. revert a. induction l as [|b l IH]; intros a; simpl.
  - lia.
  - rewrite IH, (IH (0 + _)). lia.
Qed.

Lemma sum_bool_filter {A} (f : A -> bool) (l : list A) :
  sum_bool (map f l) = Z.of_nat (length (filter f l)).
Proof.
  induction l as [|x l IH]; [done|].
  unfold sum_bool. simpl. rewrite sum_bool_acc, IH.
  rewrite filter_cons. destruct (f x); simpl; lia.
Qed.

Lemma sum_bool_filter_ext {A} (f g : A -> bool) (l : list A) :
  (forall x, f x = g x) ->
  sum_bool (map f l) = Z.of_nat (length (filter g l)).
Proof.
  intros Hfg. rewrite <- sum_bool_filter. f_equal. apply map_ext. auto.
Qed.

Lemma patch_step_counts (info : patch_info) (d : diffobj) :
  let info' := cfw.patch_step info d in
  changes_add info' = changes_add info
                      + Z.of_nat (length (filter added_only (counted d)))
  /\ changes_del info' = changes_del info
                         + Z.of_nat (length (filter removed_only (counted d)))
  /\ changes_size info' + test_changes_size info'
     = changes_size info + test_changes_size info
       + Z.of_nat (length (counted d)).
Proof.
  unfold cfw.patch_step, counted, has_header, lines_of.
  destruct (d_header d) as [h|]; [|simpl; lia].
  destruct (d_changes d) as [[|c cs]|]; [simpl; lia| |simpl; lia].
  cbv zeta. rewrite !map_map.
  rewrite (sum_bool_filter_ext _ added_only), (sum_bool_filter_ext _ removed_only).
  - destruct (cfw._is_test _); simpl; lia.
  - intros x. unfold removed_only. simpl.
    by destruct (c_old x), (c_new x).
  - intros x. unfold added_only. simpl.
    by destruct (c_old x), (c_new x).
Qed.

Lemma patch_fold_counts (ds : list diffobj) (info : patch_info) :
  let info' := fold_left cfw.patch_step ds info in
  let pairs := concat (map counted ds) in
  changes_add info' = changes_add info
                      + Z.of_nat (length (filter added_only pairs))
  /\ changes_del info' = changes_del info
                         + Z.of_nat (length (filter removed_only pairs))
  /\ changes_size info' + test_changes_size info'
     = changes_size info + test_changes_size info + Z.of_nat (length pairs).
Proof.
  revert info. induction ds as [|d ds IH]; intros info; simpl.
  - lia.
  - destruct (IH (cfw.patch_step info d)) as (Ha & Hd & Hs).
    destruct (patch_step_counts info d) as (Ha' & Hd' & Hs').
    simpl in *. rewrite Ha, Hd, Hs, Ha', Hd', Hs'.
    rewrite !filter_app, !length_app. lia.
Qed.





(** ** Revision resolution *)

(** The landing entries that [comment_handler] stores carry the key of the
    bug, no date and no backout. *)
Lemma comment_handler_entries (revisions : list string) (bugid : string)
    (data data' : gmap Z BugRecord) (n : Z) (b : BugRecord) (rev : string)
    (i : LandingEntry) :
  cfw.comment_handler revisions bugid data = Ok data' ->
  Str.int bugid = Ok n -> data' !! n = Some b -> land b !! rev = Some i ->
  i = mkLand None false bugid.
Proof.
  unfold cfw.comment_handler. intros H Hn. rewrite Hn in H. simpl in H.
  unfold getitem in H. destruct (data !! n) as [b0|]; [|done].
  simpl in H. injection H as <-. rewrite lookup_insert_eq. intros [= <-].
  simpl.
  generalize (∅ : gmap string LandingEntry)
             (lookup_empty (M:=gmap string) (A:=LandingEntry)).
  intros d Hd.
  assert (Hall : forall r e, d !! r = Some e -> e = mkLand None false bugid)
    by (intros r e; by rewrite Hd).
  clear Hd. revert d Hall.
  induction revisions as [|r0 revisions IH]; intros d Hall; simpl; [apply Hall|].
  apply IH. intros r e. rewrite lookup_insert.
  case_decide; [by intros [= <-]|apply Hall].
Qed.

(** C9. [handler_rev] fills the date and the backout status from the push
    record whatever the commit message says about bugs; it keeps the bug
    id of an entry whose commit message references it and sets the bug
    id, and only the bug id, to the empty string otherwise. *)
Theorem handler_rev_frame (O : Outside) (json : hg_json) (data : LandingEntry) :
  let data' := cfw.handler_rev json data in
  date data' = Some (get_date_str (pushdate json).1)
  /\ backedout data' = is_backout json
  /\ (references json data = true -> bugid data' = bugid data)
  /\ (references json data = false ->
      data' = mkLand (Some (get_date_str (pushdate json).1))
                     (is_backout json) "").
Proof.
  unfold cfw.handler_rev, references, is_backout. cbv zeta.
  destruct (not_empty (default (JString "") (hg_backedoutby json)));
    destruct (Re.search cfw.backout_pattern (desc json)) as [mb|];
    (destruct (Re.search cfw.bug_pattern (desc json)) as [m|];
       [destruct (Re.group m 1) as [g|];
          [destruct (String.eqb g (bugid data))|]|]);
    cbn [date backedout bugid negb orb]; repeat split; congruence.
Qed.

Lemma handler_rev_frame_witness :
  references (mkHg (1500000000, 0) None "Bug 1234 - Fix it. r=me")
             (mkLand None false "1234") = true
  /\ references (mkHg (1500000000, 0) None "Backed out changeset bbb")
                (mkLand None false "1234") = false
  /\ @cfw.handler_rev quiet (mkHg (1500000000, 0) None "Bug 1234 - Fix it. r=me")
       (mkLand None false "1234") = mkLand (Some "") false "1234"
  /\ @cfw.handler_rev quiet (mkHg (1500000000, 0) None "Backed out changeset bbb")
       (mkLand None false "1234") = mkLand (Some "") true "".
Proof.
  split; [vm_compute; reflexivity|]. split; [vm_compute; reflexivity|].
  pose proof (handler_rev_frame quiet
                (mkHg (1500000000, 0) None "Bug 1234 - Fix it. r=me")
                (mkLand None false "1234")) as (H1 & H2 & H3 & _).
  pose proof (handler_rev_frame quiet
                (mkHg (1500000000, 0) None "Backed out changeset bbb")
                (mkLand None false "1234")) as (_ & _ & _ & H4).
  split; [|apply H4; vm_compute; reflexivity].
  specialize (H3 ltac:(vm_compute; reflexivity)).
  destruct (cfw.handler_rev _ _) as [d b i]. simpl in *. by subst.
Defined.

Lemma count_cons (b x : bool) (l : list bool) :
  count (b :: l) x = (if decide (b = x) then 1 else 0) + count l x.
Proof.
  unfold count. rewrite filter_cons. destruct (decide (b = x)); simpl; lia.
Qed.

Lemma count_perm (l1 l2 : list bool) (x : bool) :
  l1 ≡ₚ l2 -> count l1 x = count l2 x.
Proof. intros H. unfold count. by rewrite H. Qed.

(** Counting [False] among the [backedout] of the values of a dictionary
    of landing entries counts its entries that were not backed out. *)
Lemma count_not_backedout (m : gmap string LandingEntry) :
  count (map backedout (map_to_list m).*2) false
  = Z.of_nat (size (filter (fun p : string * LandingEntry =>
                              backedout p.2 = false) m)).
Proof.
  induction m as [|i x m Hi IH] using map_ind.
  - by rewrite map_to_list_empty, map_filter_empty, map_size_empty.
  - rewrite (count_perm _ (map backedout ((i, x) :: map_to_list m).*2)).
    2:{ by rewrite map_to_list_insert. }
    change (map backedout ((i, x) :: map_to_list m).*2)
      with (backedout x :: map backedout (map_to_list m).*2).
    rewrite count_cons, IH, map_filter_insert. cbn [snd].
    destruct (decide (backedout x = false)).
    + rewrite map_size_insert_None; [lia|].
      apply map_lookup_filter_None. by left.
    + rewrite delete_id by done. lia.
Qed.

(** C1. After [get_hg], the [landed_patches] of every bug record is the
    number of its landing entries whose [backedout] is false. *)
Theorem get_hg_landed_patches (O : Outside) (bugs : gmap Z BugRecord)
    (id : Z) (b : BugRecord) :
  bugs !! id = Some b ->
  exists info,
    cfw.get_hg bugs !! id = Some info
    /\ land info = cfw.resolve_land (land b)
    /\ landed_patches info =
         Some (Z.of_nat (size (filter (fun p : string * LandingEntry =>
                                         backedout p.2 = false) (land info)))).
Proof.
  intros Hb. unfold cfw.get_hg. rewrite !lookup_fmap, Hb. simpl.
  eexists. split; [reflexivity|]. simpl. split; [done|].
  by rewrite count_not_backedout.
Qed.

Lemma get_hg_landed_patches_witness :
  exists info,
    @cfw.get_hg hg_world {[1234 := two_landings]} !! 1234 = Some info
    /\ land info !! "bbb" = Some (mkLand (Some "") true "1234")
    /\ landed_patches info = Some 1.
Proof.
  destruct (get_hg_landed_patches hg_world {[1234 := two_landings]} 1234
              two_landings) as (info & Hget & Hland & Hn).
  { apply lookup_singleton_eq. }
  exists info. split; [exact Hget|]. split.
  - rewrite Hland. unfold cfw.resolve_land. rewrite map_lookup_imap.
    vm_compute. reflexivity.
  - rewrite Hn, Hland. vm_compute. reflexivity.
Defined.

Lemma get_hg_dom (O : Outside) (bugs : gmap Z BugRecord) :
  dom (cfw.get_hg bugs) = dom bugs.
Proof. unfold cfw.get_hg. by rewrite !dom_fmap_L. Qed.

(** ** The validity check of the freeze report *)

Lemma history_change_valid (flag : string) (date : Z) (chs : hchanges)
    (st : bool * bool) (ch : hchange) :
  (cfw.history_change flag date chs st ch).2
  = if sets_fixed flag ch then in_day date (when chs) else st.2.
Proof.
  destruct st as [sv valid]. unfold cfw.history_change, sets_fixed, in_day.
  by destruct (String.eqb (field_name ch) flag && String.eqb (added ch) "fixed").
Qed.

Lemma history_changes_valid (flag : string) (date : Z) (chs : hchanges)
    (l : list hchange) (st : bool * bool) :
  (fold_left (cfw.history_change flag date chs) l st).2
  = if existsb (sets_fixed flag) l then in_day date (when chs) else st.2.
Proof.
  revert st. induction l as [|ch l IH]; intros st; [done|].
  simpl. rewrite IH, history_change_valid.
  by destruct (sets_fixed flag ch), (existsb (sets_fixed flag) l).
Qed.

Lemma history_loop_from (flag : string) (date : Z) (history : list hchanges)
    (st : bool * bool) (last : option Z) :
  st.2 = from_option (in_day date) false last ->
  (fold_left (fun st chs => fold_left (cfw.history_change flag date chs)
                                       (changes chs) st) history st).2
  = from_option (in_day date) false
      (fold_left (fun last chs =>
                    if existsb (sets_fixed flag) (changes chs)
                    then Some (when chs) else last) history last).
Proof.
  revert st last. induction history as [|chs history IH]; intros st last Hst;
    [done|].
  simpl. apply IH. rewrite history_changes_valid.
  by destruct (existsb (sets_fixed flag) (changes chs)).
Qed.

(** What the loop of [history_handler] computes: [valid] is the verdict of
    the last change that sets the flag to "fixed". *)
Lemma history_loop_valid (flag : string) (date : Z) (history : list hchanges) :
  (cfw.history_loop flag date history).2
  = from_option (in_day date) false (last_fixed flag history).
Proof. by apply history_loop_from. Qed.

Lemma last_fixed_in_day (flag : string) (date : Z) (history : list hchanges)
    (last : option Z) :
  from_option (in_day date) false
    (fold_left (fun last chs =>
                  if existsb (sets_fixed flag) (changes chs)
                  then Some (when chs) else last) history last) = true ->
  from_option (in_day date) false last = true
  \/ fixed_in_day flag date history = true.
Proof.
  revert last. induction history as [|chs history IH]; intros last H;
    [by left|].
  simpl in H. apply IH in H as [H|H].
  - destruct (existsb (sets_fixed flag) (changes chs)) eqn:E; [|by left].
    right. simpl in *. by rewrite H, E.
  - right. simpl. rewrite H. apply orb_true_r.
Qed.

(** The half of C4 that holds: a bug whose history has no change setting
    the flag to "fixed" within the day goes to the list of invalids. *)
Lemma history_handler_invalid (flag : string) (date : Z) (invalids : list Z)
    (history : bug_history) (data : gmap Z BugRecord) (b : BugRecord) :
  data !! h_id history = Some b ->
  fixed_in_day flag date (h_history history) = false ->
  exists data',
    cfw.history_handler flag date invalids history data
    = Ok ((invalids ++ [h_id history])%list, data').
Proof.
  intros Hb Hno. unfold cfw.history_handler, getitem. rewrite Hb. simpl.
  pose proof (history_loop_valid flag date (h_history history)) as Hv.
  destruct (cfw.history_loop _ _ _) as [sv valid]. simpl in Hv.
  destruct valid; [|by eexists].
  symmetry in Hv. apply last_fixed_in_day in Hv as [Hv|Hv]; [done|congruence].
Qed.

(** C4 fails where a later change sets the flag to "fixed" again outside
    the day: the history of bug 77 has a change in the target day, and
    [history_handler] puts the bug with the invalids all the same, so that
    [get_bugs] returns no row for it; with the first change alone the bug
    has its row. *)
Theorem history_handler_last_change_decides :
  fixed_in_day "cf_status_firefox57" d_0714 (h_history fixed_twice) = true
  /\ cfw.history_handler "cf_status_firefox57" d_0714 [] fixed_twice
       {[77 := bug77]}
     = Ok ([77], {[77 := set_softvision false bug77]})
  /\ @cfw.get_bugs (freeze_world (release_on d_0710) fixed_twice)
       "2017-07-14" 57 "" = Ok (57, [])
  /\ @cfw.get_bugs (freeze_world (release_on d_0710) fixed_once)
       "2017-07-14" 57 "" = Ok (57, [row77]).
Proof.
  split; [vm_compute; reflexivity|]. split.
  - unfold cfw.history_handler, getitem. rewrite lookup_singleton_eq. simpl.
    by rewrite insert_singleton_eq.
  - split; vm_compute; reflexivity.
Qed.

(** ** The regression filter *)

Lemma is_regression_regresses (flag : string) (ch : hchange) :
  regrs.is_regression flag ch = regresses flag ch.
Proof.
  unfold regrs.is_regression, regresses. simpl.
  destruct (String.eqb (field_name ch) flag); simpl; [|done].
  by rewrite !orb_false_r.
Qed.

Lemma regrs_inner_loop (flag : string) (l : list hchange) (reg : bool) :
  fold_left (fun reg change =>
               if regrs.is_regression flag change then true else reg) l reg
  = reg || existsb (regresses flag) l.
Proof.
  revert reg. induction l as [|ch l IH]; intros reg; simpl.
  - by rewrite orb_false_r.
  - rewrite IH, is_regression_regresses.
    by destruct (regresses flag ch), reg.
Qed.

Lemma regrs_history_changes (date : option Z) (flag : string) (reg : bool)
    (chs : hchanges) :
  regrs.history_changes date flag reg chs
  = reg || (on_stream date chs && existsb (regresses flag) (changes chs)).
Proof.
  unfold regrs.history_changes, on_stream. rewrite regrs_inner_loop.
  destruct date as [d|]; [|done].
  destruct (Z.eqb (when chs) d); simpl; [done|by rewrite orb_false_r].
Qed.

Lemma regrs_outer_loop (date : option Z) (flag : string)
    (history : list hchanges) (reg : bool) :
  fold_left (regrs.history_changes date flag) history reg
  = reg || direct_transition date flag history.
Proof.
  revert reg. induction history as [|chs history IH]; intros reg; simpl.
  - by rewrite orb_false_r.
  - by rewrite IH, regrs_history_changes, orb_assoc.
Qed.

(** [history_handler] records whether the bug has a direct transition. *)
Lemma regrs_history_handler_lookup (date : option Z) (flag : string)
    (history : bug_history) (hdata : gmap Z bool) :
  regrs.history_handler date flag history hdata !! h_id history
  = Some (direct_transition date flag (h_history history)).
Proof.
  unfold regrs.history_handler. by rewrite lookup_insert_eq, regrs_outer_loop.
Qed.

(** One step of the loop of [filter_bugs], on a readable record *)
Lemma filter_bug_step (data : gmap Z RawBug) (flag : string) (id : Z)
    (reg : bool) (h : gmap Z bool) :
  (reg = false -> exists bug, data !! id = Some bug
      /\ (r_status bug = "REOPENED" -> is_Some (r_fields bug !! flag))) ->
  regrs.filter_bug data flag id reg (Ok h)
  = Ok (if negb reg && from_option (reopened_while_fixed flag) false (data !! id)
        then <[id := true]> h else h).
Proof.
  intros Hr. unfold regrs.filter_bug. simpl.
  destruct reg; simpl; [done|].
  destruct (Hr eq_refl) as (bug & Hbug & Hflag).
  unfold getitem, reopened_while_fixed. rewrite Hbug. simpl.
  destruct (String.eqb_spec (r_status bug) "REOPENED") as [Hst|]; [|done].
  destruct (Hflag Hst) as [v Hv]. rewrite Hv. simpl.
  rewrite orb_false_r. by destruct (_ || _).
Qed.

(** What [filter_bugs] returns on readable records: every flag joined
    with condition (b) of its bug. *)
Lemma filter_bugs_spec (data : gmap Z RawBug) (hdata : gmap Z bool)
    (flag tracking : string) :
  readable flag data hdata ->
  exists r,
    regrs.filter_bugs data hdata flag tracking = Ok r
    /\ forall id,
         r !! id = (fun reg =>
                      reg || from_option (reopened_while_fixed flag) false
                                         (data !! id)) <$> hdata !! id.
Proof.
  intros Hread. unfold regrs.filter_bugs.
  cut (forall m : gmap Z bool, m ⊆ hdata ->
         exists r, map_fold (regrs.filter_bug data flag) (Ok hdata) m = Ok r
           /\ forall id, r !! id =
                match m !! id with
                | Some reg =>
                    if negb reg && from_option (reopened_while_fixed flag)
                                               false (data !! id)
                    then Some true else hdata !! id
                | None => hdata !! id
                end).
  { intros H. destruct (H hdata) as (r & Hr & Hl); [done|].
    exists r. split; [done|]. intros id. rewrite Hl.
    destruct (hdata !! id) as [[]|]; simpl; [done| |done].
    by destruct (from_option _ _ _). }
  intros m. induction m as [|i x m Hi Hfirst IH] using map_first_key_ind.
  - intros _. exists hdata. split; [by rewrite map_fold_empty|]. intros id.
    by rewrite lookup_empty.
  - intros Hsub. rewrite map_fold_insert_first_key by done.
    assert (Hix : hdata !! i = Some x).
    { eapply lookup_weaken; [|done]. apply lookup_insert_eq. }
    destruct IH as (r & Hr & Hl).
    { etrans; [|done]. by apply insert_subseteq. }
    rewrite Hr, filter_bug_step.
    2:{ intros ->. by apply Hread. }
    eexists. split; [done|]. intros id.
    destruct (decide (i = id)) as [->|Hne].
    + rewrite lookup_insert_eq.
      destruct (negb x && _); [by rewrite lookup_insert_eq|].
      by rewrite Hl, Hi.
    + rewrite lookup_insert_ne by done.
      destruct (negb x && _); [rewrite lookup_insert_ne by done|]; apply Hl.
Qed.

Lemma fold_history_other (date : option Z) (flag : string)
    (hs : list bug_history) (hdata : gmap Z bool) (id : Z) :
  id ∉ h_id <$> hs ->
  fold_left (fun hdata h => regrs.history_handler date flag h hdata) hs hdata
    !! id = hdata !! id.
Proof.
  revert hdata. induction hs as [|h hs IH]; intros hdata Hid; [done|].
  rewrite fmap_cons, not_elem_of_cons in Hid. destruct Hid as [Hne Hid].
  simpl. rewrite IH by done. unfold regrs.history_handler.
  by rewrite lookup_insert_ne.
Qed.

Lemma fold_history_lookup (date : option Z) (flag : string)
    (hs : list bug_history) (hdata : gmap Z bool) (h : bug_history) :
  NoDup (h_id <$> hs) -> h ∈ hs ->
  fold_left (fun hdata h => regrs.history_handler date flag h hdata) hs hdata
    !! h_id h = Some (direct_transition date flag (h_history h)).
Proof.
  revert hdata. induction hs as [|h0 hs IH]; intros hdata Hnd Hin.
  - by apply elem_of_nil in Hin.
  - rewrite fmap_cons in Hnd. apply NoDup_cons in Hnd as [Hfresh Hnd].
    apply elem_of_cons in Hin as [->|Hin]; simpl.
    + rewrite fold_history_other by done.
      apply regrs_history_handler_lookup.
    + by apply IH.
Qed.

Lemma fold_history_keys (date : option Z) (flag : string)
    (hs : list bug_history) (hdata : gmap Z bool) (id : Z) :
  is_Some (fold_left (fun hdata h => regrs.history_handler date flag h hdata)
                     hs hdata !! id) ->
  is_Some (hdata !! id) \/ id ∈ h_id <$> hs.
Proof.
  revert hdata. induction hs as [|h hs IH]; intros hdata H; [by left|].
  simpl in H. apply IH in H as [H|H].
  - unfold regrs.history_handler in H.
    destruct (decide (h_id h = id)) as [<-|Hne].
    + right. rewrite fmap_cons. by left.
    + left. by rewrite lookup_insert_ne in H.
  - right. rewrite fmap_cons. by right.
Qed.

(** What the two passes compute. After the histories of the bugs have gone
    through [history_handler] and the flags through [filter_bugs], a bug is
    flagged exactly when (a) its history has a change of the status flag
    from verified or fixed to --- or affected in a group that passes the
    date test of the code, or (b) its status is REOPENED while the status
    flag is verified or fixed. [filter_bugs] only ever turns a false flag
    into a true one, and every bug has one flag. Without a date every
    group passes the test. *)
Theorem regression_flag (date : option Z) (flag tracking : string)
    (data : gmap Z RawBug) (hs : list bug_history) :
  let hdata :=
    fold_left (fun hdata h => regrs.history_handler date flag h hdata) hs ∅ in
  NoDup (h_id <$> hs) ->
  (forall h, h ∈ hs ->
     exists bug, data !! h_id h = Some bug
       /\ (r_status bug = "REOPENED" -> is_Some (r_fields bug !! flag))) ->
  exists r,
    regrs.filter_bugs data hdata flag tracking = Ok r
    /\ (forall h bug, h ∈ hs -> data !! h_id h = Some bug ->
          r !! h_id h = Some (direct_transition date flag (h_history h)
                              || reopened_while_fixed flag bug))
    /\ (forall id, hdata !! id = Some true -> r !! id = Some true)
    /\ (forall id, r !! id = Some true -> hdata !! id = Some false ->
          from_option (reopened_while_fixed flag) false (data !! id) = true)
    /\ dom r = dom hdata.
Proof.
  intros hdata Hnd Hdata.
  assert (Hread : readable flag data hdata).
  { intros id Hid.
    destruct (fold_history_keys date flag hs ∅ id) as [[? H]|H].
    - unfold hdata in Hid. by rewrite Hid.
    - by rewrite lookup_empty in H.
    - apply list_elem_of_fmap in H as (h & -> & Hh). by apply Hdata. }
  destruct (filter_bugs_spec data hdata flag tracking Hread) as (r & Hr & Hl).
  exists r. split; [done|]. repeat split.
  - intros h bug Hh Hbug. rewrite Hl. unfold hdata.
    rewrite fold_history_lookup by done. simpl. by rewrite Hbug.
  - intros id Hid. by rewrite Hl, Hid.
  - intros id Hrid Hid. rewrite Hl, Hid in Hrid. simpl in Hrid. congruence.
  - apply set_eq. intros id. rewrite !elem_of_dom, Hl.
    by rewrite fmap_is_Some.
Qed.

Lemma regression_flag_witness :
  exists r,
    regrs.filter_bugs three_bugs
      (fold_left (fun hdata h =>
                    regrs.history_handler None "cf_status_firefox57" h hdata)
                 three_histories ∅)
      "cf_status_firefox57" "cf_tracking_firefox57" = Ok r
    /\ r !! 1 = Some true /\ r !! 2 = Some true /\ r !! 3 = Some false.
Proof.
  destruct (regression_flag None "cf_status_firefox57" "cf_tracking_firefox57"
              three_bugs three_histories) as (r & Hr & Hflag & _).
  - vm_compute. repeat constructor; set_solver.
  - intros h Hh. unfold three_histories in Hh.
    repeat (apply elem_of_cons in Hh as [->|Hh];
            [eexists; split; [vm_compute; reflexivity|];
             intros _; eexists; vm_compute; reflexivity|]).
    by apply elem_of_nil in Hh.
  - exists r. split; [exact Hr|].
    split; [|split].
    + exact (Hflag history1 (raw_bug 1 "NEW" "affected")
               ltac:(unfold three_histories; set_solver) eq_refl).
    + exact (Hflag history2 (raw_bug 2 "REOPENED" "verified")
               ltac:(unfold three_histories; set_solver) eq_refl).
    + exact (Hflag history3 (raw_bug 3 "RESOLVED" "fixed")
               ltac:(unfold three_histories; set_solver) eq_refl).
Defined.

(** C5 fails where the report is asked for a day: the code compares the
    instant of a change with the start of the day, so a change from fixed
    to affected made at 02:40 of 2017-07-14 is not flagged in the report
    of that day, although it lies in the day; the same change made at
    midnight is flagged, and so is the one of 02:40 when no date is
    given. *)
Theorem regression_within_day_not_flagged :
  in_day d_0714 (d_0714 + 9600) = true
  /\ existsb (regresses "cf_status_firefox57")
             [mkChange "cf_status_firefox57" "fixed" "affected"] = true
  /\ regrs.history_handler (Some d_0714) "cf_status_firefox57"
       (regression_at (d_0714 + 9600)) ∅ = {[1 := false]}
  /\ @regrs.get_links (regression_world (d_0714 + 9600)) 57
       (Some "2017-07-14") "" (mkFs ∅ []) = (Ok [], mkFs ∅ [])
  /\ @regrs.get_links (regression_world d_0714) 57
       (Some "2017-07-14") "" (mkFs ∅ []) = (Ok [(1, "")], mkFs ∅ [])
  /\ @regrs.get_links (regression_world (d_0714 + 9600)) 57
       None "" (mkFs ∅ []) = (Ok [(1, "")], mkFs ∅ []).
Proof. repeat split; vm_compute; reflexivity. Qed.

(** ** The file of treated bugs *)

(** C10. With an empty path [check_bugs] returns the list it was given and
    touches no file. With the path of a file that holds a list of treated
    bugs it returns the set of the given ids that are not in that list,
    and the list of the file then holds the ids it held and the given
    ids. *)
Theorem check_bugs_spec (bugids : list Z) (st : fs) :
  regrs.check_bugs bugids "" st = (Ok (PyList bugids), st)
  /\ forall (treated : string) (data : gmap string (list Z)) (old : list Z),
       treated <> "" ->
       files st !! treated = Some data ->
       data !! "treated" = Some old ->
       exists st' data' new,
         regrs.check_bugs bugids treated st
         = (Ok (PySet (list_to_set bugids ∖ list_to_set old)), st')
         /\ files st' !! treated = Some data'
         /\ data' !! "treated" = Some new
         /\ list_to_set new =@{gset Z} list_to_set old ∪ list_to_set bugids.
Proof.
  split; [done|].
  intros treated data old Hne Hfile Hold. unfold regrs.check_bugs.
  destruct (String.eqb_spec treated "") as [|_]; [done|]. simpl.
  rewrite Hfile, Hold.
  destruct (decide (list_to_set bugids ∖ list_to_set old =@{gset Z} ∅))
    as [Hempty|Hnew].
  - eexists _, data, old. repeat split; [done..|].
    apply set_eq. intros x. rewrite elem_of_union.
    split; [by left|]. intros [?|Hx]; [done|].
    destruct (decide (x ∈@{gset Z} list_to_set old)); [done|].
    assert (x ∈@{gset Z} ∅); [|set_solver].
    rewrite <- Hempty. set_solver.
  - eexists _, _, _. split; [done|]. simpl.
    split; [by rewrite lookup_insert_eq|].
    split; [by rewrite lookup_insert_eq|].
    rewrite list_to_set_app_L, list_to_set_elements_L.
    apply set_eq. intros x. rewrite !elem_of_union, elem_of_difference.
    destruct (decide (x ∈@{gset Z} list_to_set old)); naive_solver.
Qed.

Lemma check_bugs_spec_witness :
  let st := mkFs {["treated.json" := {["treated" := [1; 2]]}]} [] in
  exists st',
    regrs.check_bugs [2; 3] "treated.json" st = (Ok (PySet {[3]}), st')
    /\ regrs.check_bugs [2; 3] "" st = (Ok (PyList [2; 3]), st).
Proof.
  intros st.
  destruct (check_bugs_spec [2; 3] st) as [Hempty Hfile].
  destruct (Hfile "treated.json" {["treated" := [1; 2]]} [1; 2])
    as (st' & data' & new & Hret & _); [done| |done|].
  { apply lookup_singleton_eq. }
  exists st'. split; [|exact Hempty].
  assert (Heq : list_to_set [2; 3] ∖ list_to_set [1; 2] =@{gset Z} {[3]}).
  { apply set_eq. intros x.
    rewrite elem_of_difference, !elem_of_list_to_set, !elem_of_cons.
    rewrite elem_of_singleton. split.
    - intros [[->|[->|[]%elem_of_nil]] Hn]; [|done].
      exfalso. apply Hn. right. by left.
    - intros ->. split; [right; by left|].
      by intros [?|[?|[]%elem_of_nil]]. }
  by rewrite Hret, Heq.
Defined.

(** ** Sorting *)

Section SortedFacts.
Context {A K : Type} (lt : K -> K -> bool) (key : A -> K).
Hypothesis lt_asym : forall x y, lt x y = true -> lt y x = false.
Hypothesis le_trans :
  forall x y z, lt y x = false -> lt z y = false -> lt z x = false.

Lemma insort_perm (x : A) (l : list A) : insort lt key x l ≡ₚ x :: l.
Proof.
  induction l as [|y l IH]; simpl; [done|].
  destruct (lt (key y) (key x)); [|done].
  rewrite IH. apply Permutation_swap.
Qed.

Lemma sorted_perm (l : list A) : sorted lt key l ≡ₚ l.
Proof.
  induction l as [|x l IH]; simpl; [done|].
  by rewrite insort_perm, IH.
Qed.

Lemma insort_sorted (x : A) (l : list A) :
  StronglySorted (key_le lt key) l ->
  StronglySorted (key_le lt key) (insort lt key x l).
Proof.
  induction l as [|y l IH]; intros Hl; simpl.
  - repeat constructor.
  - apply StronglySorted_inv in Hl as [Hl Hy].
    destruct (lt (key y) (key x)) eqn:E.
    + constructor; [by apply IH|].
      rewrite insort_perm. constructor; [|done].
      by apply lt_asym.
    + constructor; [by constructor|].
      constructor; [done|].
      eapply Forall_impl; [exact Hy|]. intros z Hz.
      by apply (le_trans _ (key y)).
Qed.

Lemma sorted_StronglySorted (l : list A) :
  StronglySorted (key_le lt key) (sorted lt key l).
Proof.
  induction l as [|x l IH]; simpl; [constructor|by apply insort_sorted].
Qed.
End SortedFacts.

Lemma strict_total_asym {A} (eqb ltb : A -> A -> bool) :
  strict_total eqb ltb -> forall x y, ltb x y = true -> ltb y x = false.
Proof.
  intros H x y Hxy. destruct (ltb y x) eqn:E; [|done].
  pose proof (st_trans _ _ H _ _ _ Hxy E) as Hxx.
  by rewrite (st_irrefl _ _ H) in Hxx.
Qed.

Lemma strict_total_le_trans {A} (eqb ltb : A -> A -> bool) :
  strict_total eqb ltb ->
  forall x y z, ltb y x = false -> ltb z y = false -> ltb z x = false.
Proof.
  intros H x y z Hyx Hzy. destruct (ltb z x) eqn:E; [|done].
  destruct (st_total _ _ H x y) as [Hxy|[->|Hxy]]; [|congruence..].
  pose proof (st_trans _ _ H _ _ _ E Hxy). congruence.
Qed.

Lemma lex_strict_total {A B} (eqA ltA : A -> A -> bool)
    (eqB ltB : B -> B -> bool) :
  strict_total eqA ltA -> strict_total eqB ltB ->
  strict_total (pair_eqb eqA eqB) (cfw.lex eqA ltA ltB).
Proof.
  intros HA HB. split.
  - intros [a b] [a' b']. unfold pair_eqb. simpl.
    rewrite andb_true_iff, (st_eq _ _ HA), (st_eq _ _ HB).
    split; [by intros [-> ->]|by intros [= -> ->]].
  - intros [a b]. unfold cfw.lex. simpl.
    destruct (eqA a a); [apply (st_irrefl _ _ HB)|apply (st_irrefl _ _ HA)].
  - intros [a b] [a' b'] [a'' b'']. unfold cfw.lex. simpl.
    destruct (eqA a a') eqn:E1.
    + apply (st_eq _ _ HA) in E1 as ->.
      destruct (eqA a' a''); [apply (st_trans _ _ HB)|done].
    + destruct (eqA a' a'') eqn:E2.
      * apply (st_eq _ _ HA) in E2 as ->. by rewrite E1.
      * intros H1 H2. pose proof (st_trans _ _ HA _ _ _ H1 H2) as H3.
        destruct (eqA a a'') eqn:E3; [|done].
        apply (st_eq _ _ HA) in E3 as ->.
        by rewrite (st_irrefl _ _ HA) in H3.
  - intros [a b] [a' b']. unfold cfw.lex. simpl.
    destruct (st_total _ _ HA a a') as [H|[->|H]].
    + left. destruct (eqA a a') eqn:E; [|done].
      apply (st_eq _ _ HA) in E as ->.
      by rewrite (st_irrefl _ _ HA) in H.
    + assert (eqA a' a' = true) as -> by by apply (st_eq _ _ HA).
      destruct (st_total _ _ HB b b') as [?|[->|?]]; auto.
    + right. right. destruct (eqA a' a) eqn:E; [|done].
      apply (st_eq _ _ HA) in E as ->.
      by rewrite (st_irrefl _ _ HA) in H.
Qed.

Lemma Z_strict_total : strict_total Z.eqb Z.ltb.
Proof.
  split.
  - apply Z.eqb_eq.
  - apply Z.ltb_irrefl.
  - intros x y z. rewrite !Z.ltb_lt. lia.
  - intros x y. rewrite !Z.ltb_lt. lia.
Qed.

Lemma string_compare_refl (s : string) : String.compare s s = Eq.
Proof.
  induction s as [|a s IH]; [done|]. simpl.
  unfold Ascii.compare. by rewrite N.compare_refl.
Qed.

Lemma string_ltb_leb (s1 s2 : string) :
  String.ltb s1 s2 = true <-> String.leb s1 s2 = true /\ s1 <> s2.
Proof.
  unfold String.ltb, String.leb.
  destruct (String.compare s1 s2) eqn:E.
  - apply String.compare_eq_iff in E. split; [done|]. by intros [_ ?].
  - split; [|done]. intros _. split; [done|]. intros ->.
    by rewrite string_compare_refl in E.
  - split; [by intros ?|by intros [? _]].
Qed.

Lemma string_strict_total : strict_total String.eqb String.ltb.
Proof.
  split.
  - apply String.eqb_eq.
  - intros s. destruct (String.ltb s s) eqn:E; [|done].
    by apply string_ltb_leb in E as [_ ?].
  - intros x y z [Hxy Hne]%string_ltb_leb [Hyz Hne']%string_ltb_leb.
    apply string_ltb_leb. split.
    + apply Is_true_true. etrans; apply Is_true_true; [exact Hxy|exact Hyz].
    + intros ->. apply Hne. by apply String.leb_antisym.
  - intros x y. destruct (decide (x = y)) as [|Hne]; [auto|].
    destruct (String.leb_total x y) as [H|H].
    + left. by apply string_ltb_leb.
    + right. right. apply string_ltb_leb. split; [done|congruence].
Qed.

Lemma key_lt_strict_total :
  strict_total
    (pair_eqb String.eqb (pair_eqb String.eqb (pair_eqb Z.eqb
       (pair_eqb Z.eqb (pair_eqb Z.eqb Z.eqb)))))
    cfw.key_lt.
Proof.
  unfold cfw.key_lt.
  repeat (apply lex_strict_total;
          [first [apply string_strict_total|apply Z_strict_total]|]).
  apply Z_strict_total.
Qed.

(** Where the string comparison of a key decides nothing *)
Lemma str_not_lt (s1 s2 : string) :
  String.eqb s2 s1 = false -> String.ltb s2 s1 = false -> str_lt s1 s2.
Proof.
  intros Hne Hlt. unfold str_lt.
  destruct (st_total _ _ string_strict_total s1 s2) as [?|[->|?]];
    [done| |congruence].
  by rewrite String.eqb_refl in Hne.
Qed.

(** A row whose key is not above the key of another may stand before it. *)
Lemma key_le_row_before (r1 r2 : ReportRow) :
  cfw.key_lt (row_key r2) (row_key r1) = false -> row_before r1 r2.
Proof.
  unfold cfw.key_lt, cfw.lex, row_key, row_before. simpl. intros Hlt.
  destruct (String.eqb_spec (row_product r2) (row_product r1)) as [Hp|Hp].
  2:{ left. apply str_not_lt; [by apply String.eqb_neq|done]. }
  right. split; [done|].
  destruct (String.eqb_spec (row_component r2) (row_component r1)) as [Hc|Hc].
  2:{ left. apply str_not_lt; [by apply String.eqb_neq|done]. }
  right. split; [done|].
  destruct (Z.eqb_spec (- row_patches r2) (- row_patches r1)).
  2:{ apply Z.ltb_ge in Hlt. lia. }
  destruct (Z.eqb_spec (- row_size r2) (- row_size r1)).
  2:{ apply Z.ltb_ge in Hlt. lia. }
  destruct (Z.eqb_spec (- row_test_size r2) (- row_test_size r1)).
  2:{ apply Z.ltb_ge in Hlt. lia. }
  apply Z.ltb_ge in Hlt. lia.
Qed.

Lemma mapr_Forall2 {A B} (f : A -> result B) (l : list A) (l' : list B) :
  cfw.mapr f l = Ok l' <-> Forall2 (fun x y => f x = Ok y) l l'.
Proof.
  revert l'. induction l as [|x l IH]; intros l'; simpl.
  - split; [intros [= <-]; constructor|by intros ->%Forall2_nil_inv_l].
  - split.
    + destruct (f x) as [y|] eqn:E; [|done]. simpl.
      destruct (cfw.mapr f l) as [ys|]; [|done]. simpl.
      intros [= <-]. constructor; [done|by apply IH].
    + intros (y & ys & Hy & Hys & ->)%Forall2_cons_inv_l.
      rewrite Hy. simpl. apply IH in Hys. by rewrite Hys.
Qed.

Lemma mapr_total {A B} (f : A -> result B) (l : list A) :
  (forall x, x ∈ l -> exists y, f x = Ok y) -> exists l', cfw.mapr f l = Ok l'.
Proof.
  induction l as [|x l IH]; intros H; simpl; [by eexists|].
  destruct (H x) as [y ->]; [by left|]. simpl.
  destruct IH as [ys ->]; [|by eexists].
  intros z Hz. apply H. by right.
Qed.

Lemma StronglySorted_Forall2 {A B} (R : relation A) (R' : relation B)
    (Q : A -> B -> Prop) (l : list A) (l' : list B) :
  (forall a b a' b', Q a a' -> Q b b' -> R a b -> R' a' b') ->
  Forall2 Q l l' -> StronglySorted R l -> StronglySorted R' l'.
Proof.
  intros HR HQ. induction HQ as [|a a' l l' Ha HQ IH]; intros Hs.
  - constructor.
  - apply StronglySorted_inv in Hs as [Hs Hall].
    constructor; [by apply IH|].
    clear IH Hs. induction HQ as [|b b' l l' Hb HQ IH]; [constructor|].
    apply Forall_cons in Hall as [Hab Hall].
    constructor; [by eapply HR|by apply IH].
Qed.

Lemma row_of_enriched (O : Outside) (major id : Z) (b : BugRecord)
    (k : cfw.sort_key) :
  enriched major b -> cfw.sort (id, b) = Ok k ->
  exists r, cfw.row_of major id b = Ok r /\ row_key r = k /\ row_id r = id.
Proof.
  intros ([lp Hlp] & [pa Hpa] & [sv Hsv] & [tr Htr] & [s2 Hs2] & [s1 Hs1]
          & [s0 Hs0]).
  unfold cfw.sort, cfw.row_of. simpl.
  rewrite Hlp, Hpa, Hsv, Htr, Hs2, Hs1, Hs0. intros [= <-].
  by eexists.
Qed.

Lemma sort_enriched (major id : Z) (b : BugRecord) :
  enriched major b -> exists k, cfw.sort (id, b) = Ok k.
Proof.
  intros ([lp Hlp] & [pa Hpa] & _). unfold cfw.sort. simpl.
  rewrite Hlp, Hpa. by eexists.
Qed.

Lemma Forall2_with_Forall {A B} (P : A -> Prop) (Q : A -> B -> Prop)
    (l : list A) (l' : list B) :
  Forall P l -> Forall2 Q l l' -> Forall2 (fun a b => P a /\ Q a b) l l'.
Proof.
  intros HP HQ. induction HQ as [|a b l l' Hab HQ IH]; [constructor|].
  apply Forall_cons in HP as [Ha HP]. constructor; [done|by apply IH].
Qed.

Lemma Forall2_fmap_eq {A B C} (f : A -> C) (g : B -> C) (l : list A)
    (l' : list B) :
  Forall2 (fun a b => f a = g b) l l' -> f <$> l = g <$> l'.
Proof.
  induction 1 as [|a b l l' Hab _ IH]; [done|].
  rewrite !fmap_cons. by f_equal.
Qed.

(** C7. For a map of bug records that went through the stages of the
    pipeline, [prepare] returns the rows of the bugs of the map, sorted by
    product and component ascending, then by landed patches, changes
    size, test changes size and bug id descending. *)
Theorem prepare_sorted (O : Outside) (major : Z) (bugs : gmap Z BugRecord) :
  (forall id b, bugs !! id = Some b -> enriched major b) ->
  exists rows,
    cfw.prepare major bugs = Ok rows
    /\ StronglySorted row_before rows
    /\ row_id <$> rows ≡ₚ (map_to_list bugs).*1.
Proof.
  intros Hen. unfold cfw.prepare.
  assert (Hitems : Forall (fun p => enriched major p.2) (map_to_list bugs)).
  { apply Forall_forall. intros [id b] Hp%elem_of_map_to_list. by eapply Hen. }
  destruct (mapr_total (fun p => k <-! cfw.sort p; Ok (k, p))
                       (map_to_list bugs)) as [keyed Hkeyed].
  { intros [id b] Hp. rewrite Forall_forall in Hitems.
    destruct (sort_enriched major id b) as [k Hk]; [by apply (Hitems (id, b))|].
    rewrite Hk. by eexists. }
  rewrite Hkeyed. simpl.
  apply mapr_Forall2 in Hkeyed.
  apply (Forall2_with_Forall _ _ _ _ Hitems) in Hkeyed.
  assert (Hk : Forall2 (fun p kp => enriched major kp.2.2
                                    /\ cfw.sort kp.2 = Ok kp.1 /\ kp.2 = p)
                       (map_to_list bugs) keyed).
  { eapply Forall2_impl; [exact Hkeyed|]. intros p kp [Hp Hs].
    destruct (cfw.sort p) as [k|] eqn:E; [|done].
    simpl in Hs. injection Hs as <-. by simpl. }
  clear Hkeyed.
  set (s := sorted cfw.key_lt fst keyed).
  assert (Hs : Forall (fun kp => enriched major kp.2.2
                                 /\ cfw.sort kp.2 = Ok kp.1) s).
  { unfold s. rewrite sorted_perm.
    eapply Forall2_Forall_r; [exact Hk|].
    apply Forall_true. intros p kp. tauto. }
  destruct (mapr_total (fun kp => cfw.row_of major kp.2.1 kp.2.2) s)
    as [rows Hrows].
  { intros [k [id b]] Hkp. rewrite Forall_forall in Hs.
    destruct (Hs _ Hkp) as [He Hsort]. simpl in *.
    destruct (row_of_enriched O major id b k He Hsort) as (r & -> & _).
    by eexists. }
  exists rows. split; [done|].
  apply mapr_Forall2 in Hrows.
  apply (Forall2_with_Forall _ _ _ _ Hs) in Hrows.
  assert (Hr : Forall2 (fun kp r => row_key r = kp.1 /\ row_id r = kp.2.1)
                       s rows).
  { eapply Forall2_impl; [exact Hrows|].
    intros [k [id b]] r [[He Hsort] Hrow]. simpl in *.
    destruct (row_of_enriched O major id b k He Hsort) as (r' & Hr' & ? & ?).
    rewrite Hr' in Hrow. by injection Hrow as <-. }
  split.
  - eapply (StronglySorted_Forall2
              (fun a b => cfw.key_lt (fst b) (fst a) = false)); [|exact Hr|].
    + intros kp1 kp2 r1 r2 [H1 _] [H2 _] Hle.
      apply key_le_row_before. by rewrite H1, H2.
    + apply sorted_StronglySorted.
      * apply (strict_total_asym _ _ key_lt_strict_total).
      * apply (strict_total_le_trans _ _ key_lt_strict_total).
  - rewrite <- (Forall2_fmap_eq (fun kp => kp.2.1) row_id s rows).
    2:{ eapply Forall2_impl; [exact Hr|]. by intros ?? [_ ->]. }
    unfold s. rewrite sorted_perm.
    rewrite (Forall2_fmap_eq fst (fun kp => kp.2.1) (map_to_list bugs) keyed);
      [done|].
    eapply Forall2_impl; [exact Hk|]. by intros ?? (_ & _ & ->).
Qed.

Lemma prepare_sorted_witness :
  exists rows,
    @cfw.prepare quiet 57 four_bugs = Ok rows
    /\ StronglySorted row_before rows
    /\ row_id <$> rows ≡ₚ (map_to_list four_bugs).*1.
Proof.
  apply (prepare_sorted quiet 57 four_bugs).
  intros id b Hb. unfold four_bugs in Hb.
  repeat (apply lookup_insert_Some in Hb as [[_ <-]|[_ Hb]];
          [repeat split; vm_compute; by eexists|]).
  apply lookup_singleton_Some in Hb as [_ <-].
  repeat split; vm_compute; by eexists.
Defined.

Example prepare_four_bugs :
  exists rows,
    @cfw.prepare quiet 57 four_bugs = Ok rows
    /\ row_id <$> rows = [13; 12; 11; 10].
Proof.
  eexists. split; [vm_compute; reflexivity|]. vm_compute. reflexivity.
Qed.

(** ** Window resolution *)

Lemma get_start_date_unmatched (O : Outside) (d : Z) :
  no_release_week d -> cfw.get_start_date (inr d) = Ok None.
Proof.
  unfold no_release_week, cfw.get_start_date. simpl.
  generalize calendar. intros cal Hcal.
  induction cal as [|ev cal IH]; [done|].
  assert (IH' : forall ev t, ev ∈ cal -> ev_summary ev = Some t ->
            Str.contains "Beta->Release" t = true ->
            ~ ((isocalendar (ev_dtstart ev)).1.1 = (isocalendar d).1.1
               /\ (isocalendar (ev_dtstart ev)).1.2 = (isocalendar d).1.2)).
  { intros ev' t Hin. apply Hcal. by right. }
  specialize (IH IH'). simpl.
  destruct (ev_summary ev) as [t|] eqn:Et; [|exact IH].
  destruct (Str.contains "Beta->Release" t) eqn:Ec; [|exact IH].
  simpl.
  destruct (Z.eqb_spec (isocalendar (ev_dtstart ev)).1.1 (isocalendar d).1.1)
    as [Hy|Hy]; [|exact IH].
  destruct (Z.eqb_spec (isocalendar (ev_dtstart ev)).1.2 (isocalendar d).1.2)
    as [Hw|Hw]; [|exact IH].
  exfalso. eapply (Hcal ev t); [by left|done..].
Qed.

(** Without a release in the ISO week of the target date, [get_bugs] hands
    [None] to [utils.get_date_ymd], and ends as that call ends. *)
Lemma get_bugs_unmatched (O : Outside) (date : string) (major d : Z) (e : exn) :
  get_date_ymd (Some date) = Ok d ->
  no_release_week d ->
  get_date_ymd None = Err e ->
  cfw.get_bugs date major "" = Err e.
Proof.
  intros Hd Hno He. unfold cfw.get_bugs. rewrite Hd.
  cbv beta iota delta [rbind]. rewrite String.eqb_refl.
  rewrite (get_start_date_unmatched O d Hno). cbv beta iota. by rewrite He.
Qed.

(** The half of C8 that holds: a target date outside the week that starts
    on the release day gives the empty report. *)
Lemma get_bugs_outside_window (O : Outside) (date s : string)
    (major d start : Z) :
  get_date_ymd (Some date) = Ok d ->
  cfw.get_start_date (inr d) = Ok (Some s) ->
  get_date_ymd (Some s) = Ok start ->
  ~ (start <= d <= start + 6 * day) ->
  cfw.get_bugs date major ""
  = Ok (if Z.eqb major (-1) then cfw.get_major else major, []).
Proof.
  intros Hd Hs Hstart Hout. unfold cfw.get_bugs. rewrite Hd.
  cbv beta iota delta [rbind]. rewrite Hs, Hstart, String.eqb_refl.
  cbv beta iota.
  destruct (Z.leb_spec start d), (Z.leb_spec d (start + 6 * day));
    cbn [andb]; try done.
  lia.
Qed.

(** C8 fails where no release falls in the ISO week of the target date:
    with an empty calendar, and with a release a week earlier, [get_bugs]
    raises the error of [utils.get_date_ymd(None)] and returns no report.
    On a target date before the release day of its week it returns the
    empty report. *)
Theorem get_bugs_without_release_raises :
  @cfw.get_bugs (freeze_world [] fixed_once) "2017-07-14" 57 ""
    = Err AssertionError
  /\ @cfw.get_bugs (freeze_world (release_on (d_0710 - 7 * day)) fixed_once)
       "2017-07-14" 57 "" = Err AssertionError
  /\ @cfw.get_bugs (freeze_world (release_on d_0712) fixed_once)
       "2017-07-10" 57 "" = Ok (57, []).
Proof. repeat split; vm_compute; reflexivity. Qed.

Lemma get_bugs_unmatched_witness :
  @cfw.get_bugs (freeze_world [] fixed_once) "2017-07-14" 57 ""
  = Err AssertionError.
Proof.
  apply (get_bugs_unmatched (freeze_world [] fixed_once) _ _ d_0714);
    [reflexivity| |reflexivity].
  intros ev t Hev. simpl in Hev. by apply elem_of_nil in Hev.
Defined.

(** ** Display names *)

(** ** The matcher consumes a prefix *)

Lemma rstar_prefix {A} (step : nat -> string -> Re.groups -> Re.cont -> option A) :
  (forall pos s g k a, step pos s g k = Some a ->
     exists pre s' g', s = pre ++ s'
       /\ k (pos + String.length pre)%nat s' g' = Some a) ->
  forall fuel pos s g k a, Re.rstar fuel step pos s g k = Some a ->
    exists pre s' g', s = pre ++ s'
      /\ k (pos + String.length pre)%nat s' g' = Some a.
Proof.
  intros Hstep fuel. induction fuel as [|fuel IH]; intros pos s g k a H.
  - exists "", s, g. simpl in *. by rewrite Nat.add_0_r.
  - simpl in H.
    destruct (step pos s g _) as [a'|] eqn:E.
    + injection H as ->.
      apply Hstep in E as (pre & s' & g' & -> & E).
      destruct (_ <? _)%nat; [|done].
      apply IH in E as (pre' & s'' & g'' & -> & E).
      exists (pre ++ pre'), s'', g''. split; [by rewrite app_assoc_str|].
      by rewrite length_app_str, Nat.add_assoc.
    + exists "", s, g. simpl. by rewrite Nat.add_0_r.
Qed.

Lemma rmatch_prefix {A} (r : regex) (pos : nat) (s : string) (g : Re.groups)
    (k : Re.cont) (a : A) :
  Re.rmatch r pos s g k = Some a ->
  exists pre s' g', s = pre ++ s'
    /\ k (pos + String.length pre)%nat s' g' = Some a.
Proof.
  revert pos s g k a.
  induction r as [|p|r1 IH1 r2 IH2|r1 IH1 r2 IH2|r IH|n r IH|];
    intros pos s g k a H; simpl in H.
  - exists "", s, g. simpl. by rewrite Nat.add_0_r.
  - destruct s as [|c s]; [done|]. destruct (p c); [|done].
    exists (String c ""), s, g. simpl. by rewrite Nat.add_1_r.
  - apply IH1 in H as (pre & s' & g' & -> & H).
    apply IH2 in H as (pre' & s'' & g'' & -> & H).
    exists (pre ++ pre'), s'', g''. split; [by rewrite app_assoc_str|].
    by rewrite length_app_str, Nat.add_assoc.
  - destruct (Re.rmatch r1 pos s g k) as [a'|] eqn:E.
    + injection H as ->. by apply IH1 in E.
    + by apply IH2 in H.
  - by apply (rstar_prefix _ IH) in H.
  - apply IH in H as (pre & s' & g' & -> & H). by eexists pre, s', _.
  - destruct (Nat.eqb pos 0); [|done].
    exists "", s, g. simpl. by rewrite Nat.add_0_r.
Qed.

Lemma take_app_length (pre s : string) :
  Str.take (String.length pre) (pre ++ s) = pre.
Proof.
  induction pre as [|c pre IH]; [by destruct s|].
  rewrite app_cons. cbn [String.length Str.take]. by f_equal.
Qed.

(** A match at [pos] is a prefix of the subject from there. *)
Lemma match_at_prefix (r : regex) (pos : nat) (s s' : string) (m : Re.mobj) :
  Re.match_at r pos s = Some (m, s') ->
  s = Re.m_group0 m ++ s'
  /\ Re.m_start m = pos
  /\ Re.m_end m = (pos + String.length (Re.m_group0 m))%nat.
Proof.
  unfold Re.match_at. intros H.
  apply rmatch_prefix in H as (pre & s'' & g' & -> & H).
  injection H as <- <-. simpl.
  replace (pos + String.length pre - pos)%nat with (String.length pre) by lia.
  by rewrite take_app_length.
Qed.

(** ** Substitution deletes characters *)

Lemma subseq_refl (s : string) : subseq s s.
Proof. induction s; [constructor|by apply subseq_keep]. Qed.

Lemma subseq_empty (s : string) : subseq "" s.
Proof. induction s; by constructor. Qed.

Lemma subseq_app (t1 s1 t2 s2 : string) :
  subseq t1 s1 -> subseq t2 s2 -> subseq (t1 ++ t2) (s1 ++ s2).
Proof.
  intros H1 H2.
  induction H1; rewrite ?app_cons;
    [done|by apply subseq_skip|by apply subseq_keep].
Qed.

Lemma subseq_trans (s1 s2 s3 : string) :
  subseq s1 s2 -> subseq s2 s3 -> subseq s1 s3.
Proof.
  intros H12 H23. revert s1 H12.
  induction H23 as [|c t s H IH|c t s H IH]; intros s1 H12.
  - done.
  - constructor. by apply IH.
  - inversion H12; subst; [apply subseq_skip|apply subseq_keep]; by apply IH.
Qed.

Lemma subseq_occurs (c : ascii) (t s : string) :
  subseq t s -> occurs c t = true -> occurs c s = true.
Proof.
  induction 1 as [|x t s H IH|x t s H IH]; simpl; [done|..].
  - intros Ht. rewrite IH by done. apply orb_true_r.
  - intros [->|Ht]%orb_true_iff; [done|]. rewrite IH by done. apply orb_true_r.
Qed.

Lemma subseq_encloses (o c : ascii) (t s : string) :
  subseq t s -> encloses o c t = true -> encloses o c s = true.
Proof.
  induction 1 as [|x t s H IH|x t s H IH]; simpl; [done|..].
  - intros Ht. rewrite IH by done. apply orb_true_r.
  - intros [[-> Ht]%andb_true_iff|Ht]%orb_true_iff.
    + by rewrite (subseq_occurs c t s).
    + rewrite IH by done. apply orb_true_r.
Qed.

Lemma sub_from_subseq (r : regex) (repl : Re.mobj -> string) :
  (forall m, subseq (repl m) (Re.m_group0 m)) ->
  forall fuel pos s, subseq (Re.sub_from fuel r repl pos s) s.
Proof.
  intros Hrepl fuel. induction fuel as [|fuel IH]; intros pos s; simpl.
  - apply subseq_refl.
  - assert (Hskip : subseq match s with
                           | "" => ""
                           | String c s' =>
                               String c (Re.sub_from fuel r repl (S pos) s')
                           end s).
    { destruct s; [constructor|]. apply subseq_keep, IH. }
    destruct (Re.match_at r pos s) as [[m s']|] eqn:E; [|done].
    apply match_at_prefix in E as (Hs & _ & Hend).
    destruct (Nat.eqb_spec (Re.m_end m) pos) as [He|He].
    + assert (Re.m_group0 m = "") as Hg.
      { destruct (Re.m_group0 m); [done|]. simpl in Hend. lia. }
      specialize (Hrepl m). rewrite Hg in Hrepl.
      apply (subseq_app _ "" _ s); [done|exact Hskip].
    + rewrite Hs. apply subseq_app; [apply Hrepl|apply IH].
Qed.

Lemma sub_empty_subseq (r : regex) (s : string) : subseq (Re.sub_empty r s) s.
Proof. apply sub_from_subseq. intros m. apply subseq_empty. Qed.

Lemma sub_repl_subseq (r : regex) (s : string) :
  subseq (Re.sub r cfw.repl s) s.
Proof.
  apply sub_from_subseq. intros m. unfold cfw.repl.
  destruct (Nat.eqb _ _); [apply subseq_refl|apply subseq_empty].
Qed.

Lemma lstrip_subseq (sp : ascii -> bool) (s : string) :
  subseq (Str.lstrip sp s) s.
Proof.
  induction s as [|c s IH]; simpl; [constructor|].
  destruct (sp c); [by constructor|apply subseq_refl].
Qed.

Lemma rstrip_subseq (sp : ascii -> bool) (s : string) :
  subseq (Str.rstrip sp s) s.
Proof.
  induction s as [|c s IH]; simpl; [constructor|].
  destruct (Str.rstrip sp s); [|by apply subseq_keep].
  destruct (sp c); [apply subseq_empty|]. apply subseq_keep, subseq_empty.
Qed.

Lemma strip_subseq (sp : ascii -> bool) (s : string) :
  subseq (Str.strip sp s) s.
Proof.
  eapply subseq_trans; [apply rstrip_subseq|apply lstrip_subseq].
Qed.

Lemma drop_subseq (n : nat) (s : string) : subseq (Str.drop n s) s.
Proof.
  revert s. induction n as [|n IH]; intros s; simpl; [apply subseq_refl|].
  destruct s; constructor. apply IH.
Qed.

(** ** The patterns of [get_better_name] *)

Lemma match_at_chr_nonempty (p : ascii -> bool) (r : regex) (pos : nat)
    (s s' : string) (m : Re.mobj) :
  Re.match_at (Cat (Cls p) r) pos s = Some (m, s') -> Re.m_end m <> pos.
Proof.
  unfold Re.match_at. simpl. destruct s as [|c s]; [done|].
  destruct (p c); [|done]. intros H.
  apply rmatch_prefix in H as (pre & s'' & g' & _ & H).
  injection H as <- _. simpl. lia.
Qed.

Lemma match_at_chr_head (c : ascii) (r : regex) (pos : nat) (x : ascii)
    (s : string) :
  x <> c -> Re.match_at (Cat (Re.chr c) r) pos (String x s) = None.
Proof.
  intros Hne. unfold Re.match_at. simpl.
  destruct (Ascii.eqb_spec c x); [congruence|done].
Qed.

Lemma match_at_chr_nil (c : ascii) (r : regex) (pos : nat) :
  Re.match_at (Cat (Re.chr c) r) pos "" = None.
Proof. done. Qed.

(** [[^c]*c] runs up to the first [c] *)
Lemma rstar_until {A} (c : ascii) (k : @Re.cont A) (fuel : nat) (t : string)
    (pos : nat) (g : Re.groups) :
  (String.length t <= fuel)%nat ->
  Re.rstar fuel (Re.rmatch (Re.none_of [c])) pos t g
    (fun p s g => Re.rmatch (Re.chr c) p s g k)
  = match after_run [c] t with
    | String _ rest => k (S (pos + String.length (run [c] t))) rest g
    | EmptyString => None
    end.
Proof.
  revert fuel pos. induction t as [|x t IH]; intros fuel pos Hfuel.
  - by destruct fuel.
  - destruct fuel as [|fuel]; [simpl in Hfuel; lia|].
    cbn [Re.rstar Re.rmatch Re.none_of Re.chr after_run run].
    destruct (existsb (Ascii.eqb x) [c]) eqn:Ex; cbn [negb].
    + simpl in Ex. rewrite orb_false_r in Ex.
      apply Ascii.eqb_eq in Ex as ->. rewrite Ascii.eqb_refl.
      cbn [String.length]. by rewrite Nat.add_0_r.
    + assert ((String.length t <? String.length (String x t))%nat = true) as ->.
      { apply Nat.ltb_lt. simpl. lia. }
      rewrite IH by (simpl in Hfuel; lia).
      cbn [String.length]. rewrite Nat.add_succ_r. cbn [Nat.add].
      simpl in Ex. rewrite orb_false_r in Ex.
      rewrite Ascii.eqb_sym, Ex.
      destruct (after_run [c] t) as [|y rest]; [done|by destruct (k _ _ _)].
Qed.

Lemma after_run_occurs (c : ascii) (t : string) :
  after_run [c] t = "" -> occurs c t = false.
Proof.
  induction t as [|x t IH]; simpl; [done|].
  rewrite orb_false_r. destruct (Ascii.eqb x c); [done|]. exact IH.
Qed.

(** A bracket pattern fails at an opening bracket only if no closing
    bracket follows. *)
Lemma bracket_fails (o c : ascii) (pos : nat) (t : string) :
  Re.match_at (bracket o c) pos (String o t) = None -> occurs c t = false.
Proof.
  unfold Re.match_at, bracket.
  cbn [Re.rmatch]. unfold Re.chr at 1. cbn [Re.rmatch].
  rewrite Ascii.eqb_refl, rstar_until by done.
  destruct (after_run [c] t) eqn:E; [intros _; by apply after_run_occurs|done].
Qed.

(** After [sub('', s)] with a bracket pattern no opening bracket is
    followed by a closing one. *)
Lemma sub_bracket_encloses (o c : ascii) (fuel pos : nat) (s : string) :
  (String.length s < fuel)%nat ->
  encloses o c (Re.sub_from fuel (bracket o c) (fun _ => "") pos s) = false.
Proof.
  revert pos s. induction fuel as [|fuel IH]; intros pos s Hfuel; [lia|].
  cbn [Re.sub_from].
  destruct (Re.match_at (bracket o c) pos s) as [[m s']|] eqn:E.
  - pose proof (match_at_chr_nonempty _ _ _ _ _ _ E) as Hne.
    apply match_at_prefix in E as (Hs & _ & Hend).
    rewrite (proj2 (Nat.eqb_neq _ _) Hne), app_empty_l.
    apply IH. rewrite Hs, length_app_str in Hfuel. lia.
  - destruct s as [|x s]; [done|]. simpl in Hfuel.
    cbn [encloses]. rewrite IH by lia. rewrite orb_false_r.
    destruct (Ascii.eqb_spec x o) as [->|]; [|done]. cbn [andb].
    apply bracket_fails in E.
    destruct (occurs c (Re.sub_from _ _ _ _ _)) eqn:Eo; [|done].
    apply (subseq_occurs c _ s) in Eo; [congruence|].
    apply sub_from_subseq. intros m. apply subseq_empty.
Qed.

Lemma sub_empty_bracket (o c : ascii) (s : string) :
  encloses o c (Re.sub_empty (bracket o c) s) = false.
Proof. apply sub_bracket_encloses. lia. Qed.

Lemma run_after_run (cs : list ascii) (t : string) :
  t = run cs t ++ after_run cs t.
Proof.
  induction t as [|x t IH]; simpl; [done|].
  destruct (existsb (Ascii.eqb x) cs); [done|]. rewrite app_cons. by f_equal.
Qed.

Lemma after_run_head (cs : list ascii) (t : string) (x : ascii) (r : string) :
  after_run cs t = String x r -> existsb (Ascii.eqb x) cs = true.
Proof.
  induction t as [|y t IH]; simpl; [done|].
  destruct (existsb (Ascii.eqb y) cs) eqn:E; [|exact IH].
  intros [= -> _]. exact E.
Qed.

Lemma occurs_app (c : ascii) (s t : string) :
  occurs c (s ++ t) = occurs c s || occurs c t.
Proof.
  induction s as [|x s IH]; [done|]. rewrite app_cons. simpl.
  by rewrite IH, orb_assoc.
Qed.

Lemma occurs_run (c : ascii) (t : string) : occurs c (run [c] t) = false.
Proof.
  induction t as [|x t IH]; simpl; [done|]. rewrite orb_false_r.
  destruct (Ascii.eqb x c) eqn:E; [done|]. simpl. by rewrite E.
Qed.

(** A greedy [[^cs]*] before an accepting continuation takes the longest
    run. *)
Lemma rstar_greedy {A} (cs : list ascii) (k : @Re.cont A) (fuel : nat)
    (t : string) (pos : nat) (g : Re.groups) :
  accepting k -> (String.length t <= fuel)%nat ->
  Re.rstar fuel (Re.rmatch (Re.none_of cs)) pos t g k
  = k (pos + String.length (run cs t))%nat (after_run cs t) g.
Proof.
  intros Hk. revert fuel pos. induction t as [|x t IH]; intros fuel pos Hfuel.
  - destruct fuel; simpl; by rewrite Nat.add_0_r.
  - destruct fuel as [|fuel]; [simpl in Hfuel; lia|].
    cbn [Re.rstar Re.rmatch Re.none_of after_run run].
    destruct (existsb (Ascii.eqb x) cs) eqn:Ex; cbn [negb].
    + cbn [String.length]. by rewrite Nat.add_0_r.
    + assert ((String.length t <? String.length (String x t))%nat = true) as ->.
      { apply Nat.ltb_lt. simpl. lia. }
      rewrite IH by (simpl in Hfuel; lia).
      cbn [String.length]. rewrite Nat.add_succ_r. cbn [Nat.add].
      destruct (k _ _ _) eqn:E; [done|]. by apply Hk in E.
Qed.

Lemma match_at_COL (pos : nat) (t : string) :
  Re.match_at COL_PAT pos (String ":" t)
  = Some (Re.mkMatch pos (S (pos + String.length (run [":"%char] t)))
            (String ":" (run [":"%char] t)) [],
          after_run [":"%char] t).
Proof.
  unfold Re.match_at, COL_PAT.
  cbn [Re.rmatch]. unfold Re.chr at 1. cbn [Re.rmatch].
  rewrite Ascii.eqb_refl, rstar_greedy by done.
  cbn [Nat.add]. do 3 f_equal.
  replace (S (pos + String.length (run [":"%char] t)) - pos)%nat
    with (S (String.length (run [":"%char] t))) by lia.
  cbn [Str.take]. f_equal.
  rewrite (run_after_run [":"%char] t) at 2. apply take_app_length.
Qed.

Lemma startswith_chr (x c : ascii) (s : string) :
  Str.startswith (String x s) (String c "") = Ascii.eqb c x.
Proof. cbn [Str.startswith]. apply andb_true_r. Qed.

Lemma match_at_COL_other (pos : nat) (s : string) :
  Str.startswith s ":" = false -> Re.match_at COL_PAT pos s = None.
Proof.
  destruct s as [|x s]; [done|]. rewrite startswith_chr.
  intros Hx. apply match_at_chr_head. intros ->. by rewrite Ascii.eqb_refl in Hx.
Qed.

(** Past the start of the subject, [COL_PAT.sub(repl, s)] leaves no
    colon. *)
Lemma sub_col_inner (fuel pos : nat) (s : string) :
  (String.length s < fuel)%nat -> pos <> O ->
  occurs ":" (Re.sub_from fuel COL_PAT cfw.repl pos s) = false.
Proof.
  revert pos s. induction fuel as [|fuel IH]; intros pos s Hfuel Hpos; [lia|].
  cbn [Re.sub_from].
  destruct s as [|x s]; [done|]. simpl in Hfuel.
  destruct (Ascii.eqb_spec x ":") as [->|Hx].
  - rewrite match_at_COL. cbn [Re.m_end].
    assert (Nat.eqb (S (pos + String.length (run [":"%char] s))) pos = false)
      as -> by (apply Nat.eqb_neq; lia).
    unfold cfw.repl at 1. cbn [Re.m_start].
    rewrite (proj2 (Nat.eqb_neq _ _) Hpos), app_empty_l.
    apply IH; [|lia].
    pose proof (f_equal String.length (run_after_run [":"%char] s)) as Hl.
    rewrite length_app_str in Hl. lia.
  - rewrite match_at_COL_other.
    2:{ rewrite startswith_chr. apply Ascii.eqb_neq. congruence. }
    cbn [occurs]. rewrite IH by lia. rewrite orb_false_r. by apply Ascii.eqb_neq.
Qed.

(** [COL_PAT.sub(repl, s)] leaves no colon past its first character. *)
Lemma sub_col (s : string) :
  occurs ":" (Str.drop 1 (Re.sub COL_PAT cfw.repl s)) = false.
Proof.
  unfold Re.sub. cbn [Re.sub_from].
  destruct s as [|x s]; [done|].
  destruct (Ascii.eqb_spec x ":") as [->|Hx].
  - rewrite match_at_COL. cbn [Re.m_end Nat.eqb]. unfold cfw.repl at 1.
    cbn [Re.m_start Re.m_group0 Nat.eqb]. rewrite app_cons. cbn [Str.drop].
    rewrite occurs_app, occurs_run. cbn [orb].
    apply sub_col_inner; [|lia].
    pose proof (f_equal String.length (run_after_run [":"%char] s)) as Hl.
    rewrite length_app_str in Hl. simpl. lia.
  - rewrite match_at_COL_other.
    2:{ rewrite startswith_chr. apply Ascii.eqb_neq. congruence. }
    cbn [Str.drop]. apply sub_col_inner; [simpl; lia|lia].
Qed.

Lemma rmatch_lit {A} (p : string) (pos : nat) (s : string) (g : Re.groups)
    (k : @Re.cont A) :
  Re.rmatch (Re.lit p) pos s g k
  = if Str.startswith s p
    then k (pos + String.length p)%nat (Str.drop (String.length p) s) g
    else None.
Proof.
  revert pos s. induction p as [|c p IH]; intros pos s.
  - simpl. by rewrite Nat.add_0_r.
  - cbn [Re.lit Re.rmatch]. unfold Re.chr. cbn [Re.rmatch].
    destruct s as [|x s]; [done|]. cbn [Str.startswith String.length Str.drop].
    destruct (Ascii.eqb c x); [|done]. cbn [andb].
    by rewrite IH, Nat.add_succ_r.
Qed.

Lemma match_at_UTC (pos : nat) (s : string) :
  Re.match_at UTC_PAT pos s
  = if Str.startswith s "UTC+"
    then
      let e := (pos + 4 + String.length (run [" "%char; tab] (Str.drop 4 s)))%nat in
      Some (Re.mkMatch pos e (Str.take (e - pos) s) [],
            after_run [" "%char; tab] (Str.drop 4 s))
    else None.
Proof.
  unfold Re.match_at, UTC_PAT. cbn [Re.rmatch]. rewrite rmatch_lit.
  destruct (Str.startswith s "UTC+"); [|done].
  cbn [Re.rmatch]. rewrite rstar_greedy; [done|done|].
  pose proof (drop_subseq 4 s) as H. clear -H.
  induction H; simpl in *; lia.
Qed.

(** [UTC_PAT.sub('', s)] leaves no "UTC+", and starts with a word only if
    [s] starts with it. *)
Lemma sub_utc (fuel pos : nat) (s : string) :
  (String.length s < fuel)%nat ->
  let out := Re.sub_from fuel UTC_PAT (fun _ => "") pos s in
  (forall p, after_run [" "%char; tab] p = "" ->
     Str.startswith out p = true -> Str.startswith s p = true)
  /\ Str.contains "UTC+" out = false.
Proof.
  revert pos s. induction fuel as [|fuel IH]; intros pos s Hfuel; [lia|].
  cbn [Re.sub_from]. rewrite match_at_UTC.
  destruct (Str.startswith s "UTC+") eqn:Es.
  - cbv zeta. cbn [Re.m_end].
    assert (Nat.eqb (pos + 4 + String.length
                       (run [" "%char; tab] (Str.drop 4 s))) pos = false)
      as -> by (apply Nat.eqb_neq; lia).
    rewrite app_empty_l.
    set (s' := after_run [" "%char; tab] (Str.drop 4 s)).
    assert (Hlen : (String.length s' < fuel)%nat).
    { apply startswith_spec in Es as [post ->].
      change (Str.drop 4 ("UTC+" ++ post)) with post in s'.
      unfold s'. rewrite (run_after_run [" "%char; tab] post) in Hfuel.
      rewrite !length_app_str in Hfuel. simpl in Hfuel. lia. }
    destruct (IH (pos + 4 + String.length
                    (run [" "%char; tab] (Str.drop 4 s)))%nat s' Hlen)
      as [HI HII].
    split; [|exact HII].
    intros [|y p] Hp Hout; [done|].
    apply HI in Hout; [|done].
    destruct s' as [|x r] eqn:E; [done|].
    apply after_run_head in E.
    cbn [Str.startswith] in Hout. apply andb_true_iff in Hout as [Hy _].
    apply Ascii.eqb_eq in Hy as ->.
    cbn [after_run] in Hp. by rewrite E in Hp.
  - destruct s as [|x s].
    { split; [by intros [|y p]|done]. }
    simpl in Hfuel.
    destruct (IH (S pos) s ltac:(lia)) as [HI HII].
    assert (HI' : forall p, after_run [" "%char; tab] p = "" ->
              Str.startswith
                (String x (Re.sub_from fuel UTC_PAT (fun _ => "") (S pos) s)) p
              = true -> Str.startswith (String x s) p = true).
    { intros [|y p] Hp Hout; [done|].
      cbn [Str.startswith] in *. apply andb_true_iff in Hout as [-> Hout].
      cbn [andb]. apply HI; [|done].
      cbn [after_run] in Hp.
      by destruct (existsb (Ascii.eqb y) [" "%char; tab]). }
    split; [exact HI'|].
    rewrite contains_eq, HII, orb_false_r.
    destruct (Str.startswith (String x (Re.sub_from _ _ _ _ _)) "UTC+") eqn:E;
      [|done].
    apply HI' in E; [congruence|done].
Qed.

Lemma occurs_intro (c : ascii) (a b : string) :
  occurs c (a ++ String c b) = true.
Proof.
  rewrite occurs_app. cbn [occurs]. rewrite Ascii.eqb_refl. apply orb_true_r.
Qed.

Lemma encloses_intro (o c : ascii) (a b d : string) :
  encloses o c (a ++ String o (b ++ String c d)) = true.
Proof.
  induction a as [|x a IH].
  - rewrite app_empty_l. cbn [encloses].
    by rewrite Ascii.eqb_refl, occurs_intro.
  - rewrite app_cons. cbn [encloses]. rewrite IH. apply orb_true_r.
Qed.

Lemma subseq_drop1 (t s : string) :
  subseq t s -> subseq (Str.drop 1 t) (Str.drop 1 s).
Proof.
  intros [|c t' s' H|c t' s' H]; cbn [Str.drop]; [constructor| |done].
  eapply subseq_trans; [apply (drop_subseq 1)|done].
Qed.

Lemma lstrip_suffix (sp : ascii -> bool) (s : string) :
  exists u, s = u ++ Str.lstrip sp s.
Proof.
  induction s as [|c s [u IH]]; [by exists ""|]. simpl.
  destruct (sp c); [|by exists ""].
  exists (String c u). rewrite app_cons. by f_equal.
Qed.

Lemma rstrip_prefix (sp : ascii -> bool) (s : string) :
  exists u, s = Str.rstrip sp s ++ u.
Proof.
  induction s as [|c s [u IH]]; [by exists ""|]. simpl.
  destruct (Str.rstrip sp s) as [|y t].
  - rewrite app_empty_l in IH. subst u.
    destruct (sp c); [by exists (String c s)|by exists s].
  - exists u. rewrite app_cons. by f_equal.
Qed.

Lemma drop_suffix (n : nat) (s : string) : exists u, s = u ++ Str.drop n s.
Proof.
  revert s. induction n as [|n IH]; intros s; [by exists ""|].
  destruct s as [|c s]; [by exists ""|]. simpl.
  destruct (IH s) as [u Hu]. exists (String c u). rewrite app_cons. by f_equal.
Qed.

Lemma contains_inside (p u v s : string) :
  Str.contains p s = true -> Str.contains p (u ++ s ++ v) = true.
Proof.
  rewrite !contains_spec. intros (pre & post & ->).
  exists (u ++ pre), (post ++ v). by rewrite !app_assoc_str.
Qed.

(** What [get_better_name] does to a name that does not start with
    "Nobody;" *)
Lemma get_better_name_other (name : string) :
  Str.startswith name "Nobody;" = false ->
  let r := cfw.get_better_name name in
  subseq r name
  /\ encloses "(" ")" r = false
  /\ encloses "[" "]" r = false
  /\ encloses "<" ">" r = false
  /\ Str.contains "UTC+" r = false
  /\ occurs ":" r = false.
Proof.
  intros Hn. unfold cfw.get_better_name. rewrite Hn. cbv zeta.
  set (s1 := Re.sub_empty PAR_PAT name).
  set (s2 := Re.sub_empty BRA_PAT s1).
  set (s3 := Re.sub_empty DIA_PAT s2).
  set (s4 := Re.sub COL_PAT cfw.repl s3).
  set (s5 := Re.sub_empty UTC_PAT s4).
  set (s6 := Str.strip Str.isspace s5).
  set (r := if Str.startswith s6 ":" then Str.drop 1 s6 else s6).
  assert (H1 : subseq s1 name) by apply sub_empty_subseq.
  assert (H2 : subseq s2 s1) by apply sub_empty_subseq.
  assert (H3 : subseq s3 s2) by apply sub_empty_subseq.
  assert (H4 : subseq s4 s3) by apply sub_repl_subseq.
  assert (H5 : subseq s5 s4) by apply sub_empty_subseq.
  assert (H6 : subseq s6 s5) by apply strip_subseq.
  assert (H7 : subseq r s6).
  { unfold r. destruct (Str.startswith s6 ":");
      [apply drop_subseq|apply subseq_refl]. }
  assert (Hr3 : subseq r s3) by eauto 6 using subseq_trans.
  assert (Hr2 : subseq r s2) by eauto using subseq_trans.
  assert (Hr1 : subseq r s1) by eauto using subseq_trans.
  split; [eauto using subseq_trans|].
  split.
  { destruct (encloses "(" ")" r) eqn:E; [|done].
    apply (subseq_encloses _ _ _ _ Hr1) in E.
    assert (Hb : encloses "(" ")" s1 = false)
      by exact (sub_empty_bracket "(" ")" name).
    congruence. }
  split.
  { destruct (encloses "[" "]" r) eqn:E; [|done].
    apply (subseq_encloses _ _ _ _ Hr2) in E.
    assert (Hb : encloses "[" "]" s2 = false)
      by exact (sub_empty_bracket "[" "]" s1).
    congruence. }
  split.
  { destruct (encloses "<" ">" r) eqn:E; [|done].
    apply (subseq_encloses _ _ _ _ Hr3) in E.
    assert (Hb : encloses "<" ">" s3 = false)
      by exact (sub_empty_bracket "<" ">" s2).
    congruence. }
  split.
  - destruct (Str.contains "UTC+" r) eqn:E; [|done].
    assert (Str.contains "UTC+" s5 = true); [|].
    2:{ destruct (sub_utc (S (String.length s4)) 0 s4) as [_ HU]; [lia|].
        unfold s5, Re.sub_empty, Re.sub in H. congruence. }
    destruct (lstrip_suffix Str.isspace s5) as [u Hu].
    destruct (rstrip_prefix Str.isspace (Str.lstrip Str.isspace s5))
      as [v Hv].
    fold (Str.strip Str.isspace s5) in Hv. fold s6 in Hv.
    assert (Str.contains "UTC+" s6 = true) as E6.
    { unfold r in E. destruct (Str.startswith s6 ":"); [|done].
      destruct (drop_suffix 1 s6) as [w Hw]. rewrite Hw.
      rewrite <- (app_empty_r (Str.drop 1 s6)). by apply contains_inside. }
    rewrite Hu, Hv. by apply contains_inside.
  - assert (Hc : occurs ":" (Str.drop 1 s6) = false).
    { destruct (occurs ":" (Str.drop 1 s6)) eqn:E; [|done].
      apply (subseq_occurs _ _ (Str.drop 1 s4)) in E.
      - assert (occurs ":" (Str.drop 1 s4) = false) by exact (sub_col s3).
        congruence.
      - apply subseq_drop1. eauto using subseq_trans. }
    unfold r. destruct s6 as [|x s6']; [done|].
    rewrite startswith_chr. cbn [Str.drop] in Hc.
    destruct (Ascii.eqb ":" x) eqn:Ex; [done|].
    cbn [occurs]. by rewrite Ascii.eqb_sym, Ex, Hc.
Qed.

(** ** The cleaning, pass by pass *)

Lemma match_at_bracket (o c : ascii) (pos : nat) (s : string) :
  match enclosed o c s with
  | Some rest =>
      exists m, Re.match_at (bracket o c) pos s = Some (m, rest)
                /\ Re.m_end m <> pos
  | None => Re.match_at (bracket o c) pos s = None
  end.
Proof.
  destruct s as [|x t]; [exact (match_at_chr_nil _ _ _)|]. unfold enclosed.
  destruct (Ascii.eqb_spec x o) as [->|Hx].
  - assert (E : Re.match_at (bracket o c) pos (String o t)
                = match after_run [c] t with
                  | String _ rest =>
                      let e := S (S pos + String.length (run [c] t)) in
                      Some (Re.mkMatch pos e (Str.take (e - pos) (String o t))
                              [], rest)
                  | EmptyString => None
                  end).
    { unfold Re.match_at, bracket.
      cbn [Re.rmatch]. unfold Re.chr at 1. cbn [Re.rmatch].
      rewrite Ascii.eqb_refl, rstar_until by done.
      by destruct (after_run [c] t). }
    rewrite E. destruct (after_run [c] t) as [|y rest]; [done|].
    eexists. split; [reflexivity|]. simpl. lia.
  - by apply match_at_chr_head.
Qed.

Lemma match_at_utc_offset (pos : nat) (s : string) :
  match utc_offset s with
  | Some rest =>
      exists m, Re.match_at UTC_PAT pos s = Some (m, rest)
                /\ Re.m_end m <> pos
  | None => Re.match_at UTC_PAT pos s = None
  end.
Proof.
  unfold utc_offset. rewrite match_at_UTC.
  destruct (Str.startswith s "UTC+"); [|done].
  eexists. split; [reflexivity|]. simpl. lia.
Qed.

(** [r.sub('', s)] cuts what [ann] finds when [ann] tells where [r]
    matches *)
Lemma sub_from_without (r : regex) (ann : string -> option string) :
  (forall pos s,
     match ann s with
     | Some rest =>
         exists m, Re.match_at r pos s = Some (m, rest) /\ Re.m_end m <> pos
     | None => Re.match_at r pos s = None
     end) ->
  forall fuel pos s,
    Re.sub_from fuel r (fun _ => "") pos s = without fuel ann s.
Proof.
  intros Hann. induction fuel as [|fuel IH]; intros pos s; [done|].
  cbn [Re.sub_from without]. specialize (Hann pos s).
  destruct (ann s) as [rest|].
  - destruct Hann as (m & -> & Hend).
    rewrite (proj2 (Nat.eqb_neq _ _) Hend), app_empty_l. apply IH.
  - rewrite Hann. destruct s as [|x t]; [done|]. by rewrite IH.
Qed.

Lemma sub_empty_cut (r : regex) (ann : string -> option string) (s : string) :
  (forall pos s,
     match ann s with
     | Some rest =>
         exists m, Re.match_at r pos s = Some (m, rest) /\ Re.m_end m <> pos
     | None => Re.match_at r pos s = None
     end) ->
  Re.sub_empty r s = cut ann s.
Proof. intros H. by apply sub_from_without. Qed.

Lemma run_after_run_nil (c : ascii) (t : string) :
  run [c] (after_run [c] t) = "".
Proof.
  destruct (after_run [c] t) as [|y rest] eqn:E; [done|].
  apply after_run_head in E. cbn [run]. by rewrite E.
Qed.

Lemma length_after_run (cs : list ascii) (t : string) :
  (String.length (after_run cs t) <= String.length t)%nat.
Proof.
  rewrite (run_after_run cs t) at 2. rewrite length_app_str. lia.
Qed.

(** Past the start of the subject, [COL_PAT.sub(repl, s)] keeps what comes
    before the first colon. *)
Lemma sub_col_run (fuel pos : nat) (s : string) :
  (String.length s < fuel)%nat -> pos <> O ->
  Re.sub_from fuel COL_PAT cfw.repl pos s = run [":"%char] s.
Proof.
  revert pos s. induction fuel as [|fuel IH]; intros pos s Hfuel Hpos; [lia|].
  cbn [Re.sub_from].
  destruct s as [|x s]; [done|]. simpl in Hfuel.
  destruct (Ascii.eqb_spec x ":") as [->|Hx].
  - rewrite match_at_COL. cbn [Re.m_end].
    assert (Nat.eqb (S (pos + String.length (run [":"%char] s))) pos = false)
      as -> by (apply Nat.eqb_neq; lia).
    unfold cfw.repl at 1. cbn [Re.m_start].
    rewrite (proj2 (Nat.eqb_neq _ _) Hpos), app_empty_l.
    rewrite IH; [|pose proof (length_after_run [":"%char] s); lia|lia].
    by rewrite run_after_run_nil.
  - rewrite match_at_COL_other.
    2:{ rewrite startswith_chr. apply Ascii.eqb_neq. congruence. }
    rewrite IH by lia. cbn [run existsb]. rewrite orb_false_r.
    by rewrite (proj2 (Ascii.eqb_neq _ _) Hx).
Qed.

Lemma sub_col_cut (s : string) : Re.sub COL_PAT cfw.repl s = cut_colon s.
Proof.
  unfold Re.sub, cut_colon. cbn [Re.sub_from].
  destruct s as [|x s]; [done|].
  destruct (Ascii.eqb_spec x ":") as [->|Hx].
  - rewrite match_at_COL. cbn [Re.m_end Nat.eqb]. unfold cfw.repl at 1.
    cbn [Re.m_start Re.m_group0 Nat.eqb]. rewrite app_cons. f_equal.
    rewrite sub_col_run;
      [|pose proof (length_after_run [":"%char] s); simpl; lia|lia].
    by rewrite run_after_run_nil, app_empty_r.
  - rewrite match_at_COL_other.
    2:{ rewrite startswith_chr. apply Ascii.eqb_neq. congruence. }
    rewrite sub_col_run by (simpl; lia). cbn [run existsb].
    rewrite orb_false_r. by rewrite (proj2 (Ascii.eqb_neq _ _) Hx).
Qed.

Lemma get_better_name_cleaned (name : string) :
  Str.startswith name "Nobody;" = false ->
  cfw.get_better_name name = cleaned name.
Proof.
  intros Hn. unfold cfw.get_better_name, cleaned. rewrite Hn. cbv zeta.
  rewrite (sub_empty_cut PAR_PAT (enclosed "(" ")"))
    by exact (match_at_bracket "(" ")").
  rewrite (sub_empty_cut BRA_PAT (enclosed "[" "]"))
    by exact (match_at_bracket "[" "]").
  rewrite (sub_empty_cut DIA_PAT (enclosed "<" ">"))
    by exact (match_at_bracket "<" ">").
  rewrite sub_col_cut.
  by rewrite (sub_empty_cut UTC_PAT utc_offset) by exact match_at_utc_offset.
Qed.

Lemma get_better_name_nobody (rest : string) :
  cfw.get_better_name ("Nobody;" ++ rest) = "Nobody".
Proof.
  unfold cfw.get_better_name.
  assert (Str.startswith ("Nobody;" ++ rest) "Nobody;" = true) as ->; [|done].
  apply startswith_spec. by exists rest.
Qed.

(** C6, as amended. [get_better_name] turns "Jane Doe [:jdoe]" into
    "Jane Doe", "J. Doe (UTC+2)" into "J. Doe", and every name that starts
    with "Nobody;" into "Nobody". From any other name it removes, pass by
    pass and from left to right, every annotation in parentheses (from an
    opening parenthesis through the next closing one), in square brackets
    and in angle brackets, everything from the first colon that is not the
    first character on, every offset written "UTC+" with the characters
    up to the next space or tab, then the white space around the name and
    a colon that starts it; every other character is kept. So it only
    deletes characters, and in what it returns no opening parenthesis,
    square bracket or angle bracket is followed by its closing one, and
    neither "UTC+" nor a colon occurs. *)
Theorem get_better_name_strips :
  cfw.get_better_name "Jane Doe [:jdoe]" = "Jane Doe"
  /\ cfw.get_better_name "J. Doe (UTC+2)" = "J. Doe"
  /\ cfw.get_better_name "Nobody; needinfo" = "Nobody"
  /\ (forall rest, cfw.get_better_name ("Nobody;" ++ rest) = "Nobody")
  /\ (forall name, Str.startswith name "Nobody;" = false ->
        let r := cfw.get_better_name name in
        r = cleaned name
        /\ subseq r name
        /\ ~ (exists a b d, r = a ++ "(" ++ b ++ ")" ++ d)
        /\ ~ (exists a b d, r = a ++ "[" ++ b ++ "]" ++ d)
        /\ ~ (exists a b d, r = a ++ "<" ++ b ++ ">" ++ d)
        /\ ~ (exists a b, r = a ++ "UTC+" ++ b)
        /\ ~ (exists a b, r = a ++ ":" ++ b)).
Proof.
  split; [vm_compute; reflexivity|].
  split; [vm_compute; reflexivity|].
  split; [vm_compute; reflexivity|].
  split; [apply get_better_name_nobody|].
  intros name Hn.
  destruct (get_better_name_other name Hn) as (Hsub & Hp & Hb & Hd & Hu & Hc).
  cbv zeta. split; [by apply get_better_name_cleaned|].
  split; [exact Hsub|].
  split; [intros (a & b & d & E); rewrite E in Hp;
          change (a ++ "(" ++ b ++ ")" ++ d)
            with (a ++ String "(" (b ++ String ")" d)) in Hp;
          by rewrite encloses_intro in Hp|].
  split; [intros (a & b & d & E); rewrite E in Hb;
          change (a ++ "[" ++ b ++ "]" ++ d)
            with (a ++ String "[" (b ++ String "]" d)) in Hb;
          by rewrite encloses_intro in Hb|].
  split; [intros (a & b & d & E); rewrite E in Hd;
          change (a ++ "<" ++ b ++ ">" ++ d)
            with (a ++ String "<" (b ++ String ">" d)) in Hd;
          by rewrite encloses_intro in Hd|].
  split.
  - intros Hex. apply contains_spec in Hex. congruence.
  - intros (a & b & E). rewrite E in Hc.
    change (a ++ ":" ++ b) with (a ++ String ":" b) in Hc.
    by rewrite occurs_intro in Hc.
Qed.

Lemma get_better_name_strips_witness :
  cfw.get_better_name
    ":x Jane (Doe <j@d.org> (a) b) UTC-12 z UTC+1:foo:bar "
  = cleaned ":x Jane (Doe <j@d.org> (a) b) UTC-12 z UTC+1:foo:bar "
  /\ cleaned ":x Jane (Doe <j@d.org> (a) b) UTC-12 z UTC+1:foo:bar "
     = "x Jane  b) UTC-12 z"
  /\ subseq "x Jane  b) UTC-12 z"
            ":x Jane (Doe <j@d.org> (a) b) UTC-12 z UTC+1:foo:bar "
  /\ ~ (exists a b, "x Jane  b) UTC-12 z" = a ++ ":" ++ b).
Proof.
  destruct get_better_name_strips as (_ & _ & _ & _ & H).
  specialize (H ":x Jane (Doe <j@d.org> (a) b) UTC-12 z UTC+1:foo:bar "
                eq_refl).
  assert (E : cfw.get_better_name
                ":x Jane (Doe <j@d.org> (a) b) UTC-12 z UTC+1:foo:bar "
              = "x Jane  b) UTC-12 z") by (vm_compute; reflexivity).
  cbv zeta in H. destruct H as (Hcl & Hsub & _ & _ & _ & _ & Hc).
  split; [exact Hcl|]. rewrite E in Hsub, Hc, Hcl.
  split; [by symmetry|]. by split.
Defined.

(** C6, as stated, fails on an offset written with a minus sign: only
    "UTC+" starts what [UTC_PAT] removes. *)
Lemma get_better_name_keeps_negative_offset :
  cfw.get_better_name "J. Doe UTC-5" = "J. Doe UTC-5"
  /\ Str.contains "UTC-5" (cfw.get_better_name "J. Doe UTC-5") = true.
Proof. split; vm_compute; reflexivity. Qed.

(** * Further properties *)

(** ** Components and white-board tags *)

Lemma contains_chr (c : ascii) (s : string) :
  Str.contains (String c "") s = occurs c s.
Proof.
  induction s as [|x s IH]; [done|].
  rewrite contains_eq, startswith_chr, IH. cbn [occurs].
  by rewrite Ascii.eqb_sym.
Qed.

Lemma index_split (c : ascii) (s : string) :
  occurs c s = true ->
  s = Str.take (Str.index c s) s ++ String c (Str.drop (Str.index c s + 1) s)
  /\ occurs c (Str.take (Str.index c s) s) = false.
Proof.
  induction s as [|x s IH]; [done|]. cbn [occurs Str.index].
  destruct (Ascii.eqb_spec x c) as [->|Hx]; cbn [orb].
  - intros _. by destruct s.
  - intros Hs. destruct (IH Hs) as [IH1 IH2].
    cbn [Nat.add Str.take Str.drop occurs]. rewrite app_cons, <- IH1, IH2.
    split; [done|]. rewrite orb_false_r. by apply Ascii.eqb_neq.
Qed.

(** X1. [decompose] splits a component name at its first colon: a name with
    a colon is its first part, a colon and its second part, and the first
    part has no colon; a name without a colon comes back with an empty
    second part. *)
Theorem decompose_join (comp : string) :
  (occurs ":" comp = true ->
     comp = (cfw.decompose comp).1 ++ ":" ++ (cfw.decompose comp).2
     /\ occurs ":" (cfw.decompose comp).1 = false)
  /\ (occurs ":" comp = false -> cfw.decompose comp = (comp, "")).
Proof.
  unfold cfw.decompose. rewrite contains_chr. split; intros H; rewrite H; [|done].
  cbn [fst snd]. by apply index_split.
Qed.

Lemma decompose_join_witness :
  "DOM: Core & HTML"
  = (cfw.decompose "DOM: Core & HTML").1 ++ ":"
    ++ (cfw.decompose "DOM: Core & HTML").2
  /\ cfw.decompose "General" = ("General", "").
Proof.
  destruct (decompose_join "DOM: Core & HTML") as [H _].
  destruct (decompose_join "General") as [_ H'].
  split; [by apply H|by apply H'].
Defined.

Lemma split_nonempty (sep : ascii) (s : string) : Str.split sep s <> [].
Proof.
  induction s as [|c s IH]; [done|]. simpl.
  destruct (Ascii.eqb c sep); [done|]. by destruct (Str.split sep s).
Qed.

Lemma split_no_sep (sep : ascii) (s : string) :
  occurs sep s = false -> Str.split sep s = [s].
Proof.
  induction s as [|c s IH]; [done|]. cbn [occurs Str.split].
  intros [Hc Hs]%orb_false_iff. rewrite Hc, IH by done. done.
Qed.

Lemma split_app (sep : ascii) (a b : string) :
  occurs sep a = false ->
  Str.split sep (a ++ String sep b) = a :: Str.split sep b.
Proof.
  induction a as [|c a IH]; intros Ha.
  - rewrite app_empty_l. cbn [Str.split]. by rewrite Ascii.eqb_refl.
  - cbn [occurs] in Ha. apply orb_false_iff in Ha as [Hc Ha].
    rewrite app_cons. cbn [Str.split]. by rewrite Hc, IH.
Qed.

Lemma split_concat (sep : ascii) (x : string) (l : list string) :
  Forall (fun y => occurs sep y = false) (x :: l) ->
  Str.split sep (String.concat (String sep "") (x :: l)) = x :: l.
Proof.
  revert x. induction l as [|y l IH]; intros x Hall.
  - apply Forall_cons in Hall as [Hx _]. simpl. by apply split_no_sep.
  - apply Forall_cons in Hall as [Hx Hall].
    change (String.concat (String sep "") (x :: y :: l))
      with (x ++ String sep (String.concat (String sep "") (y :: l))).
    rewrite split_app by done. f_equal. by apply IH.
Qed.

(** X2. For a non-empty list of keywords none of which holds a comma,
    splitting the string of [display_list] at the commas gives the list
    back. *)
Theorem display_list_split (k : string) (l : list string) :
  Forall (fun y => occurs "," y = false) (k :: l) ->
  Str.split "," (cfw.display_list (inl (k :: l))) = k :: l.
Proof. apply split_concat. Qed.

Lemma display_list_split_witness :
  Str.split "," (cfw.display_list (inl ["crash"; "regression"; "topcrash"]))
  = ["crash"; "regression"; "topcrash"].
Proof.
  apply display_list_split. repeat constructor.
Defined.

Lemma concat_split (sep : ascii) (s : string) :
  String.concat (String sep "") (Str.split sep s) = s.
Proof.
  induction s as [|c s IH]; [done|]. cbn [Str.split].
  destruct (Ascii.eqb_spec c sep) as [->|Hc].
  - pose proof (split_nonempty sep s) as Hne.
    destruct (Str.split sep s) as [|h t]; [done|].
    cbn [String.concat] in *. rewrite app_empty_l, app_cons, app_empty_l.
    by f_equal.
  - pose proof (split_nonempty sep s) as Hne.
    destruct (Str.split sep s) as [|h t]; [done|].
    destruct t as [|h' t]; cbn [String.concat] in *; [by f_equal|].
    rewrite app_cons. by f_equal.
Qed.

Lemma split_app_gen (sep : ascii) (a b : string) :
  Str.split sep (a ++ String sep b) = (Str.split sep a ++ Str.split sep b)%list.
Proof.
  induction a as [|c a IH].
  - rewrite app_empty_l. cbn [Str.split]. by rewrite Ascii.eqb_refl.
  - rewrite app_cons. cbn [Str.split]. rewrite IH.
    destruct (Ascii.eqb c sep); [done|].
    pose proof (split_nonempty sep a) as Hne.
    by destruct (Str.split sep a).
Qed.

(** X3. [is_qf_p1] reads a white-board token by token: on two white-boards
    joined by a comma it is true exactly when it is true on one of them. *)
Theorem is_qf_p1_comma (a b : string) :
  cfw.is_qf_p1 (a ++ "," ++ b) = cfw.is_qf_p1 a || cfw.is_qf_p1 b.
Proof.
  unfold cfw.is_qf_p1.
  change (a ++ "," ++ b) with (a ++ String "," b).
  by rewrite split_app_gen, existsb_app.
Qed.

(** ** The primary fetch *)

Lemma bug_handler_lookup (O : Outside) (raw : RawBug)
    (data : gmap Z BugRecord) (id : Z) (b : BugRecord) :
  cfw.bug_handler raw data !! id = Some b ->
  data !! id = Some b \/ (id = r_id raw /\ kept O raw b).
Proof.
  unfold cfw.bug_handler.
  destruct (decide (r_product raw ∈ products_blacklist)); [by left|].
  destruct (decide (r_component raw ∈ components_blacklist)); [by left|].
  destruct (cfw.decompose (r_component raw)) as [first second] eqn:E.
  rewrite lookup_insert. case_decide as Hid; [|by left].
  intros [= <-]. right. split; [done|]. unfold kept. by rewrite E.
Qed.

(** X4. Every record stored once [bug_handler] has run over the bugs of a
    search comes from a bug of the search with that id whose product and
    component are on neither deny list; it has the product and component of
    that bug, the component decomposed, an empty landing map, and no
    softvision, patches or landed_patches yet. *)
Theorem bug_handler_denylist (O : Outside) (bugs : list RawBug) (id : Z)
    (b : BugRecord) :
  fold_left (fun data bug => cfw.bug_handler bug data) bugs ∅ !! id = Some b ->
  exists raw, raw ∈ bugs /\ r_id raw = id /\ kept O raw b.
Proof.
  cut (forall data : gmap Z BugRecord,
         fold_left (fun data bug => cfw.bug_handler bug data) bugs data !! id
         = Some b ->
         data !! id = Some b
         \/ exists raw, raw ∈ bugs /\ r_id raw = id /\ kept O raw b).
  { intros H Hb. by destruct (H ∅ Hb) as [?|?]. }
  induction bugs as [|raw bugs IH]; intros data Hb; [by left|].
  simpl in Hb. apply IH in Hb as [Hb|(raw' & Hin & Hid & Hk)].
  - apply bug_handler_lookup in Hb as [Hb|[-> Hk]]; [by left|].
    right. exists raw. split; [by left|done].
  - right. exists raw'. split; [by right|done].
Qed.

Lemma bug_handler_denylist_witness :
  exists raw,
    raw ∈ [denied_product; raw77; denied_component]
    /\ r_id raw = 77 /\ kept deny_world raw record77.
Proof.
  apply (bug_handler_denylist deny_world
           [denied_product; raw77; denied_component] 77 record77).
  vm_compute. reflexivity.
Defined.

(** ** Secondary enrichment *)

Lemma comment_fold_dom (revisions : list string) (bugid : string)
    (d : gmap string LandingEntry) :
  dom (fold_left (fun d revision => <[revision := mkLand None false bugid]> d)
                 revisions d)
  = list_to_set revisions ∪ dom d.
Proof.
  revert d. induction revisions as [|r revisions IH]; intros d; simpl.
  - set_solver.
  - rewrite IH, dom_insert_L. set_solver.
Qed.

(** X5. For a key that reads as the id of a stored bug, [comment_handler]
    replaces the landing map of that bug and nothing else; the keys of the
    new map are the revisions of the landing comments, and every entry has
    no date, is not backed out and carries the key as bug id. *)
Theorem comment_handler_land (revisions : list string) (bugid : string)
    (data : gmap Z BugRecord) (n : Z) (b : BugRecord) :
  Str.int bugid = Ok n -> data !! n = Some b ->
  exists land',
    cfw.comment_handler revisions bugid data
    = Ok (<[n := set_land land' b]> data)
    /\ dom land' = list_to_set revisions
    /\ forall rev i, land' !! rev = Some i -> i = mkLand None false bugid.
Proof.
  intros Hn Hb. eexists. split; [|split].
  - unfold cfw.comment_handler, getitem. rewrite Hn. simpl. by rewrite Hb.
  - rewrite comment_fold_dom. set_solver.
  - intros rev i.
    generalize (∅ : gmap string LandingEntry)
               (lookup_empty (M:=gmap string) (A:=LandingEntry)).
    intros d Hd.
    assert (Hall : forall r e, d !! r = Some e -> e = mkLand None false bugid)
      by (intros r e; by rewrite Hd).
    clear Hd. revert d Hall.
    induction revisions as [|r0 revisions IH]; intros d Hall; simpl;
      [apply Hall|].
    apply IH. intros r e. rewrite lookup_insert.
    case_decide; [by intros [= <-]|apply Hall].
Qed.

Lemma comment_handler_land_witness :
  exists land',
    cfw.comment_handler ["aaa"; "bbb"; "aaa"] "77" {[77 := bug77]}
    = Ok (<[77 := set_land land' bug77]> {[77 := bug77]})
    /\ dom land' = list_to_set ["aaa"; "bbb"; "aaa"]
    /\ forall rev i, land' !! rev = Some i -> i = mkLand None false "77".
Proof.
  apply (comment_handler_land ["aaa"; "bbb"; "aaa"] "77" {[77 := bug77]} 77
           bug77); reflexivity.
Defined.

(** X6. [comment_handler] raises KeyError or ValueError when the key is not
    the id of a stored bug. *)
Theorem comment_handler_unknown (revisions : list string) (bugid : string)
    (data : gmap Z BugRecord) :
  (forall n, Str.int bugid = Ok n -> data !! n = None) ->
  exists e, cfw.comment_handler revisions bugid data = Err e
            /\ (e = KeyError \/ e = ValueError).
Proof.
  intros H. unfold cfw.comment_handler, getitem.
  destruct (Str.int bugid) as [n|e] eqn:E; simpl.
  - rewrite (H n eq_refl). simpl. eauto.
  - exists e. split; [done|]. unfold Str.int in E.
    destruct (match Str.strip _ _ with "" => _ | _ => _ end); [done|].
    injection E as <-. by right.
Qed.

Lemma comment_handler_unknown_witness :
  exists e, cfw.comment_handler ["aaa"] "78" {[77 := bug77]} = Err e
            /\ (e = KeyError \/ e = ValueError).
Proof.
  apply comment_handler_unknown. intros n Hn. vm_compute in Hn.
  by injection Hn as <-.
Defined.

Lemma history_handler_frame_aux (flag : string) (date : Z) (invalids : list Z)
    (history : bug_history) (data : gmap Z BugRecord) :
  match data !! h_id history with
  | None => cfw.history_handler flag date invalids history data = Err KeyError
  | Some b =>
      exists sv inv',
        cfw.history_handler flag date invalids history data
        = Ok (inv', <[h_id history := set_softvision sv b]> data)
        /\ (inv' = invalids \/ inv' = (invalids ++ [h_id history])%list)
  end.
Proof.
  unfold cfw.history_handler, getitem.
  destruct (data !! h_id history) as [b|]; [|done]. simpl.
  destruct (cfw.history_loop _ _ _) as [sv valid].
  exists sv. destruct valid; eauto.
Qed.

(** ** The quality-verification flag *)

Lemma rstar_stop {A} (cs : list ascii) (k : @Re.cont A) (fuel : nat)
    (t : string) (pos : nat) (g : Re.groups) :
  (forall p x s g, existsb (Ascii.eqb x) cs = false ->
                   k p (String x s) g = None) ->
  (String.length t <= fuel)%nat ->
  Re.rstar fuel (Re.rmatch (Re.none_of cs)) pos t g k
  = k (pos + String.length (run cs t))%nat (after_run cs t) g.
Proof.
  intros Hk. revert fuel pos. induction t as [|x t IH]; intros fuel pos Hfuel.
  - destruct fuel; simpl; by rewrite Nat.add_0_r.
  - destruct fuel as [|fuel]; [simpl in Hfuel; lia|].
    cbn [Re.rstar Re.rmatch Re.none_of after_run run].
    destruct (existsb (Ascii.eqb x) cs) eqn:Ex; cbn [negb].
    + cbn [String.length]. by rewrite Nat.add_0_r.
    + assert ((String.length t <? String.length (String x t))%nat = true) as ->.
      { apply Nat.ltb_lt. simpl. lia. }
      rewrite IH by (simpl in Hfuel; lia).
      cbn [String.length]. rewrite Nat.add_succ_r. cbn [Nat.add].
      destruct (k _ _ _) eqn:E; [done|]. by apply Hk.
Qed.

Lemma match_at_SOFTVISION (pos : nat) (s : string) :
  match Re.match_at SOFTVISION_PAT pos s with
  | Some _ =>
      exists x t, s = String x t /\ x <> "@"%char
        /\ Str.startswith (after_run ["@"%char] t) "@softvision" = true
  | None =>
      forall x t, s = String x t -> x <> "@"%char ->
        Str.startswith (after_run ["@"%char] t) "@softvision" = false
  end.
Proof.
  unfold Re.match_at, SOFTVISION_PAT, Re.plus. cbn [Re.rmatch].
  unfold Re.none_of at 1. cbn [Re.rmatch].
  destruct s as [|x t]; [done|].
  destruct (existsb (Ascii.eqb x) ["@"%char]) eqn:Ex; cbn [negb].
  { intros x' t' [= <- <-] Hx. simpl in Ex. rewrite orb_false_r in Ex.
    by apply Ascii.eqb_eq in Ex. }
  assert (Hx : x <> "@"%char).
  { intros ->. vm_compute in Ex. discriminate Ex. }
  rewrite rstar_stop.
  - rewrite rmatch_lit.
    destruct (Str.startswith (after_run ["@"%char] t) "@softvision") eqn:E.
    + by exists x, t.
    + by intros x' t' [= <- <-] _.
  - intros p y s' g' Hy. rewrite rmatch_lit. cbn [Str.startswith].
    simpl in Hy. rewrite orb_false_r in Hy.
    by rewrite Ascii.eqb_sym, Hy.
  - done.
Qed.

Lemma search_from_spec (r : regex) (pos : nat) (s : string) :
  is_Some (Re.search_from r pos s) <->
  exists pre suf, s = pre ++ suf
    /\ is_Some (Re.match_at r (pos + String.length pre) suf).
Proof.
  revert pos. induction s as [|c s IH]; intros pos.
  - cbn [Re.search_from]. split.
    + intros H. exists "", "". split; [done|]. simpl. rewrite Nat.add_0_r.
      destruct (Re.match_at r pos "") as [[m s']|]; [by eexists|].
      by destruct H.
    + intros ([|? ?] & suf & E & H); [|by rewrite app_cons in E].
      rewrite app_empty_l in E. subst suf. simpl in H. rewrite Nat.add_0_r in H.
      destruct (Re.match_at r pos "") as [[m s']|]; [by eexists|].
      by destruct H.
  - cbn [Re.search_from].
    destruct (Re.match_at r pos (String c s)) as [[m s']|] eqn:E.
    + split; [|by eexists]. intros _. exists "", (String c s).
      split; [done|]. simpl. rewrite Nat.add_0_r, E. by eexists.
    + rewrite IH. split.
      * intros (pre & suf & -> & H). exists (String c pre), suf.
        split; [done|]. simpl. by rewrite Nat.add_succ_r.
      * intros ([|x pre] & suf & Es & H).
        -- rewrite app_empty_l in Es. subst suf. simpl in H.
           rewrite Nat.add_0_r, E in H. by destruct H.
        -- rewrite app_cons in Es. injection Es as -> ->.
           exists pre, suf. split; [done|]. simpl in H.
           by rewrite Nat.add_succ_r in H.
Qed.

Lemma unsnoc (x : ascii) (s : string) :
  exists init c, String x s = init ++ String c ""
    /\ (c = x \/ occurs c s = true).
Proof.
  revert x. induction s as [|y s IH]; intros x.
  - exists "", x. split; [done|by left].
  - destruct (IH y) as (init & c & E & Hc).
    exists (String x init), c. rewrite app_cons, <- E. split; [done|].
    right. cbn [occurs]. destruct Hc as [-> | ->];
      [by rewrite Ascii.eqb_refl|apply orb_true_r].
Qed.

Lemma occurs_run_cs (c : ascii) (cs : list ascii) (t : string) :
  existsb (Ascii.eqb c) cs = true -> occurs c (run cs t) = false.
Proof.
  intros Hc. induction t as [|x t IH]; simpl; [done|].
  destruct (existsb (Ascii.eqb x) cs) eqn:E; [done|]. simpl.
  rewrite IH, orb_false_r. apply Ascii.eqb_neq. intros ->. congruence.
Qed.

(** The addresses that [SOFTVISION_PAT] finds: "@softvision" comes right
    after a character other than "@". *)
Lemma qa_vendor_spec (who : string) :
  qa_vendor who = true <->
  exists a c b, who = a ++ String c ("@softvision" ++ b) /\ c <> "@"%char.
Proof.
  unfold qa_vendor, Re.search.
  assert (Hs : is_Some (Re.search_from SOFTVISION_PAT 0 who) <->
               exists a c b, who = a ++ String c ("@softvision" ++ b)
                             /\ c <> "@"%char).
  2:{ rewrite <- Hs.
      destruct (Re.search_from _ _ _) as [m|]; split; intros H;
        first [done|by eexists|by destruct H]. }
  rewrite search_from_spec. split.
  - intros (pre & suf & -> & H).
    pose proof (match_at_SOFTVISION (0 + String.length pre) suf) as Hm.
    destruct (Re.match_at _ _ _) as [ms|]; [|by destruct H].
    destruct Hm as (x & t & -> & Hx & Hst).
    apply startswith_spec in Hst as [b Hb].
    destruct (unsnoc x (run ["@"%char] t)) as (init & c & E & Hc).
    exists (pre ++ init), c, b. split.
    + rewrite (run_after_run ["@"%char] t), Hb.
      rewrite <- app_cons, E, !app_assoc_str. done.
    + destruct Hc as [->|Hc]; [done|]. intros ->.
      by rewrite (occurs_run_cs "@" ["@"%char]) in Hc.
  - intros (a & c & b & -> & Hc). exists a, (String c ("@softvision" ++ b)).
    split; [done|].
    pose proof (match_at_SOFTVISION (0 + String.length a)
                  (String c ("@softvision" ++ b))) as Hm.
    destruct (Re.match_at _ _ _) as [ms|]; [by eexists|].
    specialize (Hm c _ eq_refl Hc).
    assert (Str.startswith (after_run ["@"%char] ("@softvision" ++ b))
                           "@softvision" = true); [|congruence].
    apply startswith_spec. by exists b.
Qed.

Lemma history_change_sv (flag : string) (date : Z) (chs : hchanges)
    (st : bool * bool) (ch : hchange) :
  (cfw.history_change flag date chs st ch).1
  = st.1 || (verifies ch && qa_vendor (who chs)).
Proof.
  destruct st as [sv valid]. unfold cfw.history_change, verifies, qa_vendor.
  cbn [fst].
  destruct (String.eqb (removed ch) "RESOLVED" && String.eqb (added ch) "VERIFIED");
    cbn [andb]; [|by rewrite orb_false_r].
  destruct (Re.search SOFTVISION_PAT (who chs));
    [by rewrite orb_true_r|by rewrite orb_false_r].
Qed.

Lemma history_changes_sv (flag : string) (date : Z) (chs : hchanges)
    (l : list hchange) (st : bool * bool) :
  (fold_left (cfw.history_change flag date chs) l st).1
  = st.1 || (existsb verifies l && qa_vendor (who chs)).
Proof.
  revert st. induction l as [|ch l IH]; intros st; simpl.
  - by rewrite orb_false_r.
  - rewrite IH, history_change_sv.
    destruct st.1, (verifies ch), (qa_vendor (who chs)), (existsb verifies l);
      done.
Qed.

Lemma history_loop_sv (flag : string) (date : Z) (history : list hchanges)
    (st : bool * bool) :
  (fold_left (fun st chs => fold_left (cfw.history_change flag date chs)
                                       (changes chs) st) history st).1
  = st.1 || existsb (fun chs => existsb verifies (changes chs)
                                && qa_vendor (who chs)) history.
Proof.
  revert st. induction history as [|chs history IH]; intros st; simpl.
  - by rewrite orb_false_r.
  - by rewrite IH, history_changes_sv, orb_assoc.
Qed.

(** X7. On a stored bug [history_handler] changes only the softvision field
    of that bug and adds at most the id of that bug, at the end, to the
    invalids. The field is true exactly when the history has a change from
    RESOLVED to VERIFIED made by an account in which @softvision follows a
    character other than @. *)
Theorem history_handler_softvision (flag : string) (date : Z)
    (invalids : list Z) (history : bug_history) (data : gmap Z BugRecord)
    (b : BugRecord) :
  data !! h_id history = Some b ->
  exists inv' sv,
    cfw.history_handler flag date invalids history data
    = Ok (inv', <[h_id history := set_softvision sv b]> data)
    /\ (inv' = invalids \/ inv' = (invalids ++ [h_id history])%list)
    /\ (sv = true <->
        exists chs ch, chs ∈ h_history history /\ ch ∈ changes chs
          /\ removed ch = "RESOLVED" /\ added ch = "VERIFIED"
          /\ exists a c d, who chs = a ++ String c ("@softvision" ++ d)
                           /\ c <> "@"%char).
Proof.
  intros Hb. unfold cfw.history_handler, getitem. rewrite Hb. simpl.
  pose proof (history_loop_sv flag date (h_history history) (false, false))
    as Hsv.
  fold (cfw.history_loop flag date (h_history history)) in Hsv.
  destruct (cfw.history_loop _ _ _) as [sv valid]. simpl in Hsv.
  exists (if valid then invalids else (invalids ++ [h_id history])%list), sv.
  split; [done|]. split; [destruct valid; auto|].
  rewrite Hsv, existsb_exists. split.
  - intros (chs & Hin & [Hv Hq]%andb_true_iff).
    apply existsb_exists in Hv as (ch & Hch & [Hr Ha]%andb_true_iff).
    exists chs, ch. apply list_elem_of_In in Hin, Hch.
    apply String.eqb_eq in Hr, Ha. by apply qa_vendor_spec in Hq.
  - intros (chs & ch & Hin & Hch & Hr & Ha & Hq).
    exists chs. split; [by apply list_elem_of_In|].
    apply andb_true_iff. split; [|by apply qa_vendor_spec].
    apply existsb_exists. exists ch. split; [by apply list_elem_of_In|].
    unfold verifies. by rewrite Hr, Ha.
Qed.

Lemma history_handler_softvision_witness :
  exists inv' sv,
    cfw.history_handler "cf_status_firefox57" d_0714 []
      (mkHistory 77
         [mkChanges "qa.tester@softvisioninc.eu" 1500003600
            [mkChange "status" "RESOLVED" "VERIFIED"]])
      {[77 := bug77]}
    = Ok (inv', <[77 := set_softvision sv bug77]> {[77 := bug77]})
    /\ sv = true.
Proof.
  destruct (history_handler_softvision "cf_status_firefox57" d_0714 []
              (mkHistory 77
                 [mkChanges "qa.tester@softvisioninc.eu" 1500003600
                    [mkChange "status" "RESOLVED" "VERIFIED"]])
              {[77 := bug77]} bug77) as (inv' & sv & H & _ & Hsv).
  { apply lookup_singleton_eq. }
  exists inv', sv. split; [exact H|]. apply Hsv.
  eexists _, _. split; [by left|]. split; [by left|].
  split; [done|]. split; [done|].
  by exists "qa.teste", "r"%char, "inc.eu".
Defined.

(** ** Patch statistics *)

Lemma filter_added_removed (l : list change) :
  (length (filter added_only l) + length (filter removed_only l)
   <= length l)%nat.
Proof.
  induction l as [|c l IH]; [done|]. rewrite !filter_cons.
  destruct (added_only c) eqn:Ea, (removed_only c) eqn:Er; simpl; try lia.
  unfold added_only, removed_only in *. by destruct (c_old c), (c_new c).
Qed.

Lemma patch_fold_sizes (ds : list diffobj) (info : patch_info) :
  let info' := fold_left cfw.patch_step ds info in
  changes_size info <= changes_size info'
  /\ test_changes_size info <= test_changes_size info'.
Proof.
  revert info. induction ds as [|d ds IH]; intros info; simpl; [lia|].
  destruct (IH (cfw.patch_step info d)) as [H1 H2].
  assert (changes_size info <= changes_size (cfw.patch_step info d)
          /\ test_changes_size info
             <= test_changes_size (cfw.patch_step info d)); [|lia].
  unfold cfw.patch_step.
  destruct (d_header d) as [h|]; [|lia].
  destruct (d_changes d) as [[|c cs]|]; [lia| |lia].
  destruct (cfw._is_test _); simpl; lia.
Qed.

(** X8. The four counters of [patch_analysis] are not negative, and the
    added and removed lines together are at most the changes size plus the
    test changes size. *)
Theorem patch_analysis_bounds (O : Outside) (patch : string) :
  let info := cfw.patch_analysis patch in
  0 <= changes_add info /\ 0 <= changes_del info
  /\ 0 <= changes_size info /\ 0 <= test_changes_size info
  /\ changes_add info + changes_del info
     <= changes_size info + test_changes_size info.
Proof.
  unfold cfw.patch_analysis.
  destruct (patch_fold_counts (parse_patch patch) cfw.PATCH_INFO)
    as (Ha & Hd & Hs).
  destruct (patch_fold_sizes (parse_patch patch) cfw.PATCH_INFO) as [H1 H2].
  pose proof (filter_added_removed (concat (map counted (parse_patch patch)))).
  simpl in *. lia.
Qed.

Lemma is_test_strip (rest : string) :
  cfw._is_test rest = cfw._is_test ("b/" ++ rest).
Proof. reflexivity. Qed.

Lemma patch_step_split (info : patch_info) (d : diffobj) :
  let info' := cfw.patch_step info d in
  test_changes_size info'
  = test_changes_size info
    + Z.of_nat (length (if test_section d then lines_of d else []))
  /\ changes_size info'
     = changes_size info
       + Z.of_nat (length (if other_section d then lines_of d else [])).
Proof.
  unfold cfw.patch_step, test_section, other_section, lines_of.
  destruct (d_header d) as [h|]; [|simpl; lia].
  assert (Hstrip : cfw._is_test
                     (if Str.startswith (new_path h) "b/"
                      then Str.drop 2 (new_path h) else new_path h)
                   = cfw._is_test (new_path h)).
  { destruct (Str.startswith (new_path h) "b/") eqn:E; [|done].
    apply startswith_spec in E as [rest ->].
    change (Str.drop 2 ("b/" ++ rest)) with rest. apply is_test_strip. }
  destruct (d_changes d) as [[|c cs]|].
  - destruct (cfw._is_test (new_path h)); simpl; lia.
  - cbv zeta. rewrite Hstrip.
    destruct (cfw._is_test (new_path h)); simpl; lia.
  - destruct (cfw._is_test (new_path h)); simpl; lia.
Qed.

Lemma patch_fold_split (ds : list diffobj) (info : patch_info) :
  let info' := fold_left cfw.patch_step ds info in
  test_changes_size info'
  = test_changes_size info
    + Z.of_nat (length (concat (map lines_of (filter test_section ds))))
  /\ changes_size info'
     = changes_size info
       + Z.of_nat (length (concat (map lines_of (filter other_section ds)))).
Proof.
  revert info. induction ds as [|d ds IH]; intros info; simpl; [lia|].
  destruct (IH (cfw.patch_step info d)) as [H1 H2].
  destruct (patch_step_split info d) as [H1' H2'].
  simpl in *. rewrite H1, H2, H1', H2', !filter_cons.
  destruct (test_section d), (other_section d); simpl;
    rewrite ?length_app; lia.
Qed.

(** X9. [patch_analysis] counts every line of a section with a header once:
    in test_changes_size when the new path of the header is a test path, in
    changes_size otherwise; the prefix b/ that the code strips from the path
    makes no difference to that. *)
Theorem patch_analysis_test_split (O : Outside) (patch : string) :
  let info := cfw.patch_analysis patch in
  test_changes_size info
  = Z.of_nat (length (concat (map lines_of
                               (filter test_section (parse_patch patch)))))
  /\ changes_size info
     = Z.of_nat (length (concat (map lines_of
                                  (filter other_section (parse_patch patch))))).
Proof.
  unfold cfw.patch_analysis.
  destruct (patch_fold_split (parse_patch patch) cfw.PATCH_INFO) as [H1 H2].
  simpl in *. lia.
Qed.

(** ** Attachments *)

Lemma attachment_step_skip (O : Outside) (info : result (gmap Z patch_info))
    (a : attachment) :
  contributes a = false -> cfw.attachment_step info a = info.
Proof.
  unfold contributes, cfw.attachment_step, cfw.patch_data_of.
  destruct info as [i|e]; [|done]. simpl.
  destruct (cfw.has_review_plus a); [|done].
  destruct (Z.eqb (is_obsolete a) 0); simpl.
  - intros [-> ->]%orb_false_iff. done.
  - rewrite !andb_false_r. done.
Qed.

Lemma attachment_fold_filter (O : Outside) (l : list attachment)
    (info : result (gmap Z patch_info)) :
  fold_left cfw.attachment_step l info
  = fold_left cfw.attachment_step (filter contributes l) info.
Proof.
  revert info. induction l as [|a l IH]; intros info; [done|].
  rewrite filter_cons. simpl. destruct (contributes a) eqn:E; simpl.
  - apply IH.
  - rewrite attachment_step_skip by done. apply IH.
Qed.

(** X10. [attachment_handler] returns, or raises, the same as on the
    attachments alone that have a review+ flag, are not obsolete and are a
    patch or a review-board request: the others are skipped. *)
Theorem attachment_handler_filter (O : Outside) (attachments : list attachment)
    (bugid : string) (data : gmap Z BugRecord) :
  cfw.attachment_handler attachments bugid data
  = cfw.attachment_handler (filter contributes attachments) bugid data.
Proof.
  unfold cfw.attachment_handler. by rewrite attachment_fold_filter.
Qed.

Lemma attachment_fold_err (O : Outside) (l : list attachment) (e : exn) :
  fold_left cfw.attachment_step l (Err e) = Err e.
Proof. induction l as [|a l IH]; [done|]. simpl. apply IH. Qed.

Lemma attachment_step_broken (O : Outside) (i : gmap Z patch_info)
    (a : attachment) :
  broken_request a = true ->
  cfw.attachment_step (Ok i) a = Err AttributeError.
Proof.
  unfold broken_request, cfw.attachment_step, cfw.patch_data_of. simpl.
  intros [[[[-> ->]%andb_true_iff Hp]%andb_true_iff ->]%andb_true_iff Hs]
           %andb_true_iff.
  apply negb_true_iff in Hp. rewrite Hp. simpl.
  destruct (b64decode_utf8 (a_data a)) as [url|]; [|done]. simpl.
  by destruct (Re.search _ _).
Qed.

(** X11. A review-board request with a review+ flag, not obsolete and not
    a patch, whose data is decoded to a text in which no review URL is
    found, keeps [attachment_handler] from returning: it raises, and what
    it raises is AttributeError when the attachments before that one were
    read without an error. *)
Theorem attachment_handler_broken_request (O : Outside)
    (before after : list attachment) (a : attachment) (bugid : string)
    (data : gmap Z BugRecord) :
  broken_request a = true ->
  (exists e,
     cfw.attachment_handler (before ++ a :: after) bugid data = Err e)
  /\ ((exists info, fold_left cfw.attachment_step before (Ok ∅) = Ok info) ->
      cfw.attachment_handler (before ++ a :: after) bugid data
      = Err AttributeError).
Proof.
  intros Ha. unfold cfw.attachment_handler. rewrite fold_left_app.
  cbn [fold_left].
  destruct (fold_left cfw.attachment_step before (Ok ∅)) as [info|e].
  - rewrite attachment_step_broken, attachment_fold_err by done.
    split; [by eexists|done].
  - change (cfw.attachment_step (Err e) a) with (@Err (gmap Z patch_info) e).
    rewrite attachment_fold_err. split; [by eexists|].
    by intros [info [=]].
Qed.

Lemma attachment_handler_broken_request_witness :
  @cfw.attachment_handler quiet
    [mkAttachment 1 [mkFlag "review" "+"] 1 0 "text/plain" "diff";
     mkAttachment 2 [mkFlag "review" "+"] 0 0 "text/x-review-board-request"
       "https://example.org/r/12/";
     mkAttachment 3 [] 1 0 "text/plain" "diff"]
    "77" {[77 := bug77]} = Err AttributeError.
Proof.
  apply (attachment_handler_broken_request quiet
           [mkAttachment 1 [mkFlag "review" "+"] 1 0 "text/plain" "diff"]
           [mkAttachment 3 [] 1 0 "text/plain" "diff"]);
    [vm_compute; reflexivity|].
  eexists. vm_compute. reflexivity.
Defined.

(** ** Push records *)

Lemma found_lit_i {A} (p : string) (pos : nat) (s : string) (g : Re.groups)
    (k : @Re.cont A) :
  found (Re.rmatch (Re.lit_i p) pos s g k)
  = startswith_i s p
    && found (k (pos + String.length p)%nat (Str.drop (String.length p) s) g).
Proof.
  revert pos s. induction p as [|c p IH]; intros pos s.
  - simpl. by rewrite Nat.add_0_r.
  - cbn [Re.lit_i Re.rmatch startswith_i String.length].
    destruct s as [|x s]; [done|]. cbn [Str.drop].
    destruct (Ascii.eqb (Re.lower x) (Re.lower c)); [|done]. cbn [andb].
    by rewrite IH, Nat.add_succ_r.
Qed.

Lemma found_opt {A} (r : regex) (pos : nat) (s : string) (g : Re.groups)
    (k : @Re.cont A) :
  found (Re.rmatch (Re.opt r) pos s g k)
  = found (Re.rmatch r pos s g k) || found (k pos s g).
Proof.
  unfold Re.opt. cbn [Re.rmatch]. by destruct (Re.rmatch r pos s g k).
Qed.

Lemma startswith_i_app (s p q : string) :
  startswith_i s (p ++ q)
  = startswith_i s p && startswith_i (Str.drop (String.length p) s) q.
Proof.
  revert s. induction p as [|c p IH]; intros s; [done|].
  rewrite app_cons. cbn [startswith_i String.length].
  destruct s as [|x s]; [by destruct q|]. cbn [Str.drop].
  by rewrite IH, andb_assoc.
Qed.

Lemma search_bol (r : regex) (pos : nat) (s : string) :
  Re.search_from (Cat Bol r) (S pos) s = None.
Proof.
  revert pos. induction s as [|c s IH]; intros pos; [done|].
  cbn [Re.search_from]. unfold Re.match_at at 1. cbn [Re.rmatch Nat.eqb].
  apply IH.
Qed.

Lemma search_bol_0 (r : regex) (s : string) :
  found (Re.search (Cat Bol r) s) = found (Re.match_at (Cat Bol r) 0 s).
Proof.
  unfold Re.search. destruct s as [|c s]; cbn [Re.search_from].
  - by destruct (Re.match_at _ _ _) as [[m s']|].
  - destruct (Re.match_at _ _ _) as [[m s']|]; [done|].
    by rewrite search_bol.
Qed.

(** The messages that [backout_pattern] finds *)
Lemma backout_pattern_spec (s : string) :
  found (Re.search cfw.backout_pattern s)
  = startswith_i s "backout" || startswith_i s "back out"
    || startswith_i s "backedout" || startswith_i s "backed out".
Proof.
  unfold cfw.backout_pattern. rewrite search_bol_0.
  unfold Re.match_at. cbn [Re.rmatch Nat.eqb].
  rewrite found_lit_i, found_opt. cbn [Re.rmatch].
  rewrite found_lit_i, !found_opt, !found_lit_i. cbn [found].
  change "backout" with ("back" ++ "out").
  change "back out" with ("back" ++ " " ++ "out").
  change "backedout" with ("back" ++ "ed" ++ "out").
  change "backed out" with ("back" ++ "ed" ++ " " ++ "out").
  rewrite !startswith_i_app. cbn [String.length Nat.add].
  rewrite !andb_true_r.
  destruct (startswith_i s "back"); [|done]. cbn [andb].
  set (s1 := Str.drop 4 s).
  destruct (startswith_i s1 "ed"), (startswith_i s1 " "),
    (startswith_i s1 "out"), (startswith_i (Str.drop 1 s1) "out"),
    (startswith_i (Str.drop 2 s1) " "), (startswith_i (Str.drop 2 s1) "out"),
    (startswith_i (Str.drop 1 (Str.drop 2 s1)) "out"); done.
Qed.

(** X12. [handler_rev] marks an entry as backed out exactly when the push
    record has, under the key backedoutby, a value other than the empty
    string (the node that backed it out, or null), or the commit message
    starts, letter case apart, with backout, back out, backedout or backed
    out. *)
Theorem handler_rev_backedout (O : Outside) (json : hg_json)
    (data : LandingEntry) :
  backedout (cfw.handler_rev json data) = true <->
  (exists v, hg_backedoutby json = Some v /\ v <> JString "")
  \/ startswith_i (desc json) "backout" = true
  \/ startswith_i (desc json) "back out" = true
  \/ startswith_i (desc json) "backedout" = true
  \/ startswith_i (desc json) "backed out" = true.
Proof.
  assert (Hb : backedout (cfw.handler_rev json data)
               = not_empty (default (JString "") (hg_backedoutby json))
                 || found (Re.search cfw.backout_pattern (desc json))).
  { unfold cfw.handler_rev. cbv zeta. cbn [backedout].
    destruct (not_empty _); cbn [negb orb]; [done|].
    by destruct (Re.search cfw.backout_pattern (desc json)). }
  rewrite Hb, backout_pattern_spec, !orb_true_iff.
  assert (Hby : not_empty (default (JString "") (hg_backedoutby json)) = true
                <-> exists v, hg_backedoutby json = Some v /\ v <> JString "").
  { destruct (hg_backedoutby json) as [[|node]|]; simpl.
    - split; [by exists JNull|done].
    - rewrite negb_true_iff, String.eqb_neq. split.
      + intros Hn. exists (JString node). split; [done|congruence].
      + intros (v & [= <-] & Hv) ->. by apply Hv.
    - split; [done|by intros (? & ? & ?)]. }
  rewrite Hby. tauto.
Qed.

(** X13. Handling the same push record twice gives the entry that handling
    it once gives. *)
Theorem handler_rev_idempotent (O : Outside) (json : hg_json)
    (data : LandingEntry) :
  cfw.handler_rev json (cfw.handler_rev json data) = cfw.handler_rev json data.
Proof.
  unfold cfw.handler_rev. cbv zeta. cbn [bugid]. f_equal.
  destruct (Re.search cfw.bug_pattern (desc json)) as [m|]; [|done].
  destruct (Re.group m 1) as [g|]; [|done].
  destruct (String.eqb_spec g (bugid data)) as [->|Hne].
  - by rewrite String.eqb_refl.
  - by destruct (String.eqb g "").
Qed.

Lemma resolve_land_dom (O : Outside) (land : gmap string LandingEntry) :
  dom (cfw.resolve_land land) = dom land.
Proof.
  apply set_eq. intros rev. rewrite !elem_of_dom.
  unfold cfw.resolve_land. rewrite map_lookup_imap.
  destruct (land !! rev); simpl; [|done]. split; by eexists.
Qed.

(** X14. Every record of the result of [get_hg] is the record of a bug of
    its input with the same id; its landing map has the revisions of that
    bug, and its landed_patches is between 0 and the number of these
    revisions. *)
Theorem get_hg_revisions (O : Outside) (bugs : gmap Z BugRecord) (id : Z)
    (info : BugRecord) :
  cfw.get_hg bugs !! id = Some info ->
  exists b n,
    bugs !! id = Some b
    /\ dom (land info) = dom (land b)
    /\ landed_patches info = Some n
    /\ 0 <= n <= Z.of_nat (size (land b)).
Proof.
  unfold cfw.get_hg. rewrite !lookup_fmap.
  destruct (bugs !! id) as [b|]; [|done]. simpl. intros [= <-].
  exists b. eexists. split; [done|]. simpl.
  split; [apply resolve_land_dom|]. split; [done|].
  rewrite count_not_backedout.
  pose proof (map_filter_subseteq
                (fun p : string * LandingEntry => backedout p.2 = false)
                (cfw.resolve_land (land b))) as Hsub.
  apply subseteq_dom in Hsub. apply subseteq_size in Hsub.
  rewrite !size_dom in Hsub.
  assert (size (cfw.resolve_land (land b)) = size (land b)) as Hsz.
  { by rewrite <- !size_dom, resolve_land_dom. }
  lia.
Qed.

Lemma get_hg_revisions_witness :
  exists b n,
    ({[1234 := two_landings]} : gmap Z BugRecord) !! 1234 = Some b
    /\ landed_patches
         (set_landed_patches 1
            (set_land (@cfw.resolve_land hg_world (land two_landings))
                      two_landings)) = Some n
    /\ 0 <= n <= 2.
Proof.
  destruct (get_hg_revisions hg_world {[1234 := two_landings]} 1234
              (set_landed_patches 1
                 (set_land (@cfw.resolve_land hg_world (land two_landings))
                           two_landings)))
    as (b & n & Hb & _ & Hn & Hle).
  { vm_compute. reflexivity. }
  exists b, n. split; [exact Hb|]. split; [exact Hn|].
  apply lookup_singleton_Some in Hb as [_ <-].
  by vm_compute in Hle.
Defined.

(** ** Window resolution *)


Lemma split_empty_range (sep : ascii) (s : string) (a b : string) :
  Str.split sep s = [a; b] -> String.eqb s "" = false.
Proof. by destruct s. Qed.

(** X16. With a date range of two parts separated by a bar, whose dates,
    spaces stripped, parse, and a target date outside the range, [get_bugs]
    returns the major version with an empty report, whatever the calendar
    holds. *)
Theorem get_bugs_explicit_range (O : Outside) (date date_range sa sb : string)
    (major d a b : Z) :
  get_date_ymd (Some date) = Ok d ->
  Str.split "|" date_range = [sa; sb] ->
  get_date_ymd (Some (Str.strip (Ascii.eqb " ") sa)) = Ok a ->
  get_date_ymd (Some (Str.strip (Ascii.eqb " ") sb)) = Ok b ->
  ~ (a <= d <= b) ->
  cfw.get_bugs date major date_range
  = Ok (if Z.eqb major (-1) then cfw.get_major else major, []).
Proof.
  intros Hd Hsplit Ha Hb Hout. unfold cfw.get_bugs. rewrite Hd.
  cbv beta iota delta [rbind].
  rewrite (split_empty_range _ _ _ _ Hsplit), Hsplit.
  cbn [cfw.mapr]. cbv beta iota delta [rbind]. rewrite Ha, Hb.
  cbv beta iota.
  destruct (Z.leb_spec a d), (Z.leb_spec d b); cbn [andb]; try done.
  lia.
Qed.

Lemma get_bugs_explicit_range_witness :
  @cfw.get_bugs (freeze_world [] fixed_once) "2017-07-14" 57
    "2017-07-10 | 2017-07-12" = Ok (57, []).
Proof.
  apply (get_bugs_explicit_range (freeze_world [] fixed_once) "2017-07-14"
           "2017-07-10 | 2017-07-12" "2017-07-10 " " 2017-07-12"
           57 d_0714 d_0710 d_0712); try reflexivity.
  vm_compute. intros [_ H]. by apply H.
Defined.

Lemma mapr_length {A B} (f : A -> result B) (l : list A) (l' : list B) :
  cfw.mapr f l = Ok l' -> length l' = length l.
Proof.
  intros H%mapr_Forall2. symmetry. by eapply Forall2_length.
Qed.

(** X17. With a date range that is not empty, whose parts all parse as dates
    but are not two in number, [get_bugs] raises ValueError. *)
Theorem get_bugs_malformed_range (O : Outside) (date date_range : string)
    (major d : Z) :
  get_date_ymd (Some date) = Ok d ->
  date_range <> "" ->
  (forall x, x ∈ Str.split "|" date_range ->
     exists v, get_date_ymd (Some (Str.strip (Ascii.eqb " ") x)) = Ok v) ->
  length (Str.split "|" date_range) <> 2%nat ->
  cfw.get_bugs date major date_range = Err ValueError.
Proof.
  intros Hd Hne Hparse Hlen. unfold cfw.get_bugs. rewrite Hd.
  cbv beta iota delta [rbind].
  apply String.eqb_neq in Hne. rewrite Hne.
  destruct (mapr_total _ _ Hparse) as [dates Hdates]. rewrite Hdates.
  apply mapr_length in Hdates.
  destruct dates as [|? [|? [|? ?]]];
    first [done|simpl in Hdates; congruence].
Qed.

Lemma get_bugs_malformed_range_witness :
  @cfw.get_bugs (freeze_world [] fixed_once) "2017-07-14" 57 "2017-07-10"
  = Err ValueError.
Proof.
  apply (get_bugs_malformed_range (freeze_world [] fixed_once) _ _ _ d_0714);
    [reflexivity|done| |vm_compute; lia].
  intros x Hx. vm_compute in Hx.
  apply elem_of_cons in Hx as [->|Hx]; [by eexists|].
  by apply elem_of_nil in Hx.
Defined.

(** ** Rows *)

Lemma mapr_exn {A B} (f : A -> result B) (l : list A) (e : exn) :
  cfw.mapr f l = Err e -> exists x, x ∈ l /\ f x = Err e.
Proof.
  induction l as [|x l IH]; simpl; [done|].
  destruct (f x) as [y|e'] eqn:E; simpl.
  - destruct (cfw.mapr f l) as [ys|e']; simpl; [done|].
    intros [= ->]. destruct IH as (x' & Hin & Hx'); [done|].
    exists x'. split; [by right|done].
  - intros [= ->]. exists x. split; [by left|done].
Qed.

Lemma sort_ok (major : Z) (p : Z * BugRecord) (k : cfw.sort_key) :
  cfw.sort p = Ok k ->
  is_Some (landed_patches p.2) /\ is_Some (patches p.2).
Proof.
  unfold cfw.sort.
  destruct (landed_patches p.2), (patches p.2);
    first [done|by split; eexists].
Qed.

Lemma row_of_ok (O : Outside) (major id : Z) (b : BugRecord) (r : ReportRow) :
  cfw.row_of major id b = Ok r -> enriched major b.
Proof.
  unfold cfw.row_of, enriched.
  destruct (landed_patches b), (patches b), (softvision b),
    (fields b !! cfw.format_flag "cf_tracking_firefox" major),
    (fields b !! cfw.format_flag "cf_status_firefox" (major - 2)),
    (fields b !! cfw.format_flag "cf_status_firefox" (major - 1)),
    (fields b !! cfw.format_flag "cf_status_firefox" major);
    first [done|intros _; repeat split; by eexists].
Qed.

Lemma mapr_ok_all {A B} (f : A -> result B) (l : list A) (l' : list B) :
  cfw.mapr f l = Ok l' ->
  forall x, x ∈ l -> exists y, f x = Ok y /\ y ∈ l'.
Proof.
  intros H%mapr_Forall2.
  induction H as [|x y l l' Hxy _ IH]; intros z Hz.
  - by apply elem_of_nil in Hz.
  - apply elem_of_cons in Hz as [->|Hz].
    + exists y. split; [done|by left].
    + destruct (IH z Hz) as (y' & ? & ?). exists y'. split; [done|by right].
Qed.

Lemma mapr_ok_inv {A B} (f : A -> result B) (l : list A) (l' : list B) :
  cfw.mapr f l = Ok l' ->
  forall y, y ∈ l' -> exists x, f x = Ok y /\ x ∈ l.
Proof.
  intros H%mapr_Forall2.
  induction H as [|x y l l' Hxy _ IH]; intros z Hz.
  - by apply elem_of_nil in Hz.
  - apply elem_of_cons in Hz as [->|Hz].
    + exists x. split; [done|by left].
    + destruct (IH z Hz) as (x' & ? & ?). exists x'. split; [done|by right].
Qed.

Lemma sort_exn (p : Z * BugRecord) (e : exn) :
  cfw.sort p = Err e -> e = KeyError.
Proof.
  unfold cfw.sort. destruct (landed_patches p.2), (patches p.2); congruence.
Qed.

Lemma row_of_exn (O : Outside) (major id : Z) (b : BugRecord) (e : exn) :
  cfw.row_of major id b = Err e -> e = KeyError.
Proof.
  unfold cfw.row_of.
  destruct (landed_patches b), (patches b), (softvision b),
    (fields b !! cfw.format_flag "cf_tracking_firefox" major),
    (fields b !! cfw.format_flag "cf_status_firefox" (major - 2)),
    (fields b !! cfw.format_flag "cf_status_firefox" (major - 1)),
    (fields b !! cfw.format_flag "cf_status_firefox" major);
    congruence.
Qed.

(** X18. [prepare] returns rows only when every bug of the map went through
    every stage of the pipeline; otherwise it raises KeyError, and some bug
    of the map lacks a field of a stage or a flag of one of the three
    versions. *)
Theorem prepare_complete (O : Outside) (major : Z) (bugs : gmap Z BugRecord) :
  match cfw.prepare major bugs with
  | Ok rows => forall id b, bugs !! id = Some b -> enriched major b
  | Err e =>
      e = KeyError
      /\ exists id b, bugs !! id = Some b /\ ~ enriched major b
  end.
Proof.
  unfold cfw.prepare.
  destruct (cfw.mapr _ (map_to_list bugs)) as [keyed|e] eqn:Ek;
    cbv beta iota delta [rbind].
  - assert (Hkeyed : forall kp, kp ∈ sorted cfw.key_lt fst keyed ->
              kp.2 ∈ map_to_list bugs /\ cfw.sort kp.2 = Ok kp.1).
    { intros kp Hkp. rewrite sorted_perm in Hkp.
      destruct (mapr_ok_inv _ _ _ Ek kp Hkp) as (p & Hp & Hin).
      destruct (cfw.sort p) as [k|] eqn:Es; [|done]. simpl in Hp.
      by injection Hp as <-. }
    destruct (cfw.mapr _ (sorted cfw.key_lt fst keyed)) as [rows|e] eqn:Er.
    + intros id b Hb. apply elem_of_map_to_list in Hb.
      destruct (mapr_ok_all _ _ _ Ek _ Hb) as (kp & Hkp & Hin).
      destruct (cfw.sort (id, b)) as [k|]; [|done]. simpl in Hkp.
      injection Hkp as <-. rewrite <- (sorted_perm cfw.key_lt fst) in Hin.
      destruct (mapr_ok_all _ _ _ Er _ Hin) as (r & Hr & _).
      by apply row_of_ok in Hr.
    + apply mapr_exn in Er as ([k [id b]] & Hin & Hrow). simpl in Hrow.
      split; [by apply row_of_exn in Hrow|].
      destruct (Hkeyed _ Hin) as [Hitem Hsort]. simpl in *.
      exists id, b. split; [by apply elem_of_map_to_list|].
      intros He.
      destruct (row_of_enriched O major id b k He Hsort) as (r & Hr & _).
      congruence.
  - apply mapr_exn in Ek as ([id b] & Hin & Hs).
    destruct (cfw.sort (id, b)) as [k|e'] eqn:Es; [done|].
    simpl in Hs. injection Hs as ->.
    split; [by apply sort_exn in Es|].
    exists id, b. split; [by apply elem_of_map_to_list|].
    intros He. destruct (sort_enriched major id b He) as [k Hk]. congruence.
Qed.

(** ** The regression report *)

Lemma filter_bug_unreadable (data : gmap Z RawBug) (flag : string) (id : Z)
    (reg : bool) (h : gmap Z bool) :
  match regrs.filter_bug data flag id reg (Ok h) with
  | Ok _ => reg = false -> unreadable flag data id = false
  | Err e => e = KeyError /\ reg = false /\ unreadable flag data id = true
  end.
Proof.
  unfold regrs.filter_bug, unreadable, getitem. simpl.
  destruct reg; simpl; [done|].
  destruct (data !! id) as [bug|]; simpl; [|done].
  destruct (String.eqb (r_status bug) "REOPENED"); simpl; [|done].
  destruct (r_fields bug !! flag) as [v|]; simpl; [|done].
  by destruct (_ || _).
Qed.

(** X19. [filter_bugs] raises nothing but KeyError, and raises it exactly
    when some bug with a false flag cannot be read: it is not among the bugs
    found, or it is REOPENED and has no status flag. *)
Theorem filter_bugs_unreadable (data : gmap Z RawBug) (hdata : gmap Z bool)
    (flag tracking : string) :
  match regrs.filter_bugs data hdata flag tracking with
  | Ok _ =>
      forall id, hdata !! id = Some false -> unreadable flag data id = false
  | Err e =>
      e = KeyError
      /\ exists id, hdata !! id = Some false /\ unreadable flag data id = true
  end.
Proof.
  unfold regrs.filter_bugs. generalize hdata at 1. intros h0.
  induction hdata as [|i x m Hi Hfirst IH] using map_first_key_ind.
  - rewrite map_fold_empty. intros id. by rewrite lookup_empty.
  - rewrite map_fold_insert_first_key by done.
    destruct (map_fold _ _ m) as [h|e].
    + pose proof (filter_bug_unreadable data flag i x h) as Hstep.
      destruct (regrs.filter_bug data flag i x (Ok h)) as [h'|e].
      * intros id. rewrite lookup_insert. case_decide as Hid.
        -- intros [= ->]. subst id. by apply Hstep.
        -- apply IH.
      * destruct Hstep as (-> & -> & Hu). split; [done|].
        exists i. by rewrite lookup_insert_eq.
    + destruct IH as [-> (id & Hid & Hu)]. simpl. split; [done|].
      exists id. rewrite lookup_insert_ne; [done|]. intros ->. congruence.
Qed.

(** X20. After a call of [check_bugs] with a file path that returned, a
    second call with the same bug ids returns the empty set, reads the file
    and writes nothing. *)
Theorem check_bugs_twice (bugids : list Z) (treated : string) (st st1 : fs)
    (r : collection) :
  treated <> "" ->
  regrs.check_bugs bugids treated st = (Ok r, st1) ->
  regrs.check_bugs bugids treated st1
  = (Ok (PySet ∅), mkFs (files st1) (log st1 ++ [Read treated])).
Proof.
  intros Hne%String.eqb_neq. unfold regrs.check_bugs. rewrite Hne. simpl.
  destruct (files st !! treated) as [data|] eqn:Hfile.
  - destruct (data !! "treated") as [old|] eqn:Hold; [|done].
    destruct (decide (_ = ∅)) as [Hempty|Hnew].
    + intros [= <- <-]. simpl. rewrite Hfile, Hold.
      rewrite decide_True by done. by rewrite Hempty.
    + intros [= <- <-]. simpl. rewrite lookup_insert_eq, lookup_insert_eq.
      assert (Hempty : list_to_set bugids
                         ∖ list_to_set (old ++ elements
                             (list_to_set bugids ∖ list_to_set old
                              : gset Z))
                       =@{gset Z} ∅).
      { apply set_eq. intros x.
        rewrite elem_of_difference, !elem_of_list_to_set, elem_of_app,
          elem_of_elements, elem_of_difference, !elem_of_list_to_set,
          elem_of_empty.
        destruct (decide (x ∈ old)); naive_solver. }
      rewrite decide_True by done. by rewrite Hempty.
  - intros [= <- <-]. simpl. rewrite lookup_insert_eq, lookup_singleton_eq.
    assert (Hempty : list_to_set bugids ∖ list_to_set bugids =@{gset Z} ∅)
      by set_solver.
    rewrite decide_True by done. by rewrite Hempty.
Qed.

Lemma check_bugs_twice_witness :
  regrs.check_bugs [3; 1; 2] "treated.json"
    (regrs.check_bugs [3; 1; 2] "treated.json" (mkFs ∅ [])).2
  = (Ok (PySet ∅),
     mkFs {["treated.json" := {["treated" := [3; 1; 2]]}]}
          [Write "treated.json"; Read "treated.json"]).
Proof.
  rewrite (check_bugs_twice [3; 1; 2] "treated.json" (mkFs ∅ [])
             (regrs.check_bugs [3; 1; 2] "treated.json" (mkFs ∅ [])).2
             (PyList [3; 1; 2])); [reflexivity|done|reflexivity].
Defined.

Lemma NoDup_fst_omap {A C} (f : A -> C) (l : list (A * bool)) :
  NoDup l.*1 ->
  NoDup (omap (fun p : A * bool =>
                 if p.2 then Some (p.1, f p.1) else None) l).*1.
Proof.
  induction l as [|p l IH]; simpl; [done|].
  intros [Hp Hl]%NoDup_cons. destruct (p.2); simpl; [|by apply IH].
  apply NoDup_cons. split; [|by apply IH].
  intros Hin. apply Hp.
  apply list_elem_of_fmap in Hin as ([a y] & -> & Hin).
  apply list_elem_of_omap in Hin as (q & Hq & Hg).
  destruct (q.2); [|done]. injection Hg as Hq1 _.
  apply list_elem_of_fmap. exists q. split; [simpl; congruence|done].
Qed.

Lemma StronglySorted_strict {B} (l : list (Z * B)) :
  StronglySorted (key_le Z.ltb fst) l -> NoDup l.*1 ->
  StronglySorted (fun p q => p.1 < q.1) l.
Proof.
  induction 1 as [|p l Hs IH Hp]; simpl; [constructor|].
  intros [Hnp Hl]%NoDup_cons. constructor; [by apply IH|].
  apply Forall_forall. intros q Hq.
  rewrite Forall_forall in Hp. specialize (Hp q Hq). unfold key_le in Hp.
  apply Z.ltb_ge in Hp.
  assert (q.1 <> p.1); [|lia].
  intros Heq. apply Hnp. rewrite <- Heq. apply list_elem_of_fmap.
  by exists q.
Qed.

(** X21. The links that [get_links] returns are in strictly increasing order
    of bug id, so no bug has two links, and every link is the one
    [Bugzilla.get_links] gives for its id. *)
Theorem get_links_sorted (O : Outside) (major : Z) (date : option string)
    (treated : string) (st st' : fs) (links : list (Z * string)) :
  regrs.get_links major date treated st = (Ok links, st') ->
  StronglySorted (fun p q => p.1 < q.1) links
  /\ Forall (fun p => p.2 = Bugzilla_get_links p.1) links.
Proof.
  unfold regrs.get_links.
  destruct (match date with Some _ => _ | None => _ end) as [d|];
    [|done].
  destruct (regrs.check_bugs _ treated st) as [[bugids|] st1]; [|done].
  destruct (regrs.filter_bugs _ _ _ _) as [hdata|]; [|done]. simpl.
  intros [= <- <-].
  set (links := omap _ (map_to_list hdata)).
  assert (Hnd : NoDup links.*1)
    by apply NoDup_fst_omap, NoDup_fst_map_to_list.
  split.
  - apply StronglySorted_strict.
    + apply sorted_StronglySorted.
      * apply (strict_total_asym _ _ Z_strict_total).
      * apply (strict_total_le_trans _ _ Z_strict_total).
    + by rewrite sorted_perm.
  - rewrite sorted_perm. apply Forall_forall. intros p Hp.
    apply list_elem_of_omap in Hp as (q & _ & Hq).
    destruct (q.2); [|done]. by injection Hq as <-.
Qed.

Lemma get_links_sorted_witness :
  StronglySorted (fun p q : Z * string => p.1 < q.1)
    [(1, "https://bugzil.la/1"); (2, "https://bugzil.la/2")]
  /\ Forall (fun p => p.2 = @Bugzilla_get_links regrs_world p.1)
       [(1, "https://bugzil.la/1"); (2, "https://bugzil.la/2")].
Proof.
  apply (get_links_sorted regrs_world 57 None "" (mkFs ∅ []) (mkFs ∅ [])).
  vm_compute. reflexivity.
Defined.

Lemma get_global_loaded {V} (truthy : V -> bool) (file : result V)
    (st st1 : config.state V) (v : V) :
  config._get_global truthy file st = (Ok v, st1) ->
  config.__CONFIG st1 = Some v.
Proof.
  unfold config._get_global, config.reload.
  destruct (config.__CONFIG st) as [c|] eqn:Hc.
  - destruct (truthy c); simpl.
    + intros [= <- <-]. done.
    + destruct file; [|done]. by intros [= <- <-].
  - destruct file; [|done]. by intros [= <- <-].
Qed.

Lemma calls_cached {V} (truthy : V -> bool) (files : list (result V))
    (st : config.state V) (v : V) (rs : list (result V)) :
  config.__CONFIG st = Some v -> truthy v = true ->
  fold_left (fun acc file =>
               let '(r, st') := config._get_global truthy file acc.2 in
               (acc.1 ++ [r], st')%list)
            files (rs, st)
  = ((rs ++ replicate (length files) (Ok v))%list, st).
Proof.
  intros Hc Hv. revert rs.
  induction files as [|file files IH]; intros rs; simpl.
  - by rewrite app_nil_r.
  - unfold config._get_global at 2. rewrite Hc, Hv. simpl.
    rewrite IH. by rewrite <- app_assoc.
Qed.

(** X22. Once [_get_global] has returned a configuration that is true as a
    Python value, every later call returns it and leaves the state as it is,
    the count of openings of the file included, whatever the file holds or
    fails with by then. *)
Theorem get_global_cached {V} (truthy : V -> bool) (file : result V)
    (files : list (result V)) (st st1 : config.state V) (v : V) :
  config._get_global truthy file st = (Ok v, st1) -> truthy v = true ->
  config.calls truthy files st1 = (replicate (length files) (Ok v), st1).
Proof.
  intros Hcall Hv. unfold config.calls.
  by rewrite (calls_cached truthy files st1 v []
                (get_global_loaded _ _ _ _ _ Hcall) Hv).
Qed.

Lemma get_global_cached_witness :
  config.calls json_truthy [Err ValueError; Ok ∅; Ok a_config]
    (config.mkState _ (Some a_config) 1)
  = ([Ok a_config; Ok a_config; Ok a_config],
     config.mkState _ (Some a_config) 1).
Proof.
  refine (get_global_cached json_truthy (Ok a_config)
            [Err ValueError; Ok ∅; Ok a_config]
            (config.mkState _ None 0) (config.mkState _ (Some a_config) 1)
            a_config _ _); [reflexivity|vm_compute; reflexivity].
Defined.

(** X23. A configuration that is false as a Python value, such as the empty
    object, is not kept: after [_get_global] has returned one, the next call
    opens and loads the file again. *)
Theorem get_global_falsy_reloads {V} (truthy : V -> bool)
    (file file' : result V) (st st1 : config.state V) (v : V) :
  config._get_global truthy file st = (Ok v, st1) -> truthy v = false ->
  config._get_global truthy file' st1 = config.reload file' st1
  /\ config.opened (config._get_global truthy file' st1).2
     = S (S (config.opened st)).
Proof.
  intros Hcall Hv.
  pose proof (get_global_loaded _ _ _ _ _ Hcall) as Hc.
  assert (Hopened : config.opened st1 = S (config.opened st)).
  { revert Hcall. unfold config._get_global, config.reload.
    destruct (config.__CONFIG st) as [c|].
    - destruct (truthy c) eqn:Hcv; simpl.
      + intros [= -> <-]. congruence.
      + destruct file; [|done]. by intros [= <- <-].
    - destruct file; [|done]. by intros [= <- <-]. }
  unfold config._get_global. rewrite Hc, Hv. simpl. split; [done|].
  unfold config.reload. destruct file'; simpl; by rewrite Hopened.
Qed.

Lemma get_global_falsy_reloads_witness :
  config._get_global json_truthy (Ok a_config)
    (config.mkState _ (Some ∅) 1)
  = (Ok a_config, config.mkState _ (Some a_config) 2).
Proof.
  destruct (get_global_falsy_reloads json_truthy (Ok ∅) (Ok a_config)
              (config.mkState _ None 0) (config.mkState _ (Some ∅) 1) ∅)
    as [H _]; [reflexivity|reflexivity|].
  rewrite H. reflexivity.
Defined.

(** X24. Where no key can be read from a value that is false in Python, a
    call of [get_products_blacklist] that returns leaves a configuration in
    the cache, the returned set is read from it, and a later
    [get_components_blacklist] reads its set from that same configuration
    without opening the file. *)
Theorem blacklists_one_load {V W} (truthy : V -> bool)
    (subscript : V -> string -> result W)
    (set_of : W -> result (gset string))
    (file file' : result V) (st st1 : config.state V) (ps : gset string) :
  (forall v k, truthy v = false -> exists e, subscript v k = Err e) ->
  config.get_products_blacklist truthy subscript set_of file st
  = (Ok ps, st1) ->
  exists c,
    config.__CONFIG st1 = Some c
    /\ (w <-! subscript c "products: blacklist"; set_of w) = Ok ps
    /\ config.get_components_blacklist truthy subscript set_of file' st1
       = (w <-! subscript c "components: blacklist"; set_of w, st1).
Proof.
  intros Hfalsy. unfold config.get_products_blacklist.
  destruct (config._get_global truthy file st) as [[c|e] st'] eqn:Hcall;
    [|done].
  cbn [rbind]. intros [= Hps <-]. exists c.
  pose proof (get_global_loaded _ _ _ _ _ Hcall) as Hc.
  split; [done|]. split; [done|].
  unfold config.get_components_blacklist, config._get_global. rewrite Hc.
  destruct (truthy c) eqn:Hcv; [done|].
  destruct (Hfalsy c "products: blacklist" Hcv) as [e He].
  by rewrite He in Hps.
Qed.

Lemma blacklists_one_load_witness :
  config.get_components_blacklist json_truthy getitem json_set (Ok ∅)
    (config.mkState _ (Some a_config) 1)
  = (Ok {["Untriaged"]}, config.mkState _ (Some a_config) 1).
Proof.
  destruct (blacklists_one_load json_truthy getitem json_set
              (Ok a_config) (Ok ∅) (config.mkState _ None 0)
              (config.mkState _ (Some a_config) 1) {["Testing"]})
    as (c & Hc & _ & H).
  - intros v k Hv. exists KeyError. unfold getitem.
    apply negb_false_iff, bool_decide_eq_true in Hv. subst v.
    by rewrite lookup_empty.
  - vm_compute. reflexivity.
  - injection Hc as <-. rewrite H. vm_compute. reflexivity.
Defined.

